(** * lens_calibrate.py: a shallow embedding and its verified properties

    The development follows the layout of the script:
    - [Py]          the Python builtins the script relies on: exceptions,
                    [str] methods, [float], [sorted], [round], paths;
    - [Regex]       a backtracking matcher and the two patterns of the
                    script;
    - [Emit]        the record emitter at the end of [run_generate_xml];
    - [Pgm]         the raster decoder [load_pgm];
    - [World]       the working tree, external processes, and the monad of
                    the per-image jobs;
    - [Exif]        the metadata resolver [image_read_exif];
    - [Vignetting]  the radial binning of [calculate_vignetting];
    - [Steps]       converters, [tca_correct], [calculate_vignetting],
                    the jobs and the submission loop of [run_vignetting];
    - [Matching]    what it means for a text to match a pattern, to
                    state what the matcher accepts;
    - [Setup]       [init] and the submission loop of [run_tca];
    - [Config]      the template [lenses.conf], its parser and the
                    aggregator of [run_generate_xml];
    - [Ship]        the guard of [run_ship].
    The facts about each part follow the definitions.

    Strings are sequences of code points below 256.  Python floats are
    modelled by their exact rational value ([Py.pyfloat]); rounding to
    binary64 is not modelled.  External tools and numeric libraries are
    fields of [World.env], about which nothing is assumed. *)

From Stdlib Require Import ZArith NArith QArith Qround Lqa Bool List Sorted Permutation Lia.
From Stdlib Require Ascii String DecimalString.
From stdpp Require Import base option list strings gmap.

Import ListNotations.
Local Open Scope Z_scope.

Import Stdlib.Strings.Ascii.

(* ===================================================================== *)
(** * Python builtins *)
(* ===================================================================== *)

Module Py.

(** Exceptions raised by the modelled code. *)
Inductive exn : Type :=
| IndexError
| KeyError (key : string)
| ValueError (msg : string)
| AttributeError
| ZeroDivisionError
| UnicodeDecodeError
| TypeError
| FileNotFoundError (path : string)
| FileExistsError (path : string)
| CalledProcessError (cmd : list string).

(** A computation either returns or raises. *)
Inductive result (A : Type) : Type :=
| Ok (a : A)
| Err (e : exn).
Arguments Ok {A} a.
Arguments Err {A} e.

#[export] Instance result_ret : MRet result := fun A a => Ok a.
#[export] Instance result_bind : MBind result := fun A B f m =>
  match m with
  | Ok a => f a
  | Err e => Err e
  end.
#[export] Instance result_fmap : FMap result := fun A B f m =>
  match m with
  | Ok a => Ok (f a)
  | Err e => Err e
  end.

(** [for x in l: acc = f acc x], stopping at the first exception. *)
Fixpoint foldM {A B : Type} (f : B -> A -> result B) (acc : B) (l : list A)
  : result B :=
  match l with
  | [] => Ok acc
  | x :: l' => acc' ← f acc x; foldM f acc' l'
  end.

(** [[f x for x in l]], stopping at the first exception. *)
Fixpoint traverse {A B : Type} (f : A -> result B) (l : list A)
  : result (list B) :=
  match l with
  | [] => Ok []
  | x :: l' => y ← f x; ys ← traverse f l'; Ok (y :: ys)
  end.

(** [l[i]] for a non-negative index. *)
Definition index {A : Type} (l : list A) (i : nat) : result A :=
  match l !! i with
  | Some x => Ok x
  | None => Err IndexError
  end.

(** ** Characters and [str] methods *)

Definition code (c : ascii) : N := Ascii.N_of_ascii c.

Definition in_range (lo hi : N) (c : ascii) : bool :=
  ((lo <=? code c) && (code c <=? hi))%N.

(** [str.isspace] on code points below 256. *)
Definition is_space (c : ascii) : bool :=
  in_range 9 13 c || in_range 28 32 c || (code c =? 133)%N || (code c =? 160)%N.

Definition is_digit (c : ascii) : bool := in_range 48 57 c.

Fixpoint lstrip (s : string) : string :=
  match s with
  | String c s' => if is_space c then lstrip s' else s
  | EmptyString => EmptyString
  end.

Definition rstrip (s : string) : string := String.rev (lstrip (String.rev s)).

(** [str.strip()] *)
Definition strip (s : string) : string := rstrip (lstrip s).

(** [s.split(sep)] for a one-character separator: never the empty list. *)
Fixpoint split (sep : ascii) (s : string) : list string :=
  match s with
  | EmptyString => [EmptyString]
  | String c s' =>
      if Ascii.eqb c sep then EmptyString :: split sep s'
      else match split sep s' with
           | f :: fs => String c f :: fs
           | [] => [String c EmptyString]
           end
  end.

(** ASCII upper-casing, [str.upper] on the letters a-z. *)
Definition upper_char (c : ascii) : ascii :=
  if in_range 97 122 c then Ascii.ascii_of_N (code c - 32) else c.
Definition lower_char (c : ascii) : ascii :=
  if in_range 65 90 c then Ascii.ascii_of_N (code c + 32) else c.

Fixpoint map_string (f : ascii -> ascii) (s : string) : string :=
  match s with
  | EmptyString => EmptyString
  | String c s' => String (f c) (map_string f s')
  end.

Definition upper : string -> string := map_string upper_char.
Definition lower : string -> string := map_string lower_char.

(** ** [float(str)] *)

(** The value of a Python float: a finite number, an infinity or a
    NaN.  Finite values are kept exact: rounding to binary64, and the
    overflow of a large literal to an infinity, are not modelled. *)
Inductive pyfloat : Type :=
| Fin (q : Q)
| PInf
| NInf
| NaN.

Definition digit_of (c : ascii) : option Z :=
  if is_digit c then Some (Z.of_N (code c - 48)) else None.

(** The rest of a [digitpart] once its first digit is read:
    [(["_"] digit)*].  Returns the accumulated value, the number of
    digits read and the unread input. *)
Fixpoint digits_rest (acc : Z) (cnt : nat) (l : list ascii)
  : Z * nat * list ascii :=
  match l with
  | c :: l' =>
      match digit_of c with
      | Some d => digits_rest (10 * acc + d) (S cnt) l'
      | None =>
          if Ascii.eqb c "_"%char then
            match l' with
            | c2 :: l'' =>
                match digit_of c2 with
                | Some d => digits_rest (10 * acc + d) (S cnt) l''
                | None => (acc, cnt, l)
                end
            | [] => (acc, cnt, l)
            end
          else (acc, cnt, l)
      end
  | [] => (acc, cnt, l)
  end.

(** [digitpart ::= digit (["_"] digit)*], continuing the value [acc]. *)
Definition digitpart (acc : Z) (l : list ascii)
  : option (Z * nat * list ascii) :=
  match l with
  | c :: l' =>
      match digit_of c with
      | Some d => Some (digits_rest (10 * acc + d) 1 l')
      | None => None
      end
  | [] => None
  end.

(** [number ::= [digitpart] "." digitpart | digitpart ["."]]: the
    mantissa as an integer and the number of fraction digits. *)
Definition number (l : list ascii) : option (Z * nat * list ascii) :=
  match digitpart 0 l with
  | Some (i, _, rest) =>
      match rest with
      | c :: rest' =>
          if Ascii.eqb c "."%char then
            match digitpart i rest' with
            | Some (m, nf, rest'') => Some (m, nf, rest'')
            | None => Some (i, 0%nat, rest')
            end
          else Some (i, 0%nat, rest)
      | [] => Some (i, 0%nat, rest)
      end
  | None =>
      match l with
      | c :: rest' =>
          if Ascii.eqb c "."%char then
            match digitpart 0 rest' with
            | Some (m, nf, rest'') => Some (m, nf, rest'')
            | None => None
            end
          else None
      | [] => None
      end
  end.

(** [exponent ::= ("e" | "E") ["+" | "-"] digitpart]; the exponent is
    optional, but once "e" is read it has to be complete. *)
Definition exponent (l : list ascii) : option (Z * list ascii) :=
  match l with
  | c :: l' =>
      if Ascii.eqb c "e"%char || Ascii.eqb c "E"%char then
        match l' with
        | s :: l'' =>
            if Ascii.eqb s "+"%char then
              match digitpart 0 l'' with
              | Some (e, _, rest) => Some (e, rest)
              | None => None
              end
            else if Ascii.eqb s "-"%char then
              match digitpart 0 l'' with
              | Some (e, _, rest) => Some (- e, rest)
              | None => None
              end
            else
              match digitpart 0 l' with
              | Some (e, _, rest) => Some (e, rest)
              | None => None
              end
        | [] => None
        end
      else Some (0, l)
  | [] => Some (0, l)
  end.

(** [m * 10^e] as a rational. *)
Definition scale10 (m e : Z) : Q :=
  if 0 <=? e then inject_Z (m * 10 ^ e)
  else Qmake m (Z.to_pos (10 ^ (- e))).

Definition floatnumber (l : list ascii) : option Q :=
  match number l with
  | Some (m, nf, rest) =>
      match exponent rest with
      | Some (e, []) => Some (scale10 m (e - Z.of_nat nf))
      | _ => None
      end
  | None => None
  end.

Definition chars (s : string) : list ascii := String.list_ascii_of_string s.

(** [floatvalue ::= [sign] (floatnumber | infinity | nan)], case
    insensitive, surrounding whitespace removed. *)
Definition float_opt (s : string) : option pyfloat :=
  let body := chars (lower (strip s)) in
  let '(neg, body) :=
    match body with
    | c :: b' =>
        if Ascii.eqb c "-"%char then (true, b')
        else if Ascii.eqb c "+"%char then (false, b')
        else (false, body)
    | [] => (false, body)
    end in
  let word := String.string_of_list_ascii body in
  if String.eqb word "inf" || String.eqb word "infinity"
  then Some (if neg then NInf else PInf)
  else if String.eqb word "nan" then Some NaN
  else match floatnumber body with
       | Some q => Some (Fin (if neg then Qopp q else q))
       | None => None
       end.

(** [float(s)]: raises [ValueError] on anything else. *)
Definition float (s : string) : result pyfloat :=
  match float_opt s with
  | Some x => Ok x
  | None => Err (ValueError "could not convert string to float")
  end.

(** [x < y] on floats; every comparison with a NaN is false. *)
Definition float_lt (x y : pyfloat) : bool :=
  match x, y with
  | NaN, _ | _, NaN => false
  | NInf, NInf => false
  | NInf, _ => true
  | _, NInf => false
  | PInf, _ => false
  | Fin _, PInf => true
  | Fin a, Fin b => negb (Qle_bool b a)
  end.

Definition is_nan (x : pyfloat) : bool :=
  match x with NaN => true | _ => false end.

(** [x <= y] as a proposition, on NaN-free values. *)
Definition float_le (x y : pyfloat) : Prop :=
  match x, y with
  | NaN, _ | _, NaN => False
  | NInf, _ => True
  | _, PInf => True
  | Fin a, Fin b => (a <= b)%Q
  | _, _ => False
  end.

(** ** [sorted(l, key=...)] *)

(** Insert [x], which precedes every element of [l] in the input, into
    the sorted [l]: it goes before the first element that is not smaller
    (ties keep the input order). *)
Fixpoint insert_by {A : Type} (lt : A -> A -> bool) (x : A) (l : list A)
  : list A :=
  match l with
  | [] => [x]
  | y :: l' => if lt y x then y :: insert_by lt x l' else x :: l
  end.

(** A stable sort.  On keys that [lt] orders totally every stable sort
    returns this list; keys with a NaN are outside that guarantee. *)
Fixpoint sort_by {A : Type} (lt : A -> A -> bool) (l : list A) : list A :=
  match l with
  | [] => []
  | x :: l' => insert_by lt x (sort_by lt l')
  end.

Definition key_lt (a b : pyfloat * string) : bool := float_lt a.1 b.1.

(** [sorted(l, key=float)]: the keys are computed first, in order. *)
Definition sorted_by_float (l : list string) : result (list string) :=
  keyed ← traverse (fun s => k ← float s; Ok (k, s)) l;
  Ok (map snd (sort_by key_lt keyed)).

(** ** Python objects, text and paths *)

(** The objects the script stores in its dicts. *)
Inductive pyobj : Type :=
| PyNone
| PyStr (s : string)
| PyFloat (x : pyfloat).

Definition nl : string := String (ascii_of_N 10) EmptyString.
Definition dq : string := String (ascii_of_N 34) EmptyString.

(** [b.decode('ascii')] *)
Definition decode_ascii (b : list Byte.byte) : result string :=
  if forallb (fun c => (Byte.to_N c <? 128)%N) b
  then Ok (String.string_of_list_byte b)
  else Err UnicodeDecodeError.

(** [needle in hay] on strings. *)
Fixpoint contains (needle hay : string) : bool :=
  String.prefix needle hay
  || match hay with
     | EmptyString => false
     | String _ hay' => contains needle hay'
     end.

(** [str(n)] and ["%d" % n] for an integer. *)
Definition str_int (n : Z) : string :=
  DecimalString.NilZero.string_of_int (Z.to_int n).

(** [l.rfind(c)]: the last index of [c], or -1. *)
Fixpoint rfind_from (c : ascii) (l : list ascii) (i : Z) (found : Z) : Z :=
  match l with
  | [] => found
  | x :: l' => rfind_from c l' (i + 1) (if Ascii.eqb x c then i else found)
  end.
Definition rfind (c : ascii) (l : list ascii) : Z := rfind_from c l 0 (-1).

(** [os.path.splitext(p)]: the extension starts at the last dot of the
    last path component, unless only dots precede it there. *)
Definition splitext (p : string) : string * string :=
  let l := chars p in
  let sepIndex := rfind "/"%char l in
  let dotIndex := rfind "."%char l in
  if (sepIndex <? dotIndex)
     && existsb (fun c => negb (Ascii.eqb c "."%char))
          (take (Z.to_nat (dotIndex - (sepIndex + 1)))
             (drop (Z.to_nat (sepIndex + 1)) l))
  then (String.string_of_list_ascii (take (Z.to_nat dotIndex) l),
        String.string_of_list_ascii (drop (Z.to_nat dotIndex) l))
  else (p, EmptyString).

(** [os.path.basename(p)] *)
Definition basename (p : string) : string :=
  let l := chars p in
  String.string_of_list_ascii (drop (Z.to_nat (rfind "/"%char l + 1)) l).

(** [os.path.join(a, b)] *)
Definition path_join (a b : string) : string :=
  if String.prefix "/" b then b
  else if String.eqb a EmptyString then b
  else match last (chars a) with
       | Some c => if Ascii.eqb c "/"%char then a +:+ b else a +:+ "/" +:+ b
       | None => b
       end.

(** [round(q)]: to the nearest integer, halves to the even one. *)
Definition round (q : Q) : Z :=
  let f := Qfloor q in
  let d := (q - inject_Z f)%Q in
  match Qcompare d (1 # 2) with
  | Lt => f
  | Gt => f + 1
  | Eq => if Z.even f then f else f + 1
  end.

(** [l[i]] for a signed index: negative indices count from the end. *)
Definition norm_index (len : nat) (i : Z) : result nat :=
  if 0 <=? i then
    if i <? Z.of_nat len then Ok (Z.to_nat i) else Err IndexError
  else if - Z.of_nat len <=? i then Ok (Z.to_nat (Z.of_nat len + i))
  else Err IndexError.

(** The strings that [float] maps to a number. *)
Definition numeric (s : string) : Prop :=
  exists x, float_opt s = Some x /\ is_nan x = false.

(** A key computed by [float] next to its string. *)
Definition keyed_ok (p : pyfloat * string) : Prop :=
  float_opt p.2 = Some p.1 /\ is_nan p.1 = false.

(** [float(a) <= float(b)], both being numbers. *)
Definition float_key_le (a b : string) : Prop :=
  match float_opt a, float_opt b with
  | Some x, Some y => float_le x y
  | _, _ => False
  end.

End Py.


(* ===================================================================== *)
(** * The regular expressions of the script ([re.match], [re.search]) *)
(* ===================================================================== *)

Module Regex.

(** The fragment of [re] syntax the two patterns of the script use.
    Characters are code points (or byte values). *)
Inductive regex : Type :=
| Eps
| Bol                          (* ^ without MULTILINE *)
| Chr (p : N -> bool)          (* one character of a class *)
| Seq (r1 r2 : regex)
| Star (r : regex)             (* greedy repetition *)
| Group (i : nat) (r : regex). (* capturing group number i *)

(** [r+] *)
Definition Plus (r : regex) : regex := Seq r (Star r).

Definition one (c : N) : regex := Chr (N.eqb c).

(** A literal string. *)
Fixpoint lit (l : list N) : regex :=
  match l with
  | [] => Eps
  | c :: l' => Seq (one c) (lit l')
  end.

Definition codes (s : string) : list N :=
  map Ascii.N_of_ascii (String.list_ascii_of_string s).

Definition text (l : list N) : string :=
  String.string_of_list_ascii (map Ascii.ascii_of_N l).

(** The matcher state: how many characters precede it in the subject,
    what is left to read, and the groups captured so far (latest first). *)
Record mstate : Type := {
  pos : nat;
  rest : list N;
  caps : list (nat * list N)
}.

Definition advance (st : mstate) (l : list N) : mstate :=
  {| pos := S (pos st); rest := l; caps := caps st |}.

(** Leaving group [i], entered in state [st0], in state [st1]. *)
Definition capture (i : nat) (st0 st1 : mstate) : mstate :=
  {| pos := pos st1; rest := rest st1;
     caps := (i, take (pos st1 - pos st0) (rest st0)) :: caps st1 |}.

(** Backtracking matcher in continuation-passing style: [k] is what
    has to match after [r].  A star tries one more iteration first
    (greedy) and falls back to the continuation; an iteration has to
    consume input, so the length of the unread input bounds the number
    of iterations. *)
Fixpoint rmatch {A : Type} (r : regex) (st : mstate)
    (k : mstate -> option A) : option A :=
  match r with
  | Eps => k st
  | Bol => if (pos st =? 0)%nat then k st else None
  | Chr p =>
      match rest st with
      | c :: l => if p c then k (advance st l) else None
      | [] => None
      end
  | Seq r1 r2 => rmatch r1 st (fun st1 => rmatch r2 st1 k)
  | Star r1 =>
      (fix loop (fuel : nat) (st : mstate) : option A :=
         match fuel with
         | O => k st
         | S fuel' =>
             match rmatch r1 st
                     (fun st1 =>
                        if (length (rest st1) <? length (rest st))%nat
                        then loop fuel' st1 else None) with
             | Some a => Some a
             | None => k st
             end
         end) (length (rest st)) st
  | Group i r1 => rmatch r1 st (fun st1 => k (capture i st st1))
  end.

Definition start (p : nat) (s : list N) : mstate :=
  {| pos := p; rest := s; caps := [] |}.

(** [re.match(r, s)]: a match at the beginning of [s]. *)
Definition re_match (r : regex) (s : list N) : option mstate :=
  rmatch r (start 0 s) Some.

(** [re.search(r, s)]: the first offset at which [r] matches. *)
Fixpoint search_from (r : regex) (p : nat) (s : list N) : option mstate :=
  match rmatch r (start p s) Some with
  | Some st => Some st
  | None =>
      match s with
      | [] => None
      | _ :: s' => search_from r (S p) s'
      end
  end.

Definition re_search (r : regex) (s : list N) : option mstate :=
  search_from r 0 s.

(** [m.group(i)] of a group that took part in the match. *)
Fixpoint group (cs : list (nat * list N)) (i : nat) : option (list N) :=
  match cs with
  | [] => None
  | (j, t) :: cs' => if (j =? i)%nat then Some t else group cs' i
  end.

(** ** Character classes *)

Definition any_of (l : list N) (c : N) : bool :=
  existsb (N.eqb c) l.

(** [\s] in a bytes pattern: blank, \t, \n, \v, \f, \r. *)
Definition ws (c : N) : bool := any_of [32; 9; 10; 11; 12; 13]%N c.
(** [\d] in a bytes pattern *)
Definition digit (c : N) : bool := ((48 <=? c) && (c <=? 57))%N.
(** [.] without DOTALL *)
Definition dot (c : N) : bool := negb (c =? 10)%N.
(** [[\r\n]] *)
Definition crlf (c : N) : bool := any_of [13; 10]%N c.
(** [[.0]] *)
Definition dot_zero (c : N) : bool := any_of [46; 48]%N c.
(** [[-.0-9]] *)
Definition signed_decimal (c : N) : bool :=
  any_of [45; 46]%N c || digit c.

(** ** The two patterns *)

(** Any number of comment lines: optional blanks, [#], the rest of the
    line and its end-of-line character. *)
Definition comments : regex :=
  Star (Seq (Star (Chr ws))
          (Seq (one 35) (Seq (Star (Chr dot)) (Chr crlf)))).

(** The header pattern of [load_pgm] (source lines 966-969).  Group 1
    is the whole header: the magic [P5] at the very beginning, then
    width (group 2), height (group 3) and maximum value (group 4), each
    followed by one whitespace byte and by comment lines; the comment
    lines after the maximum value each take one more whitespace byte. *)
Definition pgm_header : regex :=
  Group 1
    (Seq Bol (Seq (lit (codes "P5")) (Seq (Chr ws) (Seq comments
    (Seq (Group 2 (Plus (Chr digit))) (Seq (Chr ws) (Seq comments
    (Seq (Group 3 (Plus (Chr digit))) (Seq (Chr ws) (Seq comments
    (Seq (Group 4 (Plus (Chr digit))) (Seq (Chr ws)
    (Star (Seq (Star (Chr ws))
             (Seq (one 35) (Seq (Star (Chr dot))
                (Seq (Chr crlf) (Chr ws)))))))))))))))))).

(** One ignored field of dots and zeros, a colon, and a captured field
    of signs, dots and digits. *)
Definition tca_field (i : nat) : regex :=
  Seq (Plus (Chr dot_zero)) (Seq (one 58) (Group i (Plus (Chr signed_decimal)))).

(** The pattern of [tca_correct] (source line 915): [-r ], two fields
    separated by a colon, [ -b ] and two more fields; the named groups
    [br], [vr], [bb], [vb] are numbered 1 to 4. *)
Definition tca_data : regex :=
  Seq (lit (codes "-r "))
    (Seq (tca_field 1) (Seq (one 58) (Seq (tca_field 2)
    (Seq (lit (codes " -b "))
    (Seq (tca_field 3) (Seq (one 58) (tca_field 4))))))).

End Regex.
(* ===================================================================== *)
(** * The record emitter of [run_generate_xml] *)
(* ===================================================================== *)

Module Emit.
Import Py.

(** A Python [dict] with string keys: insertion ordered, keys distinct. *)
Definition dict (V : Type) : Type := list (string * V).

Definition keys {V : Type} (d : dict V) : list string := map fst d.

(** [d[k]] *)
Fixpoint get {V : Type} (d : dict V) (k : string) : result V :=
  match d with
  | [] => Err (KeyError k)
  | (k', v) :: d' => if String.eqb k' k then Ok v else get d' k
  end.

(** An element of the list [data]: a string, or Python's [None]. *)
Definition is_none (o : option string) : bool :=
  match o with None => true | Some _ => false end.

(** ["%s" % o] *)
Definition str (o : option string) : string :=
  match o with
  | None => "None"
  | Some s => s
  end.

(** What [f.write] receives: literal text, or one calibration element
    with its attributes in the order of the format string. *)
Inductive line : Type :=
| Raw (text : string)
| Elem (tag : string) (attrs : list (string * string)).


Definition render_attr (a : string * string) : string :=
  " " +:+ a.1 +:+ "=" +:+ dq +:+ a.2 +:+ dq.

(** The text written for a line; elements are indented by twelve blanks. *)
Definition render (l : line) : string :=
  match l with
  | Raw text => text
  | Elem tag attrs =>
      "            <" +:+ tag +:+ String.concat "" (map render_attr attrs)
        +:+ " />" +:+ nl
  end.

(** The lens entry built by [parse_lenses_config] and the two artifact
    scans: the configuration keys and the three calibration maps. *)
Record lens : Type := {
  conf : dict string;
  distortion : dict string;
  tca : dict (dict string);
  vignetting : dict (dict (dict (dict string)))
}.

(** Body of the distortion loop (source lines 1497-1505). *)
Definition distortion_line (focal_length value : string) : result line :=
  let data := map (fun s => Some (strip s)) (split "," value) in
  d1 ← index data 1;
  if is_none d1 then
    d0 ← index data 0;
    Ok (Elem "distortion"
          [("model", "poly3"); ("focal", focal_length); ("k1", str d0)])
  else
    d0 ← index data 0;
    d1 ← index data 1;
    d2 ← index data 2;
    Ok (Elem "distortion"
          [("model", "ptlens"); ("focal", focal_length);
           ("a", str d0); ("b", str d1); ("c", str d2)]).

Definition emit_distortion (d : dict string) : result (list line) :=
  focal_lengths ← sorted_by_float (keys d);
  traverse (fun focal_length =>
              value ← get d focal_length;
              distortion_line focal_length value) focal_lengths.

(** Body of the TCA loop (source lines 1516-1524). *)
Definition tca_line (focal_length : string) (data : dict string)
  : result line :=
  complex_tca ← get data "complex_tca";
  if String.eqb complex_tca "True" then
    br ← get data "br";
    vr ← get data "vr";
    bb ← get data "bb";
    vb ← get data "vb";
    Ok (Elem "tca"
          [("model", "poly3"); ("focal", focal_length);
           ("br", br); ("vr", vr); ("bb", bb); ("vb", vb)])
  else
    vr ← get data "vr";
    vb ← get data "vb";
    Ok (Elem "tca"
          [("model", "poly3"); ("focal", focal_length);
           ("vr", vr); ("vb", vb)]).

Definition emit_tca (t : dict (dict string)) : result (list line) :=
  focal_lengths ← sorted_by_float (keys t);
  traverse (fun focal_length =>
              data ← get t focal_length;
              tca_line focal_length data) focal_lengths.

Definition vignetting_elem (focal_length aperture _distance : string)
    (data : dict string) : result line :=
  k1 ← get data "k1";
  k2 ← get data "k2";
  k3 ← get data "k3";
  Ok (Elem "vignetting"
        [("model", "pa"); ("focal", focal_length); ("aperture", aperture);
         ("distance", _distance); ("k1", k1); ("k2", k2); ("k3", k3)]).

(** The distance written for a key: ["inf"] becomes ["1000"]. *)
Definition rewrite_distance (distance : string) : string :=
  if String.eqb distance "inf" then "1000" else distance.

(** The distances written for one key (source lines 1541-1548): the
    key itself, ["inf"] rewritten, or both 10 and 1000 when the only
    distance of the aperture is written as 1000. *)
Definition written_distances (distances : dict (dict string))
    (distance : string) : list string :=
  let distance := rewrite_distance distance in
  if (length (keys distances) =? 1)%nat && String.eqb distance "1000"
  then ["10"; "1000"]
  else [distance].

(** Body of the distance loop (source lines 1539-1555). *)
Definition vignetting_lines (focal_length aperture : string)
    (distances : dict (dict string)) (distance : string)
  : result (list line) :=
  data ← get distances distance;
  traverse (fun _distance =>
              vignetting_elem focal_length aperture _distance data)
           (written_distances distances distance).

Definition emit_aperture (focal_length aperture : string)
    (distances : dict (dict string)) : result (list line) :=
  ds ← sorted_by_float (keys distances);
  ls ← traverse (vignetting_lines focal_length aperture distances) ds;
  Ok (concat ls).

Definition emit_focal (focal_length : string)
    (apertures : dict (dict (dict string))) : result (list line) :=
  aps ← sorted_by_float (keys apertures);
  ls ← traverse (fun aperture =>
                    distances ← get apertures aperture;
                    emit_aperture focal_length aperture distances) aps;
  Ok (concat ls).

Definition emit_vignetting (v : dict (dict (dict (dict string))))
  : result (list line) :=
  focal_lengths ← sorted_by_float (keys v);
  ls ← traverse (fun focal_length =>
                    apertures ← get v focal_length;
                    emit_focal focal_length apertures) focal_lengths;
  Ok (concat ls).

(** One [<lens>] element (source lines 1478-1558). *)
Definition emit_lens (lens_model : string) (l : lens) : result (list line) :=
  maker ← get (conf l) "maker";
  mount ← get (conf l) "mount";
  cropfactor ← get (conf l) "cropfactor";
  type ← get (conf l) "type";
  d ← emit_distortion (distortion l);
  t ← emit_tca (tca l);
  v ← emit_vignetting (vignetting l);
  Ok ([Raw ("    <lens>" +:+ nl);
       Raw ("        <maker>" +:+ maker +:+ "</maker>" +:+ nl);
       Raw ("        <model>" +:+ lens_model +:+ "</model>" +:+ nl);
       Raw ("        <mount>" +:+ mount +:+ "</mount>" +:+ nl);
       Raw ("        <cropfactor>" +:+ cropfactor +:+ "</cropfactor>" +:+ nl)]
      ++ (if String.eqb type "normal" then []
          else [Raw ("        <type>" +:+ type +:+ "</type>" +:+ nl)])
      ++ [Raw ("        <calibration>" +:+ nl)]
      ++ d ++ t ++ v
      ++ [Raw ("        </calibration>" +:+ nl); Raw ("    </lens>" +:+ nl)]).

(** The document written by [run_generate_xml] for the aggregated
    [lenses] (source lines 1463-1559); the output file is named after the
    first lens, so an empty [lenses] raises before anything is written. *)
Definition emit_lensdatabase (lenses : dict lens) : result (list line) :=
  first_key ← index (keys lenses) 0;
  ls ← traverse (fun '(lens_model, l) => emit_lens lens_model l) lenses;
  Ok ([Raw ("<lensdatabase>" +:+ nl)] ++ concat ls
      ++ [Raw ("</lensdatabase>" +:+ nl)]).

(** ** Reading the output back, and well-formed inputs *)

(** The value of attribute [name] on an element line. *)
Definition attr (name : string) (ln : line) : option string :=
  match ln with
  | Raw _ => None
  | Elem _ attrs =>
      match get attrs name with Ok v => Some v | Err _ => None end
  end.

Definition has (name value : string) (ln : line) : bool :=
  match attr name ln with
  | Some v => String.eqb v value
  | None => false
  end.

Definition attrs_of (name : string) (out : list line) : list string :=
  omap (attr name) out.

(** The [<vignetting>] element with the given attribute values. *)
Definition vig (focal_length aperture distance k1 k2 k3 : string) : line :=
  Elem "vignetting"
    [("model", "pa"); ("focal", focal_length); ("aperture", aperture);
     ("distance", distance); ("k1", k1); ("k2", k2); ("k3", k3)].

Definition coefficients (data : dict string) (k1 k2 k3 : string) : Prop :=
  get data "k1" = Ok k1 /\ get data "k2" = Ok k2 /\ get data "k3" = Ok k3.

(** A map as the artifact scans build it: distinct keys written by
    [str(float)], values complete. *)
Definition wf_dict {V : Type} (wf_value : V -> Prop) (d : dict V) : Prop :=
  NoDup (keys d) /\ Forall numeric (keys d) /\ Forall (fun kv => wf_value kv.2) d.

Definition wf_data (data : dict string) : Prop :=
  exists k1 k2 k3, coefficients data k1 k2 k3.

Definition wf_distances : dict (dict string) -> Prop := wf_dict wf_data.
Definition wf_apertures : dict (dict (dict string)) -> Prop :=
  wf_dict wf_distances.
Definition wf_vignetting : dict (dict (dict (dict string))) -> Prop :=
  wf_dict wf_apertures.





(** A vignetting line of focal length [f] and aperture [a]; its distance
    is never the literal key ["inf"]. *)
Definition line_at (f a : string) (ln : line) : Prop :=
  attr "focal" ln = Some f /\ attr "aperture" ln = Some a
  /\ attr "distance" ln <> Some "inf".

(** The lines of a computation that is known to return. *)
Definition lines_of (r : result (list line)) : list line :=
  match r with Ok ls => ls | Err _ => [] end.

End Emit.

(* ===================================================================== *)
(** * Decoding the grayscale raster ([load_pgm]) *)
(* ===================================================================== *)

Module Pgm.
Import Py Regex.

(** The numpy sample types [load_pgm] selects, all big-endian. *)
Inductive dtype : Type :=
| UInt8
| UInt16
| Float32.

Definition itemsize (dt : dtype) : nat :=
  match dt with
  | UInt8 => 1
  | UInt16 => 2
  | Float32 => 4
  end.

(** [int(b)] on a run of ASCII digits. *)
Definition int_of_digits (l : list N) : N :=
  fold_left (fun acc c => (10 * acc + (c - 48))%N) l 0%N.

(** The big-endian value of the bytes of one sample; for [Float32] this
    is the bit pattern of the float. *)
Definition be_value (bs : list Byte.byte) : N :=
  fold_left (fun acc b => (256 * acc + Byte.to_N b)%N) bs 0%N.

(** Sample [i] of a buffer read with [k] bytes per sample from [offset]. *)
Definition sample_at (buf : list Byte.byte) (k offset i : nat) : N :=
  be_value (take k (drop (offset + i * k) buf)).

(** [np.frombuffer(buf, dtype=dt, count=count, offset=offset)] *)
Definition frombuffer (buf : list Byte.byte) (dt : dtype) (count offset : nat)
  : result (list N) :=
  if (length buf <? offset)%nat then
    Err (ValueError "offset must be non-negative and no greater than buffer length")
  else if (length buf - offset <? count * itemsize dt)%nat then
    Err (ValueError "buffer is smaller than requested size")
  else Ok (map (sample_at buf (itemsize dt) offset) (seq 0 count)).

(** [a.reshape((height, width))] of a flat array of [height * width]
    elements: the rows. *)
Definition reshape (height width : nat) (a : list N) : list (list N) :=
  map (fun y => take width (drop (y * width) a)) (seq 0 height).

(** The groups of the header match: header text, width, height, maxval. *)
Definition header_groups (buf : list Byte.byte)
  : option (list N * list N * list N * list N) :=
  match re_search pgm_header (map Byte.to_N buf) with
  | Some st =>
      match group (caps st) 1, group (caps st) 2,
            group (caps st) 3, group (caps st) 4 with
      | Some header, Some width, Some height, Some maxval =>
          Some (header, width, height, maxval)
      | _, _, _, _ => None
      end
  | None => None
  end.

Definition not_netpgm (filename : string) : exn :=
  ValueError ("Not a NetPGM file: '" +:+ filename +:+ "'").

Record raster : Type := {
  width : nat;
  height : nat;
  sample_type : dtype;
  rows : list (list N)
}.

(** [load_pgm(filename)] on the bytes [buf] read from the file
    (source lines 964-994). *)
Definition load_pgm (filename : string) (buf : list Byte.byte) : result raster :=
  match header_groups buf with
  | None => Err (not_netpgm filename)
  | Some (header, width, height, maxval) =>
      let width := N.to_nat (int_of_digits width) in
      let height := N.to_nat (int_of_digits height) in
      let maxval := int_of_digits maxval in
      dt ← (if (maxval =? 255)%N then Ok UInt8
            else if (maxval =? 65535)%N then Ok UInt16
            else if (maxval =? 4294967295)%N then Ok Float32
            else Err (not_netpgm filename));
      shape ← frombuffer buf dt (width * height) (length header);
      Ok {| width := width; height := height; sample_type := dt;
            rows := reshape height width shape |}
  end.


(** The sample type for a maximum value: equality with one of three
    values (the chain of tests of source lines 979-986). *)
Definition dtype_of_maxval (maxval : N) : option dtype :=
  if (maxval =? 255)%N then Some UInt8
  else if (maxval =? 65535)%N then Some UInt16
  else if (maxval =? 4294967295)%N then Some Float32
  else None.


Definition bytes_of (s : string) : list Byte.byte := String.list_byte_of_string s.

End Pgm.

(* ===================================================================== *)
(** * The working directory, external processes and the job monad *)
(* ===================================================================== *)

Module World.
Import Py.

(** What a path of the working tree holds. *)
Inductive content : Type :=
| Bytes (b : list Byte.byte)        (* images written by the converters *)
| Text (t : list string)            (* lines written by the script *)
| Config (section : string) (items : list (string * string))
                                    (* one section written by configparser *)
| Directory.

(** How an external process ends: the executable is missing ([OSError]),
    or it exits with a return code, having written to its output
    streams and possibly changed the working tree. *)
Inductive outcome : Type :=
| NotFound
| Exited (returncode : Z) (output errors : list Byte.byte)
         (fs' : gmap string content).

(** The three views the script takes of a metadata tag: [.value] as
    text, [.human_value], and [float(.value)] where that is defined. *)
Record tag : Type := {
  value : string;
  human_value : string;
  number : option pyfloat
}.

(** The collaborators outside the script: processes, libraries and the
    floating-point routines.  Nothing is assumed about them. *)
Record env : Type := {
  run_process : list string -> gmap string content -> outcome;
  which : string -> option string;              (* shutil.which *)
  mkdtemp : string -> string;                   (* tempfile.TemporaryDirectory *)
  walk : string -> gmap string content -> list (string * list string * list string);
                                                (* os.walk: (path, dirs, files) *)
  read_metadata : string -> gmap string content -> result (gmap string tag);
                                                (* pyexiv2 ImageMetadata.read *)
  json_loads : list Byte.byte -> result pyobj;
  repr_bytes : list Byte.byte -> string;
  decode_text : list Byte.byte -> string;
  str_float : pyfloat -> string;                (* str(x) *)
  format_float : string -> pyfloat -> string;   (* "%f" % x and the like *)
  hypot : Q -> Q -> Q;                          (* math.hypot *)
  float32_value : N -> Q;                       (* a float32 from its bits *)
  leastsq : (Q * Q * Q * Q -> list Q) -> Q * Q * Q * Q -> Q * Q * Q * Q
                                                (* scipy.optimize.leastsq:
                                                   residuals, first guess *)
}.

(** The state a job acts on: the working tree, the external processes
    started so far and the lines printed so far. *)
Record world : Type := {
  fs : gmap string content;
  calls : list (list string);
  printed : list string
}.

(** A job step: it returns or raises, and leaves a new state either way. *)
Definition M (A : Type) : Type := world -> result A * world.

Definition ret {A : Type} (a : A) : M A := fun w => (Ok a, w).

#[export] Instance M_ret : MRet M := @ret.
#[export] Instance M_bind : MBind M := fun A B f m w =>
  match m w with
  | (Ok a, w') => f a w'
  | (Err e, w') => (Err e, w')
  end.

Definition raise {A : Type} (e : exn) : M A := fun w => (Err e, w).

Definition lift {A : Type} (r : result A) : M A := fun w => (r, w).

Definition print (line : string) : M unit := fun w =>
  (Ok tt, {| fs := fs w; calls := calls w; printed := printed w ++ [line] |}).

(** [os.path.exists(path)] *)
Definition path_exists (path : string) : M bool := fun w =>
  (Ok (bool_decide (is_Some (fs w !! path))), w).

(** [os.path.isdir(path)] *)
Definition is_dir (path : string) : M bool := fun w =>
  (Ok (match fs w !! path with Some Directory => true | _ => false end), w).

(** [os.path.isfile(path)] *)
Definition is_file (path : string) : M bool := fun w =>
  (Ok (match fs w !! path with
       | Some Directory | None => false
       | Some _ => true
       end), w).

(** [path] now holds [c].  Writing to a path that is a directory is
    outside the model. *)
Definition put (path : string) (c : content) : M unit := fun w =>
  (Ok tt, {| fs := <[path := c]> (fs w); calls := calls w;
             printed := printed w |}).

(** [os.mkdir(path)] *)
Definition mkdir (path : string) : M unit := fun w =>
  match fs w !! path with
  | Some _ => (Err (FileExistsError path), w)
  | None => put path Directory w
  end.

(** The text configparser writes for one section: the header, one
    line per option (continuation lines indented by a tab) and an empty
    line. *)
Fixpoint indent_continuations (value : string) : string :=
  match value with
  | EmptyString => EmptyString
  | String c value' =>
      if Ascii.eqb c (ascii_of_N 10)
      then String c (String (ascii_of_N 9) (indent_continuations value'))
      else String c (indent_continuations value')
  end.

Definition render_config (section : string) (items : list (string * string))
  : string :=
  "[" +:+ section +:+ "]" +:+ nl
  +:+ String.concat ""
        (map (fun kv => kv.1 +:+ " = " +:+ indent_continuations kv.2 +:+ nl)
             items)
  +:+ nl.

(** [open(path, 'rb').read()] *)
Definition read_bytes (path : string) : M (list Byte.byte) := fun w =>
  match fs w !! path with
  | Some (Bytes b) => (Ok b, w)
  | Some (Text t) => (Ok (String.list_byte_of_string (String.concat "" t)), w)
  | Some (Config section items) =>
      (Ok (String.list_byte_of_string (render_config section items)), w)
  | Some Directory | None => (Err (FileNotFoundError path), w)
  end.

(** [with open(path, 'w') as f: for x in items: f.write(fmt x)]: the
    file is created first, and keeps the lines written before [fmt]
    raises. *)
Fixpoint format_lines {A : Type} (fmt : A -> result string) (items : list A)
  : list string * option exn :=
  match items with
  | [] => ([], None)
  | x :: items' =>
      match fmt x with
      | Ok line => let '(ls, e) := format_lines fmt items' in (line :: ls, e)
      | Err e => ([], Some e)
      end
  end.

Definition write_lines {A : Type} (path : string) (fmt : A -> result string)
    (items : list A) : M unit :=
  let '(ls, e) := format_lines fmt items in
  put path (Text ls);;
  match e with
  | None => ret tt
  | Some e => raise e
  end.

(** A step that starts no process and leaves the working tree alone. *)
Definition quiet {A : Type} (m : M A) : Prop :=
  forall w r w', m w = (r, w') -> calls w' = calls w /\ fs w' = fs w.

(** ** configparser *)

(** [value.replace('%%', '')] *)
Fixpoint drop_percent_pairs (l : list ascii) : list ascii :=
  match l with
  | [] => []
  | c :: l' =>
      match l' with
      | c' :: l'' =>
          if Ascii.eqb c "%"%char && Ascii.eqb c' "%"%char
          then drop_percent_pairs l''
          else c :: drop_percent_pairs l'
      | [] => [c]
      end
  end.

(** After the opening of an interpolation key: what follows its name
    (one character at least), the closing parenthesis and the [s]. *)
Fixpoint key_rest (seen : bool) (l : list ascii) : option (list ascii) :=
  match l with
  | [] => None
  | c :: l' =>
      if Ascii.eqb c ")"%char then
        match l' with
        | c' :: l'' => if seen && Ascii.eqb c' "s"%char then Some l'' else None
        | [] => None
        end
      else key_rest true l'
  end.

(** Removing every interpolation key, left to right. *)
Fixpoint drop_keys (fuel : nat) (l : list ascii) : list ascii :=
  match fuel with
  | O => l
  | S fuel' =>
      match l with
      | [] => []
      | c :: l' =>
          match (if Ascii.eqb c "%"%char then
                   match l' with
                   | c' :: l'' =>
                       if Ascii.eqb c' "("%char then key_rest false l''
                       else None
                   | [] => None
                   end
                 else None) with
          | Some rest => drop_keys fuel' rest
          | None => c :: drop_keys fuel' l'
          end
      end
  end.

(** The check configparser makes when an option is set: a percent sign
    has to be doubled or to open an interpolation key. *)
Definition before_set (value : string) : result string :=
  let tmp_value := drop_percent_pairs (chars value) in
  let tmp_value := drop_keys (length tmp_value) tmp_value in
  if existsb (Ascii.eqb "%"%char) tmp_value
  then Err (ValueError "invalid interpolation syntax")
  else Ok value.

Section Processes.
Context (E : env).

(** Start an external process and wait for it. *)
Definition spawn (cmd : list string) : M outcome := fun w =>
  let o := run_process E cmd (fs w) in
  (Ok o,
   {| fs := match o with Exited _ _ _ fs' => fs' | NotFound => fs w end;
      calls := calls w ++ [cmd];
      printed := printed w |}).

End Processes.

End World.

(* ===================================================================== *)
(** * The metadata resolver ([image_read_exif]) *)
(* ===================================================================== *)

Module Exif.
Import Py World.

(** The dict returned by [image_read_exif]. *)
Record exif : Type := {
  lens_model : string;
  focal_length : pyfloat;
  aperture : pyfloat;
  aspect_ratio : option string;
  crop_factor : pyobj;
  lens_maker : option string;
  mount : option string
}.

Definition has_exif_tag (data : gmap string tag) (name : string) : bool :=
  bool_decide (is_Some (data !! name)).

(** [lens_model = data[name].human_value] if the tag is present. *)
Definition or_human (data : gmap string tag) (name : string)
    (lens_model : option string) : option string :=
  match data !! name with
  | Some t => Some (human_value t)
  | None => lens_model
  end.

(** [lens_model = data[name].value] if the tag is present. *)
Definition or_value (data : gmap string tag) (name : string)
    (lens_model : option string) : option string :=
  match data !! name with
  | Some t => Some (value t)
  | None => lens_model
  end.

(** The lens model (source lines 391-432): the standard tag, or else
    the manufacturer tags tested one after the other, each present one
    assigning [lens_model] anew; ["Standard"] when it is still [None]. *)
Definition resolve_lens_model (data : gmap string tag) : string :=
  let lens_model :=
    match data !! "Exif.Photo.LensModel" with
    | Some t => Some (value t)
    | None =>
        let lens_model := or_human data "Exif.NikonLd3.LensIDNumber" None in
        let lens_model := or_value data "Exif.Panasonic.LensType" lens_model in
        let lens_model := or_human data "Exif.Sony1.LensID" lens_model in
        let lens_model := or_human data "Exif.Minolta.LensID" lens_model in
        or_human data "Exif.OlympusEq.LensType" lens_model
    end in
  match lens_model with
  | Some m => m
  | None => "Standard"
  end.

(** The resolution as the specification words it: the first tag present
    in the order Nikon, Panasonic, Sony, Minolta, Olympus. *)
Definition spec_lens_model (data : gmap string tag) : string :=
  match data !! "Exif.NikonLd3.LensIDNumber" with
  | Some t => human_value t
  | None =>
  match data !! "Exif.Panasonic.LensType" with
  | Some t => value t
  | None =>
  match data !! "Exif.Sony1.LensID" with
  | Some t => human_value t
  | None =>
  match data !! "Exif.Minolta.LensID" with
  | Some t => human_value t
  | None =>
  match data !! "Exif.OlympusEq.LensType" with
  | Some t => human_value t
  | None => "Standard"
  end end end end end.

(** [x == 0] *)
Definition is_zero (x : pyfloat) : bool :=
  match x with
  | Fin q => Qeq_bool q 0
  | _ => false
  end.

(** [float(data[name].value)], or 0.0 and a message to the operator. *)
Definition read_number (data : gmap string tag) (filename name : string)
  : M pyfloat :=
  match data !! name with
  | Some t =>
      match number t with
      | Some x => ret x
      | None => raise TypeError
      end
  | None =>
      print (filename +:+ " doesn't have " +:+ name +:+ " set. "
             +:+ "Please fix it manually.");;
      ret (Fin 0)
  end.

(** The lens maker loop (source lines 516-535): the first tag present
    decides and ends the loop. *)
Fixpoint resolve_lens_maker (data : gmap string tag) (tag_list : list string)
    (lens_maker : option string) : M (option string) :=
  match tag_list with
  | [] => ret lens_maker
  | name :: tag_list' =>
      match data !! name with
      | Some t =>
          let hv := human_value t in
          let lens_maker := hv in
          let lens_maker :=
            if contains "Olympus Zuiko Digital" hv
            then "Olympus Zuiko Digital" else lens_maker in
          let lens_maker :=
            if contains "Olympus OM System" hv
            then "Olympus Zuiko OM System" else lens_maker in
          let lens_maker :=
            if String.eqb hv "None" then "[unknown}" else lens_maker in
          ret (Some lens_maker)
      | None =>
          print "***no exif available";;
          resolve_lens_maker data tag_list' (Some "[unknown]")
      end
  end.

Section Resolver.
Context (E : env).

(** The crop factor, asked from exiftool (source lines 488-498). *)
Definition read_crop_factor (filename : string) : M pyobj :=
  o ← spawn E ["exiftool"; "-T"; "-scalefactor*"; filename];
  match o with
  | NotFound => raise (FileNotFoundError "exiftool")
  | Exited returncode output errors _ =>
      if returncode =? 0 then lift (json_loads E output)
      else print ("exiftool error  " +:+ repr_bytes E errors);;
           ret (PyFloat (Fin 0))
  end.

(** [image_read_exif(filename)] (source lines 366-560). *)
Definition image_read_exif (filename : string) : M exif :=
  data ← (fun w => (read_metadata E filename (fs w), w));
  aspect_ratio ←
    match data !! "Exif.OlympusIp.AspectRatio" with
    | Some t => ret (Some (human_value t))
    | None => print (filename +:+ "  has no exif available");; ret None
    end;
  let lens_model := resolve_lens_model data in
  focal_length ← read_number data filename "Exif.Photo.FocalLength";
  aperture ← read_number data filename "Exif.Photo.FNumber";
  (if is_zero aperture then
     print (nl +:+ "Lens metadata not found. Is the lens legacy manual?");;
     print "Please add metadata with:";;
     print "exiftool -Exif:LensModel='long lens model name' -Exif:FocalLength='00.0 mm' -Exif:FNumber='0' filename.ext";;
     print "eg:";;
     print "exiftool -Exif:LensModel='Olympus OM System ZUIKO Auto-S 50mm F1:1.8' -Exif:FocalLength='50.0 mm' -Exif:FNumber='8' PC294201.ORF"
   else ret tt);;
  crop_factor ← read_crop_factor filename;
  lens_maker ←
    resolve_lens_maker data ["Exif.Photo.LensModel"; "Exif.OlympusEq.LensType"]
      None;
  mount ←
    (if bool_decide (lens_maker = Some "[unknown}") then
       print "no exif available";; ret (Some "[unknown]")
     else
       let mount := None in
       let mount :=
         if bool_decide (lens_maker = Some "Olympus Zuiko Digital")
         then Some "4/3 System" else mount in
       let mount :=
         if bool_decide (lens_maker = Some "Olympus Zuiko OM System")
         then Some "Olympus OM" else mount in
       ret mount);
  ret {| lens_model := lens_model; focal_length := focal_length;
          aperture := aperture; aspect_ratio := aspect_ratio;
          crop_factor := crop_factor; lens_maker := lens_maker;
          mount := mount |}.

End Resolver.

End Exif.

(* ===================================================================== *)
(** * Radial binning ([calculate_vignetting], source lines 1039-1050) *)
(* ===================================================================== *)

Module Vignetting.
Import Py.

Definition number_of_bins : nat := 16.
Definition maximal_radius : Q := 1.

(** [int(round(radius / maximal_radius * (number_of_bins - 1)))] *)
Definition bin_index (radius : Q) : Z :=
  round (radius / maximal_radius
         * inject_Z (Z.of_nat (number_of_bins - 1)))%Q.

(** [bins[bin_index].append(intensity)] *)
Definition append_to_bin (bins : list (list Q)) (bin_index : Z) (intensity : Q)
  : result (list (list Q)) :=
  i ← norm_index (length bins) bin_index;
  match bins !! i with
  | Some bin => Ok (<[i := bin ++ [intensity]]> bins)
  | None => Err IndexError
  end.

(** The loop over [zip(radii, intensities)]. *)
Definition fill_bins (samples : list (Q * Q)) : result (list (list Q)) :=
  foldM (fun bins s => append_to_bin bins (bin_index s.1) s.2)
        (replicate number_of_bins []) samples.

(** [[i / (number_of_bins - 1) * maximal_radius for i in range(number_of_bins)]] *)
Definition bin_radii : list Q :=
  map (fun i : nat =>
         (inject_Z (Z.of_nat i) / inject_Z (Z.of_nat (number_of_bins - 1))
          * maximal_radius)%Q)
      (seq 0 number_of_bins).

Definition Qlt_bool (a b : Q) : bool := negb (Qle_bool b a).

(** [np.median(bin)]: the middle value of the sorted bin, the mean of
    the two middle values for an even count, NaN ([None]) for an empty
    bin. *)
Definition median (bin : list Q) : option Q :=
  let sorted := sort_by Qlt_bool bin in
  let n := length sorted in
  if (n =? 0)%nat then None
  else if Nat.odd n then sorted !! (n / 2)%nat
  else a ← sorted !! (n / 2 - 1)%nat;
       b ← sorted !! (n / 2)%nat;
       Some ((a + b) / 2)%Q.

(** The binned radii and intensities of source lines 1039-1050. *)
Definition bin_samples (radii intensities : list Q)
  : result (list Q * list (option Q)) :=
  bins ← fill_bins (zip radii intensities);
  Ok (bin_radii, map median bins).

(** [fit_function] (source lines 996-1000). *)
Definition fit_function (radius A k1 k2 k3 : Q) : Q :=
  (A * (1 + k1 * radius ^ 2 + k2 * radius ^ 4 + k3 * radius ^ 6))%Q.

(** The residuals handed to the least-squares fit (source line 1058):
    [y - fit_function(x, *p)] on the binned points. *)
Definition residuals (radii intensities : list Q) (p : Q * Q * Q * Q) : list Q :=
  let '(A, k1, k2, k3) := p in
  zip_with (fun x y => (y - fit_function x A k1 k2 k3)%Q) radii intensities.

(** The first guess of the fit. *)
Definition first_guess : Q * Q * Q * Q := (30000, - (3 # 10), 0, 0)%Q.

(** The intensities of the samples that fall into bin [i], in order. *)
Definition members (i : nat) (samples : list (Q * Q)) : list Q :=
  map snd (List.filter (fun s => bin_index s.1 =? Z.of_nat i) samples).

Definition in_unit_interval (radius : Q) : Prop := (0 <= radius /\ radius <= 1)%Q.

End Vignetting.

(* ===================================================================== *)
(** * Conversion, extraction and analysis steps, and the per-image jobs *)
(* ===================================================================== *)

Module Steps.
Import Py Regex Pgm World Exif Vignetting.

Definition quoted (s : string) : string := dq +:+ s +:+ dq.

(** ["%s" % o] for a captured group that may be [None]. *)
Definition str_group (g : option (list N)) : string :=
  match g with
  | Some t => text t
  | None => "None"
  end.

(** ["%d" % x] for a number: truncated; a NaN cannot be converted. *)
Definition format_d (x : option Q) : result string :=
  match x with
  | Some q => Ok (str_int (Z.quot (Qnum q) (Zpos (Qden q))))
  | None => Err (ValueError "cannot convert float NaN to integer")
  end.

(** The UTF-8 bytes of the infinity sign. *)
Definition infinity_sign : string :=
  String (ascii_of_N 226) (String (ascii_of_N 136)
    (String (ascii_of_N 158) EmptyString)).

(** The output line of the chromatic-aberration detector used as the
    example of the specification. *)
Definition tca_example : string :=
  "-r 0.0:-0.002:0.0:0.001 -b 0.0:0.003:0.0:-0.001".

(** [is_raw_file] (source lines 343-357). *)
Definition raw_file_extensions : list string :=
  [".3FR"; ".ARI"; ".ARW"; ".BAY"; ".CRW"; ".CR2"; ".CAP"; ".DCS";
   ".DCR"; ".DNG"; ".DRF"; ".EIP"; ".ERF"; ".FFF"; ".IIQ"; ".K25";
   ".KDC"; ".MEF"; ".MOS"; ".MRW"; ".NEF"; ".NRW"; ".OBM"; ".ORF";
   ".PEF"; ".PTX"; ".PXN"; ".R3D"; ".RAF"; ".RAW"; ".RWL"; ".RW2";
   ".RWZ"; ".SR2"; ".SRF"; ".SRW"; ".X3F"; ".JPG"; ".JPEG"; ".TIF";
   ".TIFF"].

Definition is_raw_file (filename : string) : bool :=
  let file_ext := (splitext filename).2 in
  existsb (String.eqb (upper file_ext)) raw_file_extensions.

Section Steps.
Context (E : env).

(** The call of darktable-cli shared by the three converters: the log
    is printed and the error raised again when the tool fails; a missing
    tool is reported by the caller. *)
Definition darktable (cmd : list string) : M bool :=
  o ← spawn E cmd;
  match o with
  | NotFound => print "Could not find darktable-cli";; ret false
  | Exited returncode output errors _ =>
      if returncode =? 0 then ret true
      else print (decode_text E (output ++ errors));;
           raise (CalledProcessError cmd)
  end.

(** [convert_raw_for_distortion] (source lines 578-616). *)
Definition convert_raw_for_distortion (input_file sidecar_file : string)
    (output_file : option string) : M (option string) :=
  let output_file :=
    default ((splitext input_file).1 +:+ ".tif") output_file in
  present ← path_exists output_file;
  if negb present then
    print ("Converting " +:+ input_file +:+ " to " +:+ output_file +:+ " ...");;
    let dt_tmp_dir := mkdtemp E "lenscal_" in
    found ← darktable
      ["darktable-cli"; input_file; sidecar_file; output_file;
       "--core"; "--configdir"; dt_tmp_dir;
       "--conf"; "plugins/lighttable/export/iccintent=0";
       "--conf"; "plugins/lighttable/export/iccprofile=sRGB";
       "--conf"; "plugins/lighttable/export/style=none";
       "--conf"; "plugins/imageio/format/tiff/bpp=16";
       "--conf"; "plugins/imageio/format/tiff/compress=5"];
    ret (if found : bool then Some output_file else None)
  else ret (Some output_file).

(** [convert_raw_for_tca] (source lines 618-650). *)
Definition convert_raw_for_tca (input_file sidecar_file : string)
    (output_file : option string) : M string :=
  let output_file :=
    default ((splitext input_file).1 +:+ ".ppm") output_file in
  present ← path_exists output_file;
  (if negb present then
     let dt_tmp_dir := mkdtemp E "lenscal_" in
     darktable
       ["darktable-cli"; input_file; sidecar_file; output_file;
        "--core"; "--configdir"; dt_tmp_dir;
        "--conf"; "plugins/lighttable/export/iccprofile=image";
        "--conf"; "plugins/lighttable/export/style=none"];;
     ret tt
   else ret tt);;
  ret output_file.

(** [convert_raw_for_vignetting] (source lines 652-685). *)
Definition convert_raw_for_vignetting (input_file sidecar_file : string)
    (output_file : option string) : M string :=
  let output_file :=
    default ((splitext input_file).1 +:+ ".ppm") output_file in
  present ← path_exists output_file;
  (if negb present then
     let dt_tmp_dir := mkdtemp E "lenscal_" in
     darktable
       ["darktable-cli"; input_file; sidecar_file; output_file;
        "--width"; "250";
        "--core"; "--configdir"; dt_tmp_dir;
        "--conf"; "plugins/lighttable/export/iccprofile=image";
        "--conf"; "plugins/lighttable/export/style=none"];;
     ret tt
   else ret tt);;
  ret output_file.

(** [convert_ppm_for_vignetting] (source lines 687-710). *)
Definition convert_ppm_for_vignetting (input_file : string) : M string :=
  let output_file := (splitext input_file).1 +:+ ".pgm" in
  present ← path_exists output_file;
  (if negb present then
     let cmd := ["convert"; "-colorspace"; "RGB"; input_file;
                 "-set"; "colorspace"; "RGB"; output_file] in
     o ← spawn E cmd;
     match o with
     | NotFound => print "Could not find convert"
     | Exited returncode _ _ _ =>
         if returncode =? 0 then ret tt else raise (CalledProcessError cmd)
     end
   else ret tt);;
  ret output_file.

(** [plot_pdf] (source lines 712-730); a missing gnuplot makes
    [shutil.which] return [None], which the process call rejects. *)
Definition plot_pdf (plot_file : string) : M bool :=
  match which E "gnuplot" with
  | None => raise TypeError
  | Some gnuplot =>
      let cmd := [gnuplot; plot_file] in
      o ← spawn E cmd;
      match o with
      | NotFound => print "Could not find gnuplot";; ret false
      | Exited returncode _ _ _ =>
          if returncode =? 0 then ret true else raise (CalledProcessError cmd)
      end
  end.

(** The section written to the [.tca] artifact (source lines 923-932). *)
Definition tca_items (exif_data : exif) (complex_tca : bool) (output : string)
    (br vr bb vb : string) : list (string * string) :=
  [("focal_length", str_float E (focal_length exif_data));
   ("complex_tca", if complex_tca then "True" else "False");
   ("tca", output);
   ("br", br); ("vr", vr); ("bb", bb); ("vb", vb)].

(** The gnuplot script of the two fitted curves (source lines 938-949). *)
Definition tca_plot (input_file pdf_filename original_file : string)
    (exif_data : exif) (br vr bb vb : string) : list string :=
  ["set term pdf" +:+ nl;
   "set print " +:+ quoted input_file +:+ nl;
   "set output " +:+ quoted pdf_filename +:+ nl;
   "set fit logfile " +:+ quoted "/dev/null" +:+ nl;
   "set grid" +:+ nl;
   "set title "
     +:+ quoted (lens_model exif_data +:+ ", "
                 +:+ format_float E "%0.1f" (focal_length exif_data)
                 +:+ " mm, f/"
                 +:+ format_float E "%0.1f" (aperture exif_data)
                 +:+ "\n" +:+ original_file)
     +:+ " noenhanced" +:+ nl;
   "plot [0:1.8] " +:+ br +:+ " * x**2 + " +:+ vr +:+ " title "
     +:+ quoted "red" +:+ ", " +:+ bb +:+ " * x**2 + " +:+ vb +:+ " title "
     +:+ quoted "blue" +:+ nl].

(** [tca_correct] (source lines 883-951).  Every path returns [None].
    Of the values of the section only the raw tool text can fail the
    check configparser makes on setting an option; the others are
    numerals and captured digits. *)
Definition tca_correct (input_file original_file : string) (exif_data : exif)
    (complex_tca : bool) : M unit :=
  let basename := (splitext input_file).1 in
  let output_file := basename +:+ ".tca" in
  let gp_filename := basename +:+ ".gp" in
  let pdf_filename := basename +:+ ".pdf" in
  present ← path_exists output_file;
  if negb present then
    print ("Running TCA corrections for " +:+ input_file +:+ " ...");;
    let tca_complexity := if complex_tca then "bv" else "v" in
    let cmd := ["tca_correct"; "-o"; tca_complexity; input_file] in
    o ← spawn E cmd;
    match o with
    | NotFound => print "Could not find tca_correct";; ret tt
    | Exited returncode output _ _ =>
        if negb (returncode =? 0) then raise (CalledProcessError cmd)
        else
          decoded ← lift (decode_ascii output);
          match re_match tca_data (codes decoded) with
          | None => print "Could not find tca correction data";; ret tt
          | Some m =>
              let br := str_group (group (caps m) 1) in
              let vr := str_group (group (caps m) 2) in
              let bb := str_group (group (caps m) 3) in
              let vb := str_group (group (caps m) 4) in
              lift (before_set decoded);;
              put output_file
                (Config (lens_model exif_data)
                   (tca_items exif_data complex_tca decoded br vr bb vb));;
              if complex_tca then
                put gp_filename
                  (Text (tca_plot input_file pdf_filename original_file
                           exif_data br vr bb vb));;
                plot_pdf gp_filename;;
                ret tt
              else ret tt
          end
    end
  else ret tt.

(** [open(filename, 'rb').read()] followed by the decoder. *)
Definition load_pgm_file (filename : string) : M raster :=
  buf ← read_bytes filename;
  lift (load_pgm filename buf).

(** The value of a sample as a number. *)
Definition sample_value (dt : dtype) (v : N) : Q :=
  match dt with
  | Float32 => float32_value E v
  | _ => inject_Z (Z.of_N v)
  end.

(** The pixel positions in the order of the two loops: rows, then
    columns. *)
Definition pixels (img : raster) : list (nat * nat * N) :=
  flat_map (fun '(y, row) => imap (fun x v => (x, y, v)) row)
           (imap (fun y row => (y, row)) (rows img)).

(** The radius of a pixel (source line 1030); the division fails on a
    raster whose half diagonal is zero. *)
Definition pixel_radius (img : raster) (half_diagonal : Q) (x y : nat)
  : result Q :=
  if Qeq_bool half_diagonal 0 then Err ZeroDivisionError
  else Ok (hypot E (inject_Z (Z.of_nat x - Z.of_nat (width img / 2)))
                   (inject_Z (Z.of_nat y - Z.of_nat (height img / 2)))
           / half_diagonal)%Q.

(** The samples retained by source lines 1027-1033. *)
Definition retained_samples (img : raster) : result (list (Q * Q)) :=
  let half_diagonal :=
    hypot E (inject_Z (Z.of_nat (width img / 2)))
            (inject_Z (Z.of_nat (height img / 2))) in
  foldM (fun acc '(x, y, v) =>
           radius ← pixel_radius img half_diagonal x y;
           if Qle_bool radius maximal_radius
           then Ok (acc ++ [(radius, sample_value (sample_type img) v)])
           else Ok acc)
        [] (pixels img).

Definition point_line (p : Q * option Q) : result string :=
  d ← format_d p.2;
  Ok (format_float E "%f" (Fin p.1) +:+ " " +:+ d +:+ nl).

(** The section written to the [.vig] artifact (source lines 1060-1069);
    configparser lower-cases the option names. *)
Definition vig_items (exif_data : exif) (distance : pyfloat)
    (A k1 k2 k3 : Q) : list (string * string) :=
  [("focal_length", str_float E (focal_length exif_data));
   ("aperture", str_float E (aperture exif_data));
   ("distance", str_float E distance);
   ("a", format_float E "%.7f" (Fin A));
   ("k1", format_float E "%.7f" (Fin k1));
   ("k2", format_float E "%.7f" (Fin k2));
   ("k3", format_float E "%.7f" (Fin k3))].

(** The gnuplot script of the diagnostic plot (source lines 1076-1093). *)
Definition vig_plot (input_file pdf_filename original_file : string)
    (all_points_filename bins_filename : string)
    (exif_data : exif) (distance : pyfloat) (A k1 k2 k3 : Q) : list string :=
  let distance :=
    match distance with
    | PInf => infinity_sign
    | _ => str_float E distance
    end in
  ["set term pdf" +:+ nl;
   "set print " +:+ quoted input_file +:+ nl;
   "set output " +:+ quoted pdf_filename +:+ nl;
   "set fit logfile " +:+ quoted "/dev/null" +:+ nl;
   "set grid" +:+ nl;
   "set title "
     +:+ quoted (lens_model exif_data +:+ ", "
                 +:+ format_float E "%0.1f" (focal_length exif_data)
                 +:+ " mm, f/"
                 +:+ format_float E "%0.1f" (aperture exif_data)
                 +:+ ", " +:+ distance +:+ " m\n" +:+ original_file)
     +:+ " noenhanced" +:+ nl;
   "plot " +:+ quoted all_points_filename +:+ " with dots title "
     +:+ quoted "samples" +:+ ", ";
   quoted bins_filename +:+ " with linespoints lw 4 title "
     +:+ quoted "average" +:+ ", ";
   format_float E "%f" (Fin A) +:+ " * (1 + (" +:+ format_float E "%f" (Fin k1)
     +:+ ") * x**2 + (" +:+ format_float E "%f" (Fin k2) +:+ ") * x**4 + ("
     +:+ format_float E "%f" (Fin k3) +:+ ") * x**6) title " +:+ quoted "fit" +:+ nl].

(** [calculate_vignetting] (source lines 1002-1095). *)
Definition calculate_vignetting (input_file original_file : string)
    (exif_data : exif) (distance : pyfloat) : M unit :=
  let basename := (splitext input_file).1 in
  let all_points_filename := basename +:+ ".all_points.dat" in
  let bins_filename := basename +:+ ".bins.dat" in
  let pdf_filename := basename +:+ ".pdf" in
  let gp_filename := basename +:+ ".gp" in
  let vig_filename := basename +:+ ".vig" in
  present ← path_exists vig_filename;
  if present : bool then ret tt
  else
    print ("Generating vignetting data for " +:+ input_file +:+ " ... ");;
    img ← load_pgm_file input_file;
    samples ← lift (retained_samples img);
    write_lines all_points_filename point_line
      (map (fun s => (s.1, Some s.2)) samples);;
    binned ← lift (bin_samples (map fst samples) (map snd samples));
    let '(radii, intensities) := binned in
    write_lines bins_filename point_line (zip radii intensities);;
    let '(A, k1, k2, k3) :=
      leastsq E (residuals radii (omap (fun o => o) intensities))
        first_guess in
    put vig_filename
      (Config (lens_model exif_data) (vig_items exif_data distance A k1 k2 k3));;
    put gp_filename
      (Text (vig_plot input_file pdf_filename original_file
               all_points_filename bins_filename exif_data distance A k1 k2 k3));;
    plot_pdf gp_filename;;
    ret tt.

(** ** The per-image jobs *)

(** [create_distortion_correction] (source lines 1117-1127). *)
Definition create_distortion_correction
    (export_path path filename sidecar_file : string) : M bool :=
  let input_file := path_join path filename in
  let output_file :=
    path_join (path_join path "exported")
              ((splitext filename).1 +:+ ".tif") in
  convert_raw_for_distortion input_file sidecar_file (Some output_file);;
  ret true.

(** [create_tca_correction] (source lines 1223-1241). *)
Definition create_tca_correction
    (export_path path filename sidecar_file : string) (complex_tca : bool)
  : M bool :=
  let input_file := path_join path filename in
  exif_data ← image_read_exif E input_file;
  let output_file :=
    path_join (path_join path "exported")
              ((splitext filename).1 +:+ ".ppm") in
  print ("Processing " +:+ input_file +:+ " ... ");;
  output_file ← convert_raw_for_tca input_file sidecar_file (Some output_file);
  tca_correct output_file input_file exif_data complex_tca;;
  ret true.

(** [create_vignetting_correction] (source lines 1296-1323). *)
Definition create_vignetting_correction
    (export_path path filename sidecar_file : string) (distance : pyfloat)
  : M bool :=
  let input_file := path_join path filename in
  exif_data ← image_read_exif E input_file;
  let output_file :=
    path_join export_path ((splitext filename).1 +:+ ".ppm") in
  let preview_file :=
    path_join export_path ((splitext filename).1 +:+ ".jpg") in
  print ("Processing " +:+ input_file +:+ " ... ");;
  output_file ←
    convert_raw_for_vignetting input_file sidecar_file (Some output_file);
  pgm_file ← convert_ppm_for_vignetting output_file;
  calculate_vignetting pgm_file input_file exif_data distance;;
  convert_raw_for_vignetting input_file sidecar_file (Some preview_file);;
  ret true.

(** ** Dispatching the vignetting jobs *)

(** [write_sidecar_file] (source lines 564-575): an existing file is
    kept; a path that cannot be opened for writing gives [False]. *)
Definition write_sidecar_file (sidecar_file content : string) : M bool :=
  present ← is_file sidecar_file;
  if negb present then
    isd ← is_dir sidecar_file;
    if negb isd then put sidecar_file (Text [content]);; ret true
    else ret false
  else ret true.

(** The arguments of one submitted [create_vignetting_correction]. *)
Record vignetting_job : Type := {
  job_export_path : string;
  job_path : string;
  job_filename : string;
  job_sidecar_file : string;
  job_distance : pyfloat
}.

(** The body of the loop over the files of one directory (source lines
    1346-1364): the jobs submitted for it. *)
Definition submit_file (export_path sidecar_file path filename : string)
  : list vignetting_job :=
  let distance := PInf in
  let job distance :=
    {| job_export_path := export_path; job_path := path;
       job_filename := filename; job_sidecar_file := sidecar_file;
       job_distance := distance |} in
  if negb (is_raw_file filename) then []
  else if String.eqb path export_path then []
  else if negb (String.eqb path "vignetting") then
    let d := basename path in
    match float d with
    | Ok distance => [job distance]
    | Err _ => []
    end
  else [job distance].

Definition submit_all (export_path sidecar_file : string)
    (tree : list (string * list string * list string))
  : list vignetting_job :=
  flat_map (fun '(path, _, files) =>
              flat_map (submit_file export_path sidecar_file path) files)
           tree.

(** [run_vignetting] up to the end of the submission loop (source lines
    1329-1364); it returns the submitted jobs.  The sidecar text is the
    constant [DARKTABLE_DISTORTION_SIDECAR] of the script. *)
Definition run_vignetting (DARKTABLE_DISTORTION_SIDECAR : string)
  : M (list vignetting_job) :=
  present ← is_dir "vignetting";
  if negb present then
    print "No vingetting directory, you have to run init first!";; ret []
  else
    let export_path := path_join "vignetting" "exported" in
    exported ← is_dir export_path;
    (if negb exported then mkdir export_path else ret tt);;
    let sidecar_file := path_join export_path "vignetting.xmp" in
    written ← write_sidecar_file sidecar_file DARKTABLE_DISTORTION_SIDECAR;
    if negb written then
      print ("Failed to write sidecar_file: " +:+ sidecar_file);; ret []
    else
      tree ← (fun w => (Ok (walk E "vignetting" (fs w)), w));
      ret (submit_all export_path sidecar_file tree).

End Steps.

(** A sample of the metadata resolver and an empty working tree, for
    running the jobs on concrete inputs. *)
Definition sample_exif : exif :=
  {| lens_model := "Olympus Zuiko Digital 11-22mm F2.8-3.5";
     focal_length := Fin 14; aperture := Fin 8;
     aspect_ratio := Some "4:3"; crop_factor := PyFloat (Fin 2);
     lens_maker := Some "Olympus Zuiko Digital";
     mount := Some "4/3 System" |}.

Definition empty_world : world :=
  {| fs := ∅; calls := []; printed := [] |}.

(** An environment without any external tool, whose directory listing
    is [tree]; used to run the jobs on concrete working trees. *)
Definition no_tools (tree : list (string * list string * list string)) : env :=
  {| run_process := fun _ _ => NotFound;
     which := fun _ => None;
     mkdtemp := fun prefix => "/tmp/" +:+ prefix;
     walk := fun _ _ => tree;
     read_metadata := fun _ _ => Ok ∅;
     json_loads := fun _ => Ok PyNone;
     repr_bytes := fun b => String.string_of_list_byte b;
     decode_text := fun b => String.string_of_list_byte b;
     str_float := fun _ => "0.0";
     format_float := fun _ _ => "0.0";
     hypot := fun a b => (a * a + b * b)%Q;
     float32_value := fun v => inject_Z (Z.of_N v);
     leastsq := fun _ guess => guess |}.

(** An environment whose only working tool is exiftool. *)
Definition metadata_tool : env :=
  {| run_process := fun cmd files =>
       match cmd with
       | "exiftool" :: _ =>
           Exited 0 (String.list_byte_of_string "2.0") [] files
       | _ => NotFound
       end;
     which := fun _ => None;
     mkdtemp := fun prefix => "/tmp/" +:+ prefix;
     walk := fun _ _ => [];
     read_metadata := fun _ _ => Ok ∅;
     json_loads := fun _ => Ok (PyFloat (Fin 2));
     repr_bytes := fun b => String.string_of_list_byte b;
     decode_text := fun b => String.string_of_list_byte b;
     str_float := fun _ => "0.0";
     format_float := fun _ _ => "0.0";
     hypot := fun a b => (a * a + b * b)%Q;
     float32_value := fun v => inject_Z (Z.of_N v);
     leastsq := fun _ guess => guess |}.

(** The working tree after a complete vignetting run over [P1.ORF]. *)
Definition vignetting_done : world :=
  {| fs := {[ "vignetting" := Directory;
              "vignetting/exported" := Directory;
              "vignetting/P1.ORF" := Bytes [];
              "vignetting/exported/P1.ppm" := Bytes [];
              "vignetting/exported/P1.pgm" := Bytes [];
              "vignetting/exported/P1.vig" :=
                Config "Standard" [("k1", "-0.3000000")];
              "vignetting/exported/P1.jpg" := Bytes [] ]};
     calls := []; printed := [] |}.

(** An environment whose working tools are exiftool and [tca_correct],
    the latter printing [output]. *)
Definition tca_tool (output : string) : env :=
  {| run_process := fun cmd files =>
       match cmd with
       | "tca_correct" :: _ =>
           Exited 0 (String.list_byte_of_string output) [] files
       | "exiftool" :: _ =>
           Exited 0 (String.list_byte_of_string "2.0") [] files
       | _ => NotFound
       end;
     which := fun _ => None;
     mkdtemp := fun prefix => "/tmp/" +:+ prefix;
     walk := fun _ _ => [];
     read_metadata := fun _ _ => Ok ∅;
     json_loads := fun _ => Ok PyNone;
     repr_bytes := fun b => String.string_of_list_byte b;
     decode_text := fun b => String.string_of_list_byte b;
     str_float := fun _ => "0.0";
     format_float := fun _ _ => "0.0";
     hypot := fun a b => (a * a + b * b)%Q;
     float32_value := fun v => inject_Z (Z.of_N v);
     leastsq := fun _ guess => guess |}.

End Steps.

(* ===================================================================== *)
(** * What a pattern can read *)
(* ===================================================================== *)

Module Matching.
Import Regex.

(** [matches r st st']: the pattern [r] can read from the state [st] up
    to the state [st'].  The matcher explores these readings in the order
    a backtracking engine does; whatever it returns is one of them. *)
Inductive matches : regex -> mstate -> mstate -> Prop :=
| m_eps st : matches Eps st st
| m_bol st : pos st = 0%nat -> matches Bol st st
| m_chr p st c l :
    rest st = c :: l -> p c = true -> matches (Chr p) st (advance st l)
| m_seq r1 r2 st st1 st2 :
    matches r1 st st1 -> matches r2 st1 st2 -> matches (Seq r1 r2) st st2
| m_star_nil r st : matches (Star r) st st
| m_star_cons r st st1 st2 :
    matches r st st1 -> (length (rest st1) < length (rest st))%nat ->
    matches (Star r) st1 st2 -> matches (Star r) st st2
| m_group i r st st1 :
    matches r st st1 -> matches (Group i r) st (capture i st st1).

(** The state [st'] is [st] after the characters [w]. *)
Definition reads (st : mstate) (w : list N) (st' : mstate) : Prop :=
  rest st = w ++ rest st' /\ pos st' = (pos st + length w)%nat.

(** The patterns without a capturing group. *)
Fixpoint nocap (r : regex) : bool :=
  match r with
  | Eps | Bol | Chr _ => true
  | Seq r1 r2 => nocap r1 && nocap r2
  | Star r1 => nocap r1
  | Group _ _ => false
  end.

(** The matcher state in the middle of a subject: [before] characters
    read, [l] to go. *)
Definition at_ (before : nat) (l : list N) (cs : list (nat * list N)) : mstate :=
  {| pos := before; rest := l; caps := cs |}.

(** A character on which a pattern class fails, or the end of input. *)
Definition stops (p : N -> bool) (l : list N) : Prop :=
  match l with
  | [] => True
  | c :: _ => p c = false
  end.

(** The first byte of a comment line of a raster header: whitespace or
    the number sign. *)
Definition comment_start (c : N) : bool := ws c || (35 =? c)%N.

(** A whitespace byte, and a non-empty run of ASCII digits. *)
Definition blank (b : Byte.byte) : Prop := ws (Byte.to_N b) = true.

Definition numeral (l : list Byte.byte) : Prop :=
  l <> [] /\ forallb digit (map Byte.to_N l) = true.

(** A raster header without comment lines: the magic, and the three
    numerals [w], [h], [m], each between two whitespace bytes. *)
Definition plain_header (b1 : Byte.byte) (w : list Byte.byte)
    (b2 : Byte.byte) (h : list Byte.byte) (b3 : Byte.byte)
    (m : list Byte.byte) (b4 : Byte.byte) : list Byte.byte :=
  Pgm.bytes_of "P5" ++ b1 :: w ++ b2 :: h ++ b3 :: m ++ [b4].

(** The number a numeral of a header denotes. *)
Definition numeral_value (l : list Byte.byte) : nat :=
  N.to_nat (Pgm.int_of_digits (map Byte.to_N l)).

(** A non-empty run of minus signs, dots and digits: what a captured
    field of the TCA pattern holds. *)
Definition decimal_field (t : list N) : Prop :=
  t <> [] /\ forallb signed_decimal t = true.

End Matching.

(* ===================================================================== *)
(** * Setting up the working tree ([init], [run_tca]) *)
(* ===================================================================== *)

Module Setup.
Import Py World Exif Steps.

(** A step that always returns, starts no process and leaves the
    working tree alone; it may print. *)
Definition steady {A : Type} (m : M A) : Prop :=
  forall w, exists a w',
    m w = (Ok a, w') /\ fs w' = fs w /\ calls w' = calls w.

(** [get_max_worker_count] (source lines 332-341) on a machine with
    [cpu_count] processors. *)
Definition get_max_worker_count (cpu_count : nat) : nat :=
  let max_workers := (cpu_count / 2)%nat in
  if (max_workers <? 1)%nat then 1%nat else max_workers.




(** The arguments of one submitted [create_tca_correction]. *)
Record tca_job : Type := {
  tca_export_path : string;
  tca_path : string;
  tca_filename : string;
  tca_sidecar_file : string;
  tca_complex : bool
}.

(** The body of the loop over the files of one directory (source lines
    1281-1287): the job submitted for a file, if any. *)
Definition submit_tca (export_path sidecar_file : string) (complex_tca : bool)
    (path filename : string) : list tca_job :=
  if negb (String.eqb path "tca") then []
  else if negb (is_raw_file filename) then []
  else [{| tca_export_path := export_path; tca_path := path;
           tca_filename := filename; tca_sidecar_file := sidecar_file;
           tca_complex := complex_tca |}].

Section Setup.
Context (E : env).

(** [run_tca] up to the end of the submission loop (source lines
    1255-1287); it returns the submitted jobs. *)
Definition run_tca (DARKTABLE_TCA_SIDECAR : string) (complex_tca : bool)
  : M (list tca_job) :=
  match which E "tca_correct" with
  | None => print "no executable found for command 'tca_correct'"
  | Some exec_path =>
      print ("path to executable 'tca_correct': " +:+ exec_path)
  end;;
  present ← is_dir "tca";
  if negb present then
    print "No tca directory, you have to run init first!";; ret []
  else
    let export_path := path_join "tca" "exported" in
    exported ← is_dir export_path;
    (if negb exported then mkdir export_path else ret tt);;
    let sidecar_file := path_join export_path "tca.xmp" in
    written ← write_sidecar_file sidecar_file DARKTABLE_TCA_SIDECAR;
    if negb written then
      print ("Failed to write sidecar_file: " +:+ sidecar_file);; ret []
    else
      tree ← (fun w => (Ok (walk E "tca" (fs w)), w));
      ret (flat_map (fun '(path, _, files) =>
                       flat_map (submit_tca export_path sidecar_file
                                   complex_tca path) files)
                    tree).

End Setup.

(** An environment whose darktable-cli fails and which has no other
    tool. *)
Definition failing_darktable : env :=
  {| run_process := fun cmd files =>
       match cmd with
       | "darktable-cli" :: _ =>
           Exited 1 (String.list_byte_of_string "cannot open image") [] files
       | _ => NotFound
       end;
     which := fun _ => None;
     mkdtemp := fun prefix => "/tmp/" +:+ prefix;
     walk := fun _ _ => [];
     read_metadata := fun _ _ => Ok ∅;
     json_loads := fun _ => Ok PyNone;
     repr_bytes := fun b => String.string_of_list_byte b;
     decode_text := fun b => String.string_of_list_byte b;
     str_float := fun _ => "0.0";
     format_float := fun _ _ => "0.0";
     hypot := fun a b => (a * a + b * b)%Q;
     float32_value := fun v => inject_Z (Z.of_N v);
     leastsq := fun _ guess => guess |}.

End Setup.

(* ===================================================================== *)
(** * The configuration store and the calibration aggregator *)
(* ===================================================================== *)

Module Config.
Import Py World Exif Emit.

(** ** Python dicts and slices *)

(** [d[k] = v]: an existing key keeps its place, a new one goes last. *)
Fixpoint dict_set {V : Type} (d : dict V) (k : string) (v : V) : dict V :=
  match d with
  | [] => [(k, v)]
  | (k', v') :: d' =>
      if String.eqb k' k then (k', v) :: d' else (k', v') :: dict_set d' k v
  end.

(** [k in d] *)
Definition dict_mem {V : Type} (d : dict V) (k : string) : bool :=
  existsb (String.eqb k) (keys d).

(** [if not k in d: d[k] = v] *)
Definition setdefault {V : Type} (d : dict V) (k : string) (v : V) : dict V :=
  if dict_mem d k then d else dict_set d k v.

(** [s[start:stop]] for indices that are not negative. *)
Definition slice (s : string) (start stop : nat) : string :=
  String.string_of_list_ascii (take (stop - start) (drop start (chars s))).

(** ** The parser object of [create_lenses_config] *)

(** A [ConfigParser]: the options of the default section and the other
    sections in the order of their creation. *)
Record parser : Type := {
  defaults : dict string;
  sections : dict (dict string)
}.

Definition default_section : string := "DEFAULT".

(** [parser.set(section, option, value)]: the value has to be a string
    and to pass the interpolation check; the option name is lower-cased;
    the default section and the section without a name share one dict. *)
Definition set (p : parser) (section option_name : string)
    (value : option string)
  : result parser :=
  match value with
  | None => Err TypeError
  | Some v =>
      v ← (if String.eqb v "" then Ok v else before_set v);
      if String.eqb section "" || String.eqb section default_section then
        Ok {| defaults := dict_set (defaults p) (lower option_name) v;
              sections := sections p |}
      else
        match get (sections p) section with
        | Ok sectdict =>
            Ok {| defaults := defaults p;
                  sections := dict_set (sections p) section
                                (dict_set sectdict (lower option_name) v) |}
        | Err _ => Err (KeyError section)
        end
  end.

(** The section [name] can be written to: it exists, or it is the
    default section. *)
Definition writable (p : parser) (name : string) : Prop :=
  name = "" \/ name = default_section \/ exists s, get (sections p) name = Ok s.

(** [parser[name] = mapping]: the section is emptied or created, then
    every item is set. *)
Definition assign_section (p : parser) (name : string)
    (mapping : list (string * option string)) : result parser :=
  let p :=
    if String.eqb name default_section
    then {| defaults := []; sections := sections p |}
    else if dict_mem (sections p) name
    then {| defaults := defaults p; sections := dict_set (sections p) name [] |}
    else p in
  let p :=
    if String.eqb name default_section || dict_mem (sections p) name then p
    else {| defaults := defaults p; sections := dict_set (sections p) name [] |} in
  foldM (fun p '(key, value) => set p name key value) p mapping.

(** What [parser.write] writes: the default section first when it has
    options, then the sections; one text per section. *)
Definition written (p : parser) : list string :=
  (match defaults p with
   | [] => []
   | _ => [render_config default_section (defaults p)]
   end)
  ++ map (fun '(name, items) => render_config name items) (sections p).

Section Store.
Context (E : env).

(** [str(value)] as the parser applies it to the values of a mapping;
    [None] stays [None]. *)
Definition option_value (o : pyobj) : option string :=
  match o with
  | PyNone => None
  | PyStr s => Some s
  | PyFloat x => Some (str_float E x)
  end.

(** The mapping assigned to the section of a lens (source lines
    804-817), from the first image of the lens. *)
Definition lens_section (first : exif) : list (string * option string) :=
  [("maker", lens_maker first);
   ("mount", mount first);
   ("cropfactor", option_value (crop_factor first));
   ("aspect_ratio", aspect_ratio first);
   ("type", Some "normal")].

(** The option name of the distortion entry of an image (line 819). *)
Definition distortion_key (exif_data : exif) : string :=
  "distortion(" +:+ format_float E "%.1f" (focal_length exif_data) +:+ "mm)".


(** The parser object built by [create_lenses_config] (source lines
    797-820). *)
Definition build_lenses_config (lenses_exif_group : dict (list exif))
  : result parser :=
  foldM (fun config '(lenses, group) =>
           first ← index group 0;
           config ← assign_section config lenses (lens_section first);
           foldM (fun config exif_data =>
                    set config lenses (distortion_key exif_data)
                        (Some "0.0, 0.0, 0.0"))
                 config group)
        {| defaults := []; sections := [] |} lenses_exif_group.


(** The grouping of [run_distortion] (source lines 1170-1178): the
    records of the images, in the order they are read, by lens model. *)
Definition group_by_lens (records : list exif) : dict (list exif) :=
  fold_left (fun groups exif_data =>
               let groups := setdefault groups (lens_model exif_data) [] in
               match get groups (lens_model exif_data) with
               | Ok group =>
                   dict_set groups (lens_model exif_data) (group ++ [exif_data])
               | Err _ => groups
               end)
            records [].

End Store.

(** ** The entries of [lenses] *)

(** What a key of an entry of [lenses] holds: the string of an option
    of [lenses.conf], or one of the three calibration maps. *)
Inductive field : Type :=
| Str (s : string)
| Distortion (d : dict string)
| Tca (t : dict (dict string))
| Vignetting (v : dict (dict (dict (dict string)))).

Definition entry : Type := dict field.

Definition empty_entry : entry :=
  [("distortion", Distortion []); ("tca", Tca []); ("vignetting", Vignetting [])].

(** The body of the loop over the options of a section (source lines
    858-877). *)
Definition parse_option (l : entry) (key value : string) : result entry :=
  if String.prefix "distortion" key then
    let focal_length := slice key 11 (String.length key - 3) in
    f ← get l "distortion";
    match f with
    | Distortion d =>
        Ok (dict_set l "distortion" (Distortion (dict_set d focal_length value)))
    | _ => Err TypeError
    end
  else Ok (dict_set l key (Str value)).

(** [parse_lenses_config] (source lines 843-881) on the sections the
    parser has read: their names in order, each with its options and
    values. *)
Definition parse_lenses_config (config : list (string * dict string))
  : result (dict entry) :=
  foldM (fun lenses '(section, options) =>
           l ← foldM (fun l '(key, value) => parse_option l key value)
                     empty_entry options;
           Ok (dict_set lenses section l))
        [] config.

(** ** The two scans of [run_generate_xml] *)

(** The loop copying the options of an artifact, all but those named
    in [skip]. *)
Definition copy_options (skip : list string) (data options : dict string)
  : dict string :=
  fold_left (fun data '(key, value) =>
               if existsb (String.eqb key) skip then data
               else dict_set data key value)
            options data.

(** The body of the loop over the sections of a [.tca] artifact (source
    lines 1414-1421).  A lens absent from [lenses] raises [KeyError];
    an option [tca] of [lenses.conf] has replaced the map by a string,
    on which the assignments fail. *)
Definition merge_tca (lenses : dict entry) (lens_model : string)
    (options : dict string) : result (dict entry) :=
  focal_length ← get options "focal_length";
  l ← get lenses lens_model;
  f ← get l "tca";
  match f with
  | Tca t =>
      let t := setdefault t focal_length [] in
      data ← get t focal_length;
      let data := copy_options ["focal_length"] data options in
      Ok (dict_set lenses lens_model
            (dict_set l "tca" (Tca (dict_set t focal_length data))))
  | Str s =>
      if contains focal_length s
         && forallb (fun key => String.eqb key "focal_length") (keys options)
      then Ok lenses
      else Err TypeError
  | _ => Err TypeError
  end.

(** The body of the loop over the sections of a [.vig] artifact (source
    lines 1432-1447). *)
Definition merge_vignetting (lenses : dict entry) (lens_model : string)
    (options : dict string) : result (dict entry) :=
  focal_length ← get options "focal_length";
  l ← get lenses lens_model;
  f ← get l "vignetting";
  match f with
  | Vignetting v =>
      let v := setdefault v focal_length [] in
      aperture ← get options "aperture";
      apertures ← get v focal_length;
      let apertures := setdefault apertures aperture [] in
      distance ← get options "distance";
      distances ← get apertures aperture;
      let distances := setdefault distances distance [] in
      data ← get distances distance;
      let data :=
        copy_options ["focal_length"; "aperture"; "distance"] data options in
      Ok (dict_set lenses lens_model
            (dict_set l "vignetting"
               (Vignetting
                  (dict_set v focal_length
                     (dict_set apertures aperture
                        (dict_set distances distance data))))))
  | Str s =>
      if contains focal_length s then
        aperture ← get options "aperture";
        Err TypeError
      else Err TypeError
  | _ => Err TypeError
  end.

(** A scan: every section of every artifact, in the order the artifacts
    are found. *)
Definition scan (merge : dict entry -> string -> dict string -> result (dict entry))
    (lenses : dict entry) (artifacts : list (list (string * dict string)))
  : result (dict entry) :=
  foldM (fun lenses config =>
           foldM (fun lenses '(lens_model, options) =>
                    merge lenses lens_model options)
                 lenses config)
        lenses artifacts.

(** ** Writing the entries *)

(** ['%s' % l[k]] for an option of [lenses.conf]. *)
Definition get_str (l : entry) (k : string) : result string :=
  f ← get l k;
  match f with
  | Str s => Ok s
  | _ => Err TypeError
  end.

(** The lens of an entry whose three maps are in place. *)
Definition as_lens (l : entry) : option lens :=
  match get l "distortion", get l "tca", get l "vignetting" with
  | Ok (Distortion d), Ok (Tca t), Ok (Vignetting v) =>
      Some {| conf := omap (fun kv => match kv.2 with
                                       | Str s => Some (kv.1, s)
                                       | _ => None
                                       end) l;
              distortion := d; tca := t; vignetting := v |}
  | _, _, _ => None
  end.

(** One [<lens>] element, from the entry (source lines 1478-1558): a
    map replaced by a string has no [keys]. *)
Definition emit_entry (lens_model : string) (l : entry) : result (list line) :=
  maker ← get_str l "maker";
  mount ← get_str l "mount";
  cropfactor ← get_str l "cropfactor";
  type ← get_str l "type";
  d ← (f ← get l "distortion";
       match f with Distortion d => emit_distortion d | _ => Err AttributeError end);
  t ← (f ← get l "tca";
       match f with Tca t => emit_tca t | _ => Err AttributeError end);
  v ← (f ← get l "vignetting";
       match f with Vignetting v => emit_vignetting v | _ => Err AttributeError end);
  Ok ([Raw ("    <lens>" +:+ nl);
       Raw ("        <maker>" +:+ maker +:+ "</maker>" +:+ nl);
       Raw ("        <model>" +:+ lens_model +:+ "</model>" +:+ nl);
       Raw ("        <mount>" +:+ mount +:+ "</mount>" +:+ nl);
       Raw ("        <cropfactor>" +:+ cropfactor +:+ "</cropfactor>" +:+ nl)]
      ++ (if String.eqb type "normal" then []
          else [Raw ("        <type>" +:+ type +:+ "</type>" +:+ nl)])
      ++ [Raw ("        <calibration>" +:+ nl)]
      ++ d ++ t ++ v
      ++ [Raw ("        </calibration>" +:+ nl); Raw ("    </lens>" +:+ nl)]).

(** [first_key.replace(' ', '_') + current_time + '.xml'] *)
Definition xml_filename (first_key current_time : string) : string :=
  map_string (fun c => if Ascii.eqb c " "%char then "_"%char else c) first_key
  +:+ current_time +:+ ".xml".

(** [run_generate_xml] from line 1386 on: the name of the output file
    and the lines written to it, for the sections of [lenses.conf] and of
    the [.tca] and [.vig] artifacts in the order they are found. *)
Definition generate_xml (current_time : string)
    (config : list (string * dict string))
    (tca_artifacts vig_artifacts : list (list (string * dict string)))
  : result (string * list line) :=
  lenses ← parse_lenses_config config;
  lenses ← scan merge_tca lenses tca_artifacts;
  lenses ← scan merge_vignetting lenses vig_artifacts;
  first_key ← index (keys lenses) 0;
  ls ← traverse (fun '(lens_model, l) => emit_entry lens_model l) lenses;
  Ok (xml_filename first_key current_time,
      [Raw ("<lensdatabase>" +:+ nl)] ++ concat ls
      ++ [Raw ("</lensdatabase>" +:+ nl)]).

End Config.

(* ===================================================================== *)
(** * Shipping ([run_ship]) *)
(* ===================================================================== *)

Module Ship.
Import Py World.

Section Ship.

(** The packaging of source lines 1569-1604: the archive written from
    the files of the working tree, and the two closing messages. *)
Context (pack : M unit).

(** [run_ship] (source lines 1561-1604). *)
Definition run_ship : M unit :=
  present ← path_exists "lensfun.xml";
  if negb present then
    print "lensfun.xml not found, please run the calibration steps first!"
  else pack.

End Ship.

End Ship.

(* ===================================================================== *)
(** * Facts about the builtins *)
(* ===================================================================== *)

Import Py.

Lemma bind_ok {A B : Type} (m : result A) (f : A -> result B) (b : B) :
  (m ≫= f) = Ok b -> exists a, m = Ok a /\ f a = Ok b.
Proof. destruct m as [a|e]; simpl; [eauto | discriminate]. Qed.

Lemma traverse_ok_length {A B : Type} (f : A -> result B) (l : list A) ys :
  traverse f l = Ok ys -> length ys = length l.
Proof.
  revert ys; induction l as [|x l IH]; simpl; intros ys H.
  - now inversion H.
  - destruct (f x) as [y|]; simpl in H; [|discriminate].
    destruct (traverse f l) as [ys'|]; simpl in H; [|discriminate].
    inversion H; subst; simpl; f_equal; now apply IH.
Qed.

Lemma traverse_ok_Forall2 {A B : Type} (f : A -> result B) (l : list A) ys :
  traverse f l = Ok ys <-> Forall2 (fun x y => f x = Ok y) l ys.
Proof.
  revert ys; induction l as [|x l IH]; simpl; intros ys; split; intros H.
  - inversion H; constructor.
  - now inversion H.
  - destruct (f x) as [y|] eqn:Hx; simpl in H; [|discriminate].
    destruct (traverse f l) as [ys'|] eqn:Hl; simpl in H; [|discriminate].
    inversion H; subst; constructor; [assumption | now apply IH].
  - inversion H as [|? y ? ys' Hx Hl]; subst.
    rewrite Hx; simpl. apply IH in Hl. now rewrite Hl.
Qed.

Lemma traverse_total {A B : Type} (f : A -> result B) (g : A -> B) (l : list A) :
  Forall (fun x => f x = Ok (g x)) l -> traverse f l = Ok (map g l).
Proof.
  induction 1 as [|x l Hx _ IH]; simpl; [reflexivity|].
  now rewrite Hx, IH.
Qed.

Section Sorting.
Context {A : Type} (lt : A -> A -> bool) (le : A -> A -> Prop).
Context (good : A -> Prop).
Hypothesis lt_le : forall x y, lt x y = true -> le x y.
Hypothesis total : forall x y, good x -> good y -> lt y x = false -> le x y.

Lemma insert_by_perm x l : Permutation (insert_by lt x l) (x :: l).
Proof.
  induction l as [|y l IH]; simpl; [reflexivity|].
  destruct (lt y x); [|reflexivity].
  rewrite IH. apply perm_swap.
Qed.

Lemma sort_by_perm l : Permutation (sort_by lt l) l.
Proof.
  induction l as [|x l IH]; simpl; [reflexivity|].
  rewrite insert_by_perm. now constructor.
Qed.

Lemma insert_by_HdRel x y l :
  le y x -> HdRel le y l -> HdRel le y (insert_by lt x l).
Proof.
  intros Hyx Hl. destruct l as [|z l]; simpl; [now constructor|].
  destruct (lt z x); constructor; [|assumption].
  now inversion Hl.
Qed.

Lemma insert_by_sorted x l :
  good x -> Forall good l -> Sorted le l -> Sorted le (insert_by lt x l).
Proof.
  intros Hx Hg Hs. induction l as [|y l IH]; simpl.
  - repeat constructor.
  - inversion Hg as [|? ? Hy Hg']; subst.
    inversion Hs as [|? ? Hs' Hhd]; subst.
    destruct (lt y x) eqn:Hlt.
    + constructor; [now apply IH|].
      apply insert_by_HdRel; [now apply lt_le | assumption].
    + constructor; [assumption|]. constructor. now apply total.
Qed.

Lemma sort_by_sorted l : Forall good l -> Sorted le (sort_by lt l).
Proof.
  induction 1 as [|x l Hx Hl IH]; simpl; [constructor|].
  apply insert_by_sorted; [assumption | | assumption].
  eapply Permutation_Forall; [|exact Hl].
  symmetry; apply sort_by_perm.
Qed.
End Sorting.

Lemma float_lt_le x y : float_lt x y = true -> float_le x y.
Proof.
  destruct x as [a| | |], y as [b| | |]; simpl; try easy.
  intros H. apply negb_true_iff in H.
  destruct (Qlt_le_dec b a) as [Hlt|Hle].
  - exfalso. apply Qlt_le_weak, Qle_bool_iff in Hlt. congruence.
  - assumption.
Qed.

Lemma float_total x y :
  is_nan x = false -> is_nan y = false -> float_lt y x = false -> float_le x y.
Proof.
  destruct x as [a| | |], y as [b| | |]; simpl; try easy.
  intros _ _ H. apply negb_false_iff, Qle_bool_iff in H. assumption.
Qed.



Lemma float_numeric s x :
  float_opt s = Some x -> (k ← float s; Ok (k, s)) = Ok (x, s).
Proof. intros H. unfold float. now rewrite H. Qed.

Lemma keyed_numeric (l : list string) :
  Forall numeric l ->
  exists keyed,
    traverse (fun s => k ← float s; Ok (k, s)) l = Ok keyed
    /\ map snd keyed = l /\ Forall keyed_ok keyed.
Proof.
  set (f := fun s => k ← float s; Ok (k, s)).
  induction 1 as [|s l (x & Hx & Hn) _ (keyed & Ht & Hm & Hk)].
  - exists []; repeat split; constructor.
  - exists ((x, s) :: keyed).
    assert (Hf : f s = Ok (x, s)) by now apply float_numeric.
    simpl. rewrite Hf. simpl. rewrite Ht. simpl.
    repeat split; [now rewrite Hm|].
    constructor; [split; assumption | assumption].
Qed.

Lemma sorted_keys_le (l : list (pyfloat * string)) :
  Forall keyed_ok l ->
  Sorted (fun p q => float_le p.1 q.1) l ->
  Sorted float_key_le (map snd l).
Proof.
  induction 1 as [|p l [Hp _] Hl IH]; simpl; intros Hs; [constructor|].
  inversion Hs as [|? ? Hs' Hhd]; subst.
  constructor; [now apply IH|].
  destruct l as [|q l']; simpl; constructor.
  inversion Hhd; subst. inversion Hl as [|? ? [Hq _] _]; subst.
  unfold float_key_le. now rewrite Hp, Hq.
Qed.

(** [sorted(l, key=float)] on numeric strings returns a permutation of
    [l] in ascending numeric order. *)
Lemma sorted_by_float_numeric (l : list string) :
  Forall numeric l ->
  exists l', sorted_by_float l = Ok l'
             /\ Permutation l' l /\ Sorted float_key_le l'.
Proof.
  intros Hl. destruct (keyed_numeric l Hl) as (keyed & Ht & Hm & Hk).
  exists (map snd (sort_by key_lt keyed)).
  unfold sorted_by_float. rewrite Ht. simpl. split; [reflexivity|]. split.
  - rewrite <- Hm. apply Permutation_map, sort_by_perm.
  - apply sorted_keys_le.
    + eapply Permutation_Forall; [|exact Hk].
      symmetry; apply sort_by_perm.
    + apply (sort_by_sorted key_lt _ keyed_ok).
      * intros p q. apply float_lt_le.
      * intros p q [_ Hp] [_ Hq]. now apply float_total.
      * assumption.
Qed.

(** Whenever [sorted(l, key=float)] returns, it returns a permutation. *)
Lemma sorted_by_float_perm (l l' : list string) :
  sorted_by_float l = Ok l' -> Permutation l' l.
Proof.
  unfold sorted_by_float. intros H.
  apply bind_ok in H as (keyed & Ht & H). inversion H; subst.
  assert (Hm : map snd keyed = l).
  { clear H. revert keyed Ht. induction l as [|s l IH]; simpl; intros keyed Ht.
    - now inversion Ht.
    - destruct (float s) as [k|]; simpl in Ht; [|discriminate].
      destruct (traverse _ l) as [ks|]; simpl in Ht; [|discriminate].
      inversion Ht; subst; simpl. f_equal. now apply IH. }
  rewrite <- Hm. apply Permutation_map, sort_by_perm.
Qed.

(* ===================================================================== *)
(** * The record emitter: distortion model, distances, ordering *)
(* ===================================================================== *)

Import Emit.

Lemma key_elem_of {V : Type} (d : dict V) k v : (k, v) ∈ d -> k ∈ keys d.
Proof.
  intros H. apply list_elem_of_In. apply list_elem_of_In in H.
  unfold keys. change k with (fst (k, v)). now apply in_map.
Qed.

Lemma get_elem_of {V : Type} (d : dict V) k v :
  NoDup (keys d) -> (k, v) ∈ d -> get d k = Ok v.
Proof.
  induction d as [|[k' v'] d IH]; simpl; intros Hnd Hin.
  - now apply elem_of_nil in Hin.
  - apply NoDup_cons in Hnd as [Hk' Hnd'].
    apply elem_of_cons in Hin as [Heq|Hin].
    + inversion Heq; subst. now rewrite String.eqb_refl.
    + destruct (String.eqb_spec k' k) as [->|_]; [|now apply IH].
      exfalso. apply Hk'. now apply key_elem_of with v.
Qed.

Lemma get_key {V : Type} (d : dict V) k :
  k ∈ keys d -> exists v, get d k = Ok v /\ (k, v) ∈ d.
Proof.
  induction d as [|[k' v'] d IH]; simpl; intros Hin.
  - now apply elem_of_nil in Hin.
  - destruct (String.eqb_spec k' k) as [->|Hne].
    + exists v'. split; [reflexivity | now left].
    + apply elem_of_cons in Hin as [Heq|Hin]; [congruence|].
      destruct (IH Hin) as (v & Hg & Hv). exists v.
      split; [assumption | now right].
Qed.

(** ** Distortion entries *)

Lemma split_nonempty sep s : split sep s <> [].
Proof.
  destruct s as [|c s]; simpl; [discriminate|].
  destruct (Ascii.eqb c sep); [discriminate|].
  destruct (split sep s); discriminate.
Qed.

(** The test [data[1] is None] never succeeds: whatever is emitted is a
    [ptlens] element. *)
Lemma distortion_line_ptlens focal_length value ln :
  distortion_line focal_length value = Ok ln ->
  exists a b c,
    ln = Elem "distortion"
           [("model", "ptlens"); ("focal", focal_length);
            ("a", a); ("b", b); ("c", c)].
Proof.
  unfold distortion_line.
  destruct (split "," value) as [|x0 [|x1 [|x2 l]]]; simpl; try discriminate.
  intros H; inversion H; subst. eauto.
Qed.


(** C1 (the code departs from the claim).  An entry with a single
    comma-separated value is not emitted as a [poly3] element: indexing
    [data[1]] raises [IndexError] before any model is chosen. *)
Theorem distortion_single_value_raises (focal_length value : string) :
  length (split "," value) = 1%nat ->
  distortion_line focal_length value = Err IndexError.
Proof.
  unfold distortion_line.
  destruct (split "," value) as [|x0 [|x1 l]]; simpl; intros H;
    try discriminate; reflexivity.
Qed.

Lemma distortion_single_value_raises_witness :
  length (split "," "0.0") = 1%nat
  /\ distortion_line "7.0" "0.0" = Err IndexError.
Proof.
  split; [reflexivity|].
  apply (distortion_single_value_raises "7.0" "0.0"). reflexivity.
Defined.

(** The emitter on the two entries of the specification. *)
Example emit_distortion_single :
  emit_distortion [("7.0", "0.0")] = Err IndexError.
Proof. vm_compute. reflexivity. Qed.

Example emit_distortion_triple :
  emit_distortion [("7.0", "0.0, 0.0, 0.0")]
  = Ok [Elem "distortion"
          [("model", "ptlens"); ("focal", "7.0");
           ("a", "0.0"); ("b", "0.0"); ("c", "0.0")]].
Proof. vm_compute. reflexivity. Qed.

(** Two values reach the [ptlens] branch and fail on [data[2]]. *)
Example emit_distortion_pair :
  emit_distortion [("7.0", "0.0, 0.0")] = Err IndexError.
Proof. vm_compute. reflexivity. Qed.

(** ** Loops that are known to return *)

Lemma traverse_lines_of {A : Type} (g : A -> result (list line)) (ks : list A) :
  Forall (fun k => exists c, g k = Ok c) ks ->
  traverse g ks = Ok (map (fun k => lines_of (g k)) ks).
Proof.
  intros H. apply traverse_total.
  eapply Forall_impl; [exact H|].
  intros k [c Hc]. simpl. now rewrite Hc.
Qed.

Lemma filter_all {A : Type} (p : A -> bool) (l : list A) :
  Forall (fun x => p x = true) l -> List.filter p l = l.
Proof.
  induction 1 as [|x l Hx _ IH]; simpl; [reflexivity|].
  now rewrite Hx, IH.
Qed.

Lemma filter_none {A : Type} (p : A -> bool) (l : list A) :
  Forall (fun x => p x = false) l -> List.filter p l = [].
Proof.
  induction 1 as [|x l Hx _ IH]; simpl; [reflexivity|].
  now rewrite Hx, IH.
Qed.

Lemma has_attr name k ln : attr name ln = Some k -> has name k ln = true.
Proof. unfold has. intros ->. apply String.eqb_refl. Qed.

Lemma has_other name k k' ln :
  attr name ln = Some k' -> k' <> k -> has name k ln = false.
Proof. unfold has. intros -> Hne. now apply String.eqb_neq. Qed.

(** Selecting the lines of one key from the concatenated chunks of a
    loop over distinct keys gives back the chunk of that key. *)
Lemma filter_chunks (name : string) (h : string -> list line) (ks : list string) k :
  NoDup ks -> k ∈ ks ->
  (forall k', k' ∈ ks -> Forall (fun ln => attr name ln = Some k') (h k')) ->
  List.filter (has name k) (concat (map h ks)) = h k.
Proof.
  induction ks as [|k0 ks IH]; intros Hnd Hin Hh.
  - now apply elem_of_nil in Hin.
  - apply NoDup_cons in Hnd as [Hk0 Hnd]. simpl.
    rewrite List.filter_app.
    assert (Hrest : forall k', k' ∈ ks ->
              Forall (fun ln => attr name ln = Some k') (h k')).
    { intros k' Hk'. apply Hh. now right. }
    destruct (decide (k0 = k)) as [->|Hne].
    + rewrite filter_all.
      2:{ eapply Forall_impl; [apply Hh; now left|].
          intros ln Hln. now apply has_attr. }
      rewrite filter_none; [apply app_nil_r|].
      apply Forall_concat, Forall_forall. intros c Hc.
      apply list_elem_of_In, in_map_iff in Hc as (k' & <- & Hk').
      apply list_elem_of_In in Hk'.
      eapply Forall_impl; [apply Hrest, Hk'|].
      intros ln Hln. apply has_other with k'; [assumption|].
      intros ->. contradiction.
    + rewrite filter_none.
      2:{ eapply Forall_impl; [apply Hh; now left|].
          intros ln Hln. now apply has_other with k0. }
      simpl. apply IH; [assumption | | assumption].
      apply elem_of_cons in Hin as [Heq|Hin]; [congruence | assumption].
Qed.

(** ** Numeric order is transitive *)

Lemma float_le_trans x y z : float_le x y -> float_le y z -> float_le x z.
Proof.
  destruct x as [a| | |], y as [b| | |], z as [c| | |]; simpl; try easy.
  apply Qle_trans.
Qed.

#[local] Instance float_key_le_trans : Transitive float_key_le.
Proof.
  intros a b c. unfold float_key_le.
  destruct (float_opt a), (float_opt b), (float_opt c); try easy.
  apply float_le_trans.
Qed.

Lemma float_key_le_numeric a b : float_key_le a b -> numeric a /\ numeric b.
Proof.
  unfold float_key_le, numeric.
  destruct (float_opt a) as [x|], (float_opt b) as [y|]; try easy.
  intros H. split; eexists; (split; [reflexivity|]).
  - destruct x, y; simpl in *; easy.
  - destruct x, y; simpl in *; easy.
Qed.

Lemma sorted_by_float_strongly (l : list string) :
  Forall numeric l ->
  exists l', sorted_by_float l = Ok l'
             /\ Permutation l' l /\ StronglySorted float_key_le l'.
Proof.
  intros H. destruct (sorted_by_float_numeric l H) as (l' & Hs & Hp & Hso).
  exists l'. repeat split; try assumption.
  apply Sorted_StronglySorted; [|assumption].
  intros a b c. apply float_key_le_trans.
Qed.




(** ** The vignetting loops *)

Lemma vignetting_elem_ok f a d data k1 k2 k3 :
  coefficients data k1 k2 k3 ->
  vignetting_elem f a d data = Ok (vig f a d k1 k2 k3).
Proof.
  intros (H1 & H2 & H3). unfold vignetting_elem.
  rewrite H1; simpl. rewrite H2; simpl. rewrite H3; reflexivity.
Qed.

Lemma vignetting_lines_ok f a dists d data k1 k2 k3 :
  get dists d = Ok data -> coefficients data k1 k2 k3 ->
  vignetting_lines f a dists d
  = Ok (map (fun d' => vig f a d' k1 k2 k3) (written_distances dists d)).
Proof.
  intros Hd Hc. unfold vignetting_lines. rewrite Hd; simpl.
  apply traverse_total. apply Forall_forall. intros d' _.
  now apply vignetting_elem_ok.
Qed.

Lemma rewrite_distance_1000 d :
  rewrite_distance d = "1000" <-> d = "inf" \/ d = "1000".
Proof.
  unfold rewrite_distance. destruct (String.eqb_spec d "inf") as [->|Hne].
  - split; [now left | reflexivity].
  - split; [now right | intros [?|?]; congruence].
Qed.

Lemma written_distances_not_inf dists d :
  Forall (fun d' => d' <> "inf") (written_distances dists d).
Proof.
  unfold written_distances, rewrite_distance.
  destruct (_ && _).
  - repeat constructor; discriminate.
  - destruct (String.eqb_spec d "inf"); repeat constructor;
      [discriminate | assumption].
Qed.

Lemma vig_line_at f a d k1 k2 k3 : d <> "inf" -> line_at f a (vig f a d k1 k2 k3).
Proof.
  intros Hd. unfold line_at, vig, attr; simpl. repeat split.
  intros H; inversion H; contradiction.
Qed.

Section Loops.
Context {V : Type} (wf_value : V -> Prop) (P : string -> list line -> Prop).
Context (body : string -> V -> result (list line)).
Hypothesis body_ok :
  forall k v, wf_value v -> exists c, body k v = Ok c /\ P k c.

(** A loop [for k in sorted(d.keys(), key=float)] over a well-formed
    map visits a sorted permutation of the keys and returns the
    concatenated chunks of its body. *)
Lemma sorted_loop (d : dict V) :
  wf_dict wf_value d ->
  exists ks,
    sorted_by_float (keys d) = Ok ks
    /\ Permutation ks (keys d)
    /\ StronglySorted float_key_le ks
    /\ traverse (fun k => v ← get d k; body k v) ks
       = Ok (map (fun k => lines_of (v ← get d k; body k v)) ks)
    /\ forall k v, (k, v) ∈ d ->
         lines_of (v ← get d k; body k v) = lines_of (body k v)
         /\ P k (lines_of (body k v)).
Proof.
  intros (Hnd & Hnum & Hwf).
  destruct (sorted_by_float_strongly _ Hnum) as (ks & Hs & Hp & Hso).
  exists ks. repeat split; try assumption.
  - apply traverse_lines_of. apply Forall_forall. intros k Hk.
    assert (Hk' : k ∈ keys d).
    { apply list_elem_of_In. eapply Permutation_in; [exact Hp|].
      now apply list_elem_of_In. }
    destruct (get_key d k Hk') as (v & Hg & Hv).
    rewrite Forall_forall in Hwf. specialize (Hwf _ Hv). simpl in Hwf.
    destruct (body_ok k v Hwf) as (c & Hc & _).
    exists c. now rewrite Hg.
  - rewrite (get_elem_of d k v Hnd H). reflexivity.
  - rewrite Forall_forall in Hwf. specialize (Hwf _ H). simpl in Hwf.
    destruct (body_ok k v Hwf) as (c & Hc & HP). now rewrite Hc.
Qed.
End Loops.

Lemma distance_body_ok f a dists d data :
  wf_data data ->
  exists c,
    traverse (fun d' => vignetting_elem f a d' data) (written_distances dists d)
    = Ok c
    /\ Forall (line_at f a) c.
Proof.
  intros (k1 & k2 & k3 & Hc).
  exists (map (fun d' => vig f a d' k1 k2 k3) (written_distances dists d)).
  split.
  - apply traverse_total, Forall_forall. intros d' _.
    now apply vignetting_elem_ok.
  - apply Forall_map.
    eapply Forall_impl; [apply written_distances_not_inf|].
    intros d' Hd'. now apply vig_line_at.
Qed.

(** The aperture loop body: all distances of one aperture. *)
Lemma emit_aperture_ok f a dists :
  wf_distances dists ->
  exists ds,
    Permutation ds (keys dists)
    /\ StronglySorted float_key_le ds
    /\ emit_aperture f a dists
       = Ok (concat (map (fun d => lines_of (vignetting_lines f a dists d)) ds))
    /\ Forall (line_at f a)
         (concat (map (fun d => lines_of (vignetting_lines f a dists d)) ds)).
Proof.
  intros Hwf.
  destruct (sorted_loop wf_data (fun _ c => Forall (line_at f a) c)
              (fun d data =>
                 traverse (fun d' => vignetting_elem f a d' data)
                          (written_distances dists d))
              (fun d data => distance_body_ok f a dists d data) dists Hwf)
    as (ds & Hs & Hp & Hso & Ht & Hall).
  exists ds. repeat split; try assumption.
  - unfold emit_aperture. rewrite Hs. simpl.
    change (traverse (vignetting_lines f a dists) ds)
      with (traverse (fun k => v ← get dists k;
                        traverse (fun d' => vignetting_elem f a d' v)
                                 (written_distances dists k)) ds).
    rewrite Ht. reflexivity.
  - apply Forall_concat, Forall_forall. intros c Hc.
    apply list_elem_of_In, in_map_iff in Hc as (d & <- & Hd).
    assert (Hd' : d ∈ keys dists).
    { apply list_elem_of_In. eapply Permutation_in; [exact Hp | exact Hd]. }
    destruct (get_key dists d Hd') as (data & Hg & Hin).
    destruct (Hall d data Hin) as [Heq HP].
    unfold vignetting_lines. rewrite Heq. exact HP.
Qed.

Lemma aperture_body_ok f a dists :
  wf_distances dists ->
  exists c, emit_aperture f a dists = Ok c /\ Forall (line_at f a) c.
Proof.
  intros H. destruct (emit_aperture_ok f a dists H) as (ds & _ & _ & He & Hl).
  eauto.
Qed.

(** The focal-length loop body: all apertures of one focal length. *)
Lemma emit_focal_ok f aps :
  wf_apertures aps ->
  exists as_,
    Permutation as_ (keys aps)
    /\ StronglySorted float_key_le as_
    /\ emit_focal f aps
       = Ok (concat (map (fun a => lines_of (dists ← get aps a;
                                             emit_aperture f a dists)) as_))
    /\ forall a dists, (a, dists) ∈ aps ->
         lines_of (dists ← get aps a; emit_aperture f a dists)
         = lines_of (emit_aperture f a dists)
         /\ Forall (line_at f a) (lines_of (emit_aperture f a dists)).
Proof.
  intros Hwf.
  destruct (sorted_loop wf_distances (fun a c => Forall (line_at f a) c)
              (fun a dists => emit_aperture f a dists)
              (fun a dists => aperture_body_ok f a dists) aps Hwf)
    as (as_ & Hs & Hp & Hso & Ht & Hall).
  exists as_. repeat split; try assumption; try (now apply Hall).
  unfold emit_focal. rewrite Hs. simpl. rewrite Ht. reflexivity.
Qed.

Lemma focal_lines_at f aps as_ :
  wf_apertures aps -> Permutation as_ (keys aps) ->
  forall a, a ∈ as_ ->
    Forall (line_at f a)
      (lines_of (dists ← get aps a; emit_aperture f a dists)).
Proof.
  intros Hwf Hp a Ha.
  destruct (emit_focal_ok f aps Hwf) as (_ & _ & _ & _ & Hall).
  assert (Ha' : a ∈ keys aps).
  { apply list_elem_of_In. eapply Permutation_in; [exact Hp|].
    now apply list_elem_of_In. }
  destruct (get_key aps a Ha') as (dists & Hg & Hin).
  destruct (Hall a dists Hin) as [Heq HP]. rewrite Heq. exact HP.
Qed.

Lemma focal_body_ok f aps :
  wf_apertures aps ->
  exists c, emit_focal f aps = Ok c
            /\ Forall (fun ln => attr "focal" ln = Some f
                                 /\ attr "distance" ln <> Some "inf") c.
Proof.
  intros Hwf.
  destruct (emit_focal_ok f aps Hwf) as (as_ & Hp & _ & He & _).
  eexists. split; [exact He|].
  apply Forall_concat, Forall_forall. intros c Hc.
  apply list_elem_of_In, in_map_iff in Hc as (a & <- & Ha).
  apply list_elem_of_In in Ha.
  eapply Forall_impl; [apply (focal_lines_at f aps as_ Hwf Hp a Ha)|].
  intros ln (Hf & _ & Hd). now split.
Qed.

(** The whole vignetting block. *)
Lemma emit_vignetting_ok v :
  wf_vignetting v ->
  exists fs,
    Permutation fs (keys v)
    /\ StronglySorted float_key_le fs
    /\ emit_vignetting v
       = Ok (concat (map (fun f => lines_of (aps ← get v f; emit_focal f aps)) fs))
    /\ forall f aps, (f, aps) ∈ v ->
         lines_of (aps ← get v f; emit_focal f aps) = lines_of (emit_focal f aps)
         /\ Forall (fun ln => attr "focal" ln = Some f
                              /\ attr "distance" ln <> Some "inf")
              (lines_of (emit_focal f aps)).
Proof.
  intros Hwf.
  destruct (sorted_loop wf_apertures
              (fun f c => Forall (fun ln => attr "focal" ln = Some f
                                          /\ attr "distance" ln <> Some "inf") c)
              (fun f aps => emit_focal f aps)
              (fun f aps => focal_body_ok f aps) v Hwf)
    as (fs & Hs & Hp & Hso & Ht & Hall).
  exists fs. repeat split; try assumption; try (now apply Hall).
  unfold emit_vignetting. rewrite Hs. simpl. rewrite Ht. reflexivity.
Qed.

(** ** Selecting the lines of one focal length and aperture *)

Lemma perm_elem_of (ks ks' : list string) k :
  Permutation ks ks' -> k ∈ ks' -> k ∈ ks.
Proof.
  intros Hp Hk. apply list_elem_of_In. apply list_elem_of_In in Hk.
  eapply Permutation_in; [symmetry; exact Hp | exact Hk].
Qed.

Lemma perm_NoDup (ks ks' : list string) :
  Permutation ks ks' -> NoDup ks' -> NoDup ks.
Proof. intros Hp Hnd. now rewrite Hp. Qed.

Lemma chunk_elem_of (h : string -> list line) (ks : list string) k ln :
  k ∈ ks -> ln ∈ h k -> ln ∈ concat (map h ks).
Proof.
  intros Hk Hln. apply list_elem_of_In, in_concat.
  exists (h k). split; [|now apply list_elem_of_In].
  apply in_map. now apply list_elem_of_In.
Qed.

(** In the emitted block, the lines of focal length [f] are those of its
    loop body. *)
Lemma focal_chunk v out f aps :
  wf_vignetting v -> emit_vignetting v = Ok out -> (f, aps) ∈ v ->
  List.filter (has "focal" f) out = lines_of (emit_focal f aps).
Proof.
  intros Hwf Hout Hin.
  destruct (emit_vignetting_ok v Hwf) as (fs & Hp & _ & He & Hall).
  rewrite He in Hout. inversion Hout; subst out; clear Hout.
  destruct Hwf as (Hnd & _ & _).
  rewrite filter_chunks.
  - now apply Hall.
  - now apply perm_NoDup with (keys v).
  - apply perm_elem_of with (keys v); [assumption|].
    now apply key_elem_of with aps.
  - intros f' Hf'.
    assert (Hk : f' ∈ keys v).
    { apply list_elem_of_In. eapply Permutation_in; [exact Hp|].
      now apply list_elem_of_In. }
    destruct (get_key v f' Hk) as (aps' & _ & Hin').
    destruct (Hall f' aps' Hin') as [-> HP].
    eapply Forall_impl; [exact HP|]. now intros ln [? _].
Qed.

(** Among the lines of focal length [f], those of aperture [a] are the
    ones of the aperture's loop body. *)
Lemma aperture_chunk f aps a dists :
  wf_apertures aps -> (a, dists) ∈ aps ->
  List.filter (has "aperture" a) (lines_of (emit_focal f aps))
  = lines_of (emit_aperture f a dists).
Proof.
  intros Hwf Hin.
  destruct (emit_focal_ok f aps Hwf) as (as_ & Hp & _ & He & Hall).
  rewrite He. simpl.
  rewrite filter_chunks.
  - now apply Hall.
  - destruct Hwf as (Hnd & _). now apply perm_NoDup with (keys aps).
  - apply perm_elem_of with (keys aps); [assumption|].
    now apply key_elem_of with dists.
  - intros a' Ha'.
    eapply Forall_impl; [apply (focal_lines_at f aps as_ Hwf Hp a' Ha')|].
    now intros ln (_ & ? & _).
Qed.

Lemma sorted_by_float_single d :
  rewrite_distance d = "1000" -> sorted_by_float [d] = Ok [d].
Proof.
  intros H. apply rewrite_distance_1000 in H as [->| ->]; reflexivity.
Qed.

(** The only distance of an aperture, written as 1000, is written twice. *)
Lemma emit_aperture_single f a d data k1 k2 k3 :
  rewrite_distance d = "1000" -> coefficients data k1 k2 k3 ->
  emit_aperture f a [(d, data)]
  = Ok [vig f a "10" k1 k2 k3; vig f a "1000" k1 k2 k3].
Proof.
  intros Hd Hc. unfold emit_aperture.
  change (keys [(d, data)]) with [d].
  rewrite sorted_by_float_single by assumption.
  cbn [mbind result_bind traverse].
  rewrite (vignetting_lines_ok f a [(d, data)] d data k1 k2 k3); [| |assumption].
  - unfold written_distances. rewrite Hd. reflexivity.
  - simpl. now rewrite String.eqb_refl.
Qed.

(** C2.  For a well-formed vignetting tree the emitter returns, never
    writes the distance key ["inf"] (it is written as 1000), and for
    every focal length and aperture whose only recorded distance is
    written as 1000 the lines of that focal length and aperture are
    exactly two, at the distances 10 and 1000, with the same k1, k2, k3. *)
Theorem infinite_distance_written_twice (v : dict (dict (dict (dict string)))) :
  wf_vignetting v ->
  exists out,
    emit_vignetting v = Ok out
    /\ Forall (fun ln => attr "distance" ln <> Some "inf") out
    /\ (forall f aps a dists data k1 k2 k3,
          (f, aps) ∈ v -> (a, dists) ∈ aps -> ("inf", data) ∈ dists ->
          coefficients data k1 k2 k3 ->
          vig f a "1000" k1 k2 k3 ∈ out)
    /\ (forall f aps a d data k1 k2 k3,
          (f, aps) ∈ v -> (a, [(d, data)]) ∈ aps ->
          rewrite_distance d = "1000" -> coefficients data k1 k2 k3 ->
          List.filter (has "aperture" a) (List.filter (has "focal" f) out)
          = [vig f a "10" k1 k2 k3; vig f a "1000" k1 k2 k3]).
Proof.
  intros Hwf.
  destruct (emit_vignetting_ok v Hwf) as (fs & Hp & _ & He & Hall).
  match type of He with _ = Ok ?o => remember o as out eqn:Hout end.
  exists out. split; [exact He|].
  assert (Haps : forall f aps, (f, aps) ∈ v -> wf_apertures aps).
  { intros f aps Hin. destruct Hwf as (_ & _ & Hv).
    rewrite Forall_forall in Hv. apply (Hv _ Hin). }
  split; [|split].
  - subst out. apply Forall_concat, Forall_forall. intros c Hc.
    apply list_elem_of_In, in_map_iff in Hc as (f & <- & Hf).
    assert (Hk : f ∈ keys v).
    { apply list_elem_of_In. eapply Permutation_in; [exact Hp | exact Hf]. }
    destruct (get_key v f Hk) as (aps & _ & Hin).
    destruct (Hall f aps Hin) as [-> HP].
    eapply Forall_impl; [exact HP|]. now intros ln [_ ?].
  - intros f aps a dists data k1 k2 k3 Hf Ha Hd Hc.
    assert (Hwa := Haps f aps Hf).
    assert (Hwd : wf_distances dists).
    { destruct Hwa as (_ & _ & Hv). rewrite Forall_forall in Hv.
      apply (Hv _ Ha). }
    assert (Hln : vig f a "1000" k1 k2 k3 ∈ lines_of (emit_aperture f a dists)).
    { destruct (emit_aperture_ok f a dists Hwd) as (ds & Hpd & _ & Hed & _).
      rewrite Hed. simpl. apply chunk_elem_of with "inf".
      - apply perm_elem_of with (keys dists); [assumption|].
        now apply key_elem_of with data.
      - rewrite (vignetting_lines_ok f a dists "inf" data k1 k2 k3);
          [| apply get_elem_of; [apply Hwd | assumption] | assumption].
        simpl. apply list_elem_of_In, in_map_iff. exists "1000".
        split; [reflexivity|]. unfold written_distances. simpl.
        destruct (_ && _); simpl; auto. }
    rewrite <- (aperture_chunk f aps a dists Hwa Ha) in Hln.
    apply list_elem_of_In, filter_In in Hln as [Hln _].
    rewrite <- (focal_chunk v out f aps Hwf He Hf) in Hln.
    apply filter_In in Hln as [Hln _]. now apply list_elem_of_In.
  - intros f aps a d data k1 k2 k3 Hf Ha Hd Hc.
    rewrite (focal_chunk v out f aps Hwf He Hf).
    rewrite (aperture_chunk f aps a _ (Haps f aps Hf) Ha).
    now rewrite (emit_aperture_single f a d data k1 k2 k3).
Qed.

Lemma numeric_literal s x :
  float_opt s = Some (Fin x) -> numeric s.
Proof. intros H. exists (Fin x). now split. Qed.

Lemma numeric_inf : numeric "inf".
Proof. exists PInf. now split. Qed.

Lemma infinite_distance_written_twice_witness :
  let data := [("a", "30000.0000000"); ("k1", "-0.3000000");
               ("k2", "0.1000000"); ("k3", "-0.0500000")] in
  let v := [("14.0", [("4.0", [("inf", data)])])] in
  wf_vignetting v
  /\ exists out,
       emit_vignetting v = Ok out
       /\ List.filter (has "aperture" "4.0") (List.filter (has "focal" "14.0") out)
          = [vig "14.0" "4.0" "10" "-0.3000000" "0.1000000" "-0.0500000";
             vig "14.0" "4.0" "1000" "-0.3000000" "0.1000000" "-0.0500000"].
Proof.
  intros data v.
  assert (Hwf : wf_vignetting v).
  { repeat split; simpl;
      repeat first
        [ apply NoDup_nil_2 | apply NoDup_cons_2 | apply not_elem_of_nil
        | apply Forall_nil_2 | apply Forall_cons_2
        | apply numeric_inf
        | eapply numeric_literal; vm_compute; reflexivity
        | split ].
    exists "-0.3000000", "0.1000000", "-0.0500000". now repeat split. }
  split; [exact Hwf|].
  destruct (infinite_distance_written_twice v Hwf) as (out & He & _ & _ & Hdup).
  exists out. split; [exact He|].
  apply (Hdup "14.0" [("4.0", [("inf", data)])] "4.0" "inf" data).
  - left.
  - left.
  - reflexivity.
  - now repeat split.
Defined.

(** ** Distortion and TCA loops *)


Section KeyedLoops.
Context {V : Type} (wf_value : V -> Prop).
Context (body : string -> V -> result line).
Hypothesis body_ok :
  forall k v, wf_value v ->
    exists ln, body k v = Ok ln /\ attr "focal" ln = Some k.

End KeyedLoops.





(** The [<lens>] element is the header, the three calibration blocks in
    turn, and the closing lines. *)
Lemma emit_lens_blocks lens_model l out :
  emit_lens lens_model l = Ok out ->
  exists head d t v tail,
    out = head ++ d ++ t ++ v ++ tail
    /\ emit_distortion (distortion l) = Ok d
    /\ emit_tca (tca l) = Ok t
    /\ emit_vignetting (vignetting l) = Ok v
    /\ attrs_of "focal" head = [] /\ attrs_of "focal" tail = [].
Proof.
  unfold emit_lens. intros H.
  apply bind_ok in H as (maker & _ & H).
  apply bind_ok in H as (mount & _ & H).
  apply bind_ok in H as (cropfactor & _ & H).
  apply bind_ok in H as (type & _ & H).
  apply bind_ok in H as (d & Hd & H).
  apply bind_ok in H as (t & Ht & H).
  apply bind_ok in H as (v & Hv & H).
  inversion H; subst out; clear H.
  lazymatch goal with
  | |- exists head d' t' v' tail,
         ?x1 :: ?x2 :: ?x3 :: ?x4 :: ?x5 :: ?b ++ ?c :: _ ++ _ ++ _ ++ ?e = _ /\ _ =>
      exists (x1 :: x2 :: x3 :: x4 :: x5 :: b ++ [c]), d, t, v, e
  end.
  repeat split; try assumption.
  - destruct (String.eqb type "normal"); reflexivity.
  - destruct (String.eqb type "normal"); reflexivity.
Qed.



(** In lexical order 100.0 would come first. *)
Example numeric_not_lexical :
  (attrs_of "focal" <$>
     emit_distortion [("100.0", "0.0, 0.0, 0.0"); ("14.0", "0.0, 0.0, 0.0");
                      ("7.0", "0.0, 0.0, 0.0")])
  = Ok ["7.0"; "14.0"; "100.0"].
Proof. vm_compute. reflexivity. Qed.

(** The distance key ["inf"] sorts as infinity and is written as 1000,
    after any finite distance. *)
Example infinity_sorts_last :
  (attrs_of "distance" <$>
     emit_aperture "14.0" "4.0"
       [("inf", [("k1", "0"); ("k2", "0"); ("k3", "0")]);
        ("2000.0", [("k1", "0"); ("k2", "0"); ("k3", "0")]);
        ("0.5", [("k1", "0"); ("k2", "0"); ("k3", "0")])])
  = Ok ["0.5"; "2000.0"; "1000"].
Proof. vm_compute. reflexivity. Qed.

(* ===================================================================== *)
(** * The raster decoder: sample width and format errors *)
(* ===================================================================== *)

Import Pgm.

Lemma be_value_1 b : be_value [b] = Byte.to_N b.
Proof. unfold be_value; simpl. lia. Qed.

Lemma be_value_2 b0 b1 :
  be_value [b0; b1] = (256 * Byte.to_N b0 + Byte.to_N b1)%N.
Proof. unfold be_value; simpl. lia. Qed.

Lemma be_value_4 b0 b1 b2 b3 :
  be_value [b0; b1; b2; b3]
  = (16777216 * Byte.to_N b0 + 65536 * Byte.to_N b1
     + 256 * Byte.to_N b2 + Byte.to_N b3)%N.
Proof. unfold be_value; simpl. lia. Qed.



Lemma frombuffer_Ok buf dt count offset shape :
  frombuffer buf dt count offset = Ok shape ->
  shape = map (sample_at buf (itemsize dt) offset) (seq 0 count)
  /\ (offset + count * itemsize dt <= length buf)%nat.
Proof.
  unfold frombuffer.
  destruct (length buf <? offset)%nat eqn:H1; [discriminate|].
  destruct (length buf - offset <? count * itemsize dt)%nat eqn:H2;
    [discriminate|].
  intros H; inversion H; subst. split; [reflexivity|].
  apply Nat.ltb_ge in H1, H2. lia.
Qed.

Lemma frombuffer_enough buf dt count offset :
  (offset + count * itemsize dt <= length buf)%nat ->
  frombuffer buf dt count offset
  = Ok (map (sample_at buf (itemsize dt) offset) (seq 0 count)).
Proof.
  intros H. unfold frombuffer.
  destruct (Nat.ltb_spec (length buf) offset) as [?|_]; [lia|].
  destruct (Nat.ltb_spec (length buf - offset) (count * itemsize dt)) as [?|_];
    [lia | reflexivity].
Qed.

Lemma dtype_of_maxval_spec m :
  (dtype_of_maxval m = Some UInt8 <-> m = 255%N)
  /\ (dtype_of_maxval m = Some UInt16 <-> m = 65535%N)
  /\ (dtype_of_maxval m = Some Float32 <-> m = 4294967295%N)
  /\ (dtype_of_maxval m = None <->
        m <> 255%N /\ m <> 65535%N /\ m <> 4294967295%N).
Proof.
  unfold dtype_of_maxval.
  destruct (N.eqb_spec m 255) as [->|H1]; [repeat split; intros; try easy; lia|].
  destruct (N.eqb_spec m 65535) as [->|H2]; [repeat split; intros; try easy; lia|].
  destruct (N.eqb_spec m 4294967295) as [->|H3];
    [repeat split; intros; try easy; lia|].
  repeat split; intros; try easy.
Qed.



(** The three accepted maximum values on small rasters. *)
Example load_pgm_uint8 :
  load_pgm "flat.pgm" (bytes_of "P5 2 1 255 ab")
  = Ok {| width := 2; height := 1; sample_type := UInt8;
          rows := [[97%N; 98%N]] |}.
Proof. vm_compute. reflexivity. Qed.

Example load_pgm_uint16 :
  load_pgm "flat.pgm" (bytes_of "P5 1 1 65535 ab")
  = Ok {| width := 1; height := 1; sample_type := UInt16;
          rows := [[(256 * 97 + 98)%N]] |}.
Proof. vm_compute. reflexivity. Qed.

Example load_pgm_not_p5 :
  load_pgm "flat.pgm" (bytes_of "P6 1 1 255 abc") = Err (not_netpgm "flat.pgm").
Proof. vm_compute. reflexivity. Qed.

(** Comment lines between the fields of the header are skipped. *)
Example load_pgm_comments :
  load_pgm "flat.pgm"
    (bytes_of ("P5" +:+ nl +:+ "# written by hand" +:+ nl +:+ "2 1" +:+ nl
               +:+ "# eight bits" +:+ nl +:+ "255" +:+ nl +:+ "ab"))
  = Ok {| width := 2; height := 1; sample_type := UInt8;
          rows := [[97%N; 98%N]] |}.
Proof. vm_compute. reflexivity. Qed.

(* ===================================================================== *)
(** * The metadata resolver: which tag names the lens *)
(* ===================================================================== *)

Import World Exif.

Lemma M_bind_ok {A B : Type} (m : M A) (f : A -> M B) w b w' :
  (m ≫= f) w = (Ok b, w') ->
  exists a w1, m w = (Ok a, w1) /\ f a w1 = (Ok b, w').
Proof.
  unfold mbind, M_bind. destruct (m w) as [[a|e] w1]; [eauto | discriminate].
Qed.

(** The record returned for a file carries the lens model resolved from
    the metadata of that file. *)
Lemma image_read_exif_lens_model (E : env) filename w x w' :
  image_read_exif E filename w = (Ok x, w') ->
  exists data,
    read_metadata E filename (fs w) = Ok data
    /\ lens_model x = resolve_lens_model data.
Proof.
  unfold image_read_exif. intros H.
  apply M_bind_ok in H as (data & w1 & Hd & H).
  inversion Hd; subst. exists data. split; [assumption|].
  apply M_bind_ok in H as (ar & w2 & _ & H).
  apply M_bind_ok in H as (fl & w3 & _ & H).
  apply M_bind_ok in H as (ap & w4 & _ & H).
  apply M_bind_ok in H as (u & w5 & _ & H).
  apply M_bind_ok in H as (cf & w6 & _ & H).
  apply M_bind_ok in H as (lm & w7 & _ & H).
  apply M_bind_ok in H as (mo & w8 & _ & H).
  inversion H; subst. reflexivity.
Qed.

(** C4 (as amended).  Without the standard lens-model tag, the
    manufacturer tags are tested in the order Nikon, Panasonic, Sony,
    Minolta, Olympus and every present one overwrites the result, so the
    last present tag of that order names the lens; ["Standard"] when
    none is present. *)
Theorem lens_model_last_present_tag (data : gmap string tag) :
  data !! "Exif.Photo.LensModel" = None ->
  resolve_lens_model data =
    match data !! "Exif.OlympusEq.LensType" with
    | Some t => human_value t
    | None =>
    match data !! "Exif.Minolta.LensID" with
    | Some t => human_value t
    | None =>
    match data !! "Exif.Sony1.LensID" with
    | Some t => human_value t
    | None =>
    match data !! "Exif.Panasonic.LensType" with
    | Some t => value t
    | None =>
    match data !! "Exif.NikonLd3.LensIDNumber" with
    | Some t => human_value t
    | None => "Standard"
    end end end end end.
Proof.
  intros H. unfold resolve_lens_model, or_human, or_value. rewrite H.
  destruct (data !! "Exif.OlympusEq.LensType"); [reflexivity|].
  destruct (data !! "Exif.Minolta.LensID"); [reflexivity|].
  destruct (data !! "Exif.Sony1.LensID"); [reflexivity|].
  destruct (data !! "Exif.Panasonic.LensType"); [reflexivity|].
  destruct (data !! "Exif.NikonLd3.LensIDNumber"); reflexivity.
Qed.

Lemma lens_model_last_present_tag_witness :
  let sony := {| value := "65535"; human_value := "E 35mm F1.8 OSS";
                 number := None |} in
  let data : gmap string tag := {[ "Exif.Sony1.LensID" := sony ]} in
  data !! "Exif.Photo.LensModel" = None
  /\ resolve_lens_model data = "E 35mm F1.8 OSS".
Proof.
  intros sony data.
  split; [reflexivity|].
  rewrite (lens_model_last_present_tag data); reflexivity.
Defined.

(** The standard tag, when present, decides alone. *)
Lemma lens_model_standard_tag (data : gmap string tag) t :
  data !! "Exif.Photo.LensModel" = Some t ->
  resolve_lens_model data = value t.
Proof. intros H. unfold resolve_lens_model. now rewrite H. Qed.

Lemma lens_model_default (data : gmap string tag) :
  data !! "Exif.Photo.LensModel" = None ->
  data !! "Exif.NikonLd3.LensIDNumber" = None ->
  data !! "Exif.Panasonic.LensType" = None ->
  data !! "Exif.Sony1.LensID" = None ->
  data !! "Exif.Minolta.LensID" = None ->
  data !! "Exif.OlympusEq.LensType" = None ->
  resolve_lens_model data = "Standard".
Proof.
  intros H0 H1 H2 H3 H4 H5. unfold resolve_lens_model, or_human, or_value.
  now rewrite H0, H1, H2, H3, H4, H5.
Qed.

(** C4 (as stated, refuted).  With a Nikon and an Olympus tag and no
    standard tag the Olympus tag names the lens, where the stated
    priority gives the Nikon one. *)
Lemma lens_model_nikon_overwritten :
  let nikon := {| value := "146"; human_value := "AF-S Nikkor 50mm f/1.8G";
                  number := None |} in
  let olympus := {| value := "0 21 16";
                    human_value := "Olympus Zuiko Digital 11-22mm F2.8-3.5";
                    number := None |} in
  let data : gmap string tag :=
    {[ "Exif.NikonLd3.LensIDNumber" := nikon;
       "Exif.OlympusEq.LensType" := olympus ]} in
  data !! "Exif.Photo.LensModel" = None
  /\ spec_lens_model data = "AF-S Nikkor 50mm f/1.8G"
  /\ resolve_lens_model data = "Olympus Zuiko Digital 11-22mm F2.8-3.5"
  /\ resolve_lens_model data <> spec_lens_model data.
Proof.
  intros nikon olympus data.
  assert (Hs : spec_lens_model data = "AF-S Nikkor 50mm f/1.8G")
    by (vm_compute; reflexivity).
  assert (Hr : resolve_lens_model data
               = "Olympus Zuiko Digital 11-22mm F2.8-3.5")
    by (vm_compute; reflexivity).
  repeat split; try assumption; try (vm_compute; reflexivity).
  rewrite Hs, Hr. discriminate.
Qed.

(* ===================================================================== *)
(** * The TCA extractor *)
(* ===================================================================== *)

Import Regex Steps.

Lemma path_exists_absent w path :
  fs w !! path = None -> path_exists path w = (Ok false, w).
Proof. intros H. unfold path_exists. now rewrite H. Qed.

Lemma path_exists_present w path :
  is_Some (fs w !! path) -> path_exists path w = (Ok true, w).
Proof.
  intros H. unfold path_exists. now rewrite bool_decide_eq_true_2.
Qed.

(** The four captured fields of the example line, alone or followed by
    the end of the line. *)
Lemma tca_example_groups (output : string) :
  output = tca_example \/ output = tca_example +:+ nl ->
  exists m,
    re_match tca_data (codes output) = Some m
    /\ str_group (group (caps m) 1) = "-0.002"
    /\ str_group (group (caps m) 2) = "0.001"
    /\ str_group (group (caps m) 3) = "0.003"
    /\ str_group (group (caps m) 4) = "-0.001".
Proof.
  intros [-> | ->]; eexists; (split; [vm_compute; reflexivity|]);
    repeat split; vm_compute; reflexivity.
Qed.

Lemma decode_ascii_example (output : string) :
  output = tca_example \/ output = tca_example +:+ nl ->
  decode_ascii (String.list_byte_of_string output) = Ok output.
Proof. intros [-> | ->]; vm_compute; reflexivity. Qed.

Lemma before_set_example (output : string) :
  output = tca_example \/ output = tca_example +:+ nl ->
  before_set output = Ok output.
Proof. intros [-> | ->]; vm_compute; reflexivity. Qed.

(** C5.  When the detector prints the example line for an image whose
    [.tca] artifact does not exist yet, [tca_correct] writes the
    artifact with br=-0.002, vr=0.001, bb=0.003 and vb=-0.001 (and then,
    in complex mode only, goes on to the plot). *)
Theorem tca_example_recorded (E : env) (input_file original_file : string)
    (exif_data : exif) (complex_tca : bool) (w : world)
    (output : string) (errors : list Byte.byte) (fs' : gmap string content) :
  let tca_file := (splitext input_file).1 +:+ ".tca" in
  let gp_file := (splitext input_file).1 +:+ ".gp" in
  let pdf_file := (splitext input_file).1 +:+ ".pdf" in
  let cmd := ["tca_correct"; "-o"; if complex_tca then "bv" else "v";
              input_file] in
  output = tca_example \/ output = tca_example +:+ nl ->
  fs w !! tca_file = None ->
  run_process E cmd (fs w)
  = Exited 0 (String.list_byte_of_string output) errors fs' ->
  exists items,
    Emit.get items "br" = Ok "-0.002"
    /\ Emit.get items "vr" = Ok "0.001"
    /\ Emit.get items "bb" = Ok "0.003"
    /\ Emit.get items "vb" = Ok "-0.001"
    /\ tca_correct E input_file original_file exif_data complex_tca w
       = (if complex_tca then
            put gp_file
              (Text (tca_plot E input_file pdf_file original_file exif_data
                       "-0.002" "0.001" "0.003" "-0.001"));;
            plot_pdf E gp_file;; ret tt
          else ret tt)
           {| fs := <[tca_file := Config (lens_model exif_data) items]> fs';
              calls := calls w ++ [cmd];
              printed := printed w
                         ++ ["Running TCA corrections for " +:+ input_file
                             +:+ " ..."] |}.
Proof.
  intros tca_file gp_file pdf_file cmd Hout Habs Hrun.
  destruct (tca_example_groups output Hout) as (m & Hm & H1 & H2 & H3 & H4).
  exists (tca_items E exif_data complex_tca output
            "-0.002" "0.001" "0.003" "-0.001").
  repeat split.
  unfold tca_correct. fold tca_file gp_file pdf_file.
  unfold mbind at 1, M_bind at 1.
  rewrite (path_exists_absent w tca_file Habs). cbn [negb].
  unfold mbind at 1, M_bind at 1, print at 1. cbn [fs calls printed].
  unfold mbind at 1, M_bind at 1, spawn at 1. cbn [fs calls printed].
  fold cmd. rewrite Hrun. cbn [Z.eqb negb].
  unfold mbind at 1, M_bind at 1, lift at 1.
  rewrite (decode_ascii_example output Hout).
  rewrite Hm, H1, H2, H3, H4.
  unfold mbind at 1, M_bind at 1, lift at 1.
  rewrite (before_set_example output Hout).
  unfold mbind at 1, M_bind at 1, put at 1. cbn [fs calls printed].
  reflexivity.
Qed.

Lemma tca_example_recorded_witness :
  let E := tca_tool tca_example in
  let cmd := ["tca_correct"; "-o"; "v"; "tca/exported/P1.ppm"] in
  fs empty_world !! "tca/exported/P1.tca" = None
  /\ exists items,
       Emit.get items "br" = Ok "-0.002"
       /\ Emit.get items "vr" = Ok "0.001"
       /\ Emit.get items "bb" = Ok "0.003"
       /\ Emit.get items "vb" = Ok "-0.001"
       /\ fs (tca_correct E "tca/exported/P1.ppm" "tca/P1.ORF" sample_exif
                false empty_world).2 !! "tca/exported/P1.tca"
          = Some (Config (lens_model sample_exif) items).
Proof.
  intros E cmd. split; [reflexivity|].
  destruct (tca_example_recorded E "tca/exported/P1.ppm" "tca/P1.ORF"
              sample_exif false empty_world tca_example [] ∅)
    as (items & Hbr & Hvr & Hbb & Hvb & Hrun).
  - now left.
  - reflexivity.
  - reflexivity.
  - exists items. repeat split; try assumption.
    rewrite Hrun. cbn [ret snd fs].
    change ((splitext "tca/exported/P1.ppm").1 +:+ ".tca")
      with "tca/exported/P1.tca".
    apply lookup_insert_eq.
Defined.

(** ** Output that does not match *)

(** What [tca_correct] does with output of the wrong shape: it reports
    it and returns; nothing is written and nothing is raised. *)
Lemma tca_correct_no_match (E : env) (input_file original_file : string)
    (exif_data : exif) (complex_tca : bool) (w : world)
    (output errors : list Byte.byte) (decoded : string)
    (fs' : gmap string content) :
  let cmd := ["tca_correct"; "-o"; if complex_tca then "bv" else "v";
              input_file] in
  fs w !! ((splitext input_file).1 +:+ ".tca") = None ->
  run_process E cmd (fs w) = Exited 0 output errors fs' ->
  decode_ascii output = Ok decoded ->
  re_match tca_data (codes decoded) = None ->
  tca_correct E input_file original_file exif_data complex_tca w
  = (Ok tt,
     {| fs := fs';
        calls := calls w ++ [cmd];
        printed := printed w
                   ++ ["Running TCA corrections for " +:+ input_file +:+ " ..."]
                   ++ ["Could not find tca correction data"] |}).
Proof.
  intros cmd Habs Hrun Hdec Hno.
  unfold tca_correct.
  unfold mbind at 1, M_bind at 1.
  rewrite (path_exists_absent w _ Habs). cbn [negb].
  unfold mbind at 1, M_bind at 1, print at 1. cbn [fs calls printed].
  unfold mbind at 1, M_bind at 1, spawn at 1. cbn [fs calls printed].
  fold cmd. rewrite Hrun. cbn [Z.eqb negb].
  unfold mbind at 1, M_bind at 1, lift at 1. rewrite Hdec, Hno.
  unfold mbind, M_bind, print, ret. cbn [fs calls printed].
  now rewrite <- app_assoc.
Qed.




(* ===================================================================== *)
(** * Radial binning *)
(* ===================================================================== *)

Import Vignetting.

Lemma round_range (q : Q) (n : Z) :
  (0 <= q)%Q -> (q <= inject_Z n)%Q -> 0 <= round q <= n.
Proof.
  intros H0 Hn. unfold round.
  assert (Hf0 : 0 <= Qfloor q).
  { change 0 with (Qfloor (inject_Z 0)). now apply Qfloor_resp_le. }
  assert (Hfn : Qfloor q <= n).
  { rewrite <- (Qfloor_Z n). now apply Qfloor_resp_le. }
  assert (Hhalf : (1 # 2 <= q - inject_Z (Qfloor q))%Q -> Qfloor q + 1 <= n).
  { intros Hd.
    assert (Hlt : (inject_Z (Qfloor q) < inject_Z n)%Q) by lra.
    rewrite <- Zlt_Qlt in Hlt. lia. }
  destruct (Qcompare (q - inject_Z (Qfloor q)) (1 # 2)) eqn:Hc.
  - apply Qeq_alt in Hc. destruct (Z.even (Qfloor q)); [lia|].
    assert (Qfloor q + 1 <= n) by (apply Hhalf; lra). lia.
  - lia.
  - apply Qgt_alt in Hc.
    assert (Qfloor q + 1 <= n) by (apply Hhalf; lra). lia.
Qed.

Lemma bin_index_range (radius : Q) :
  in_unit_interval radius -> 0 <= bin_index radius <= 15.
Proof.
  intros [H0 H1]. unfold bin_index, maximal_radius, number_of_bins.
  change (inject_Z (Z.of_nat (16 - 1))) with (inject_Z 15).
  assert (Heq : (radius / 1 * inject_Z 15 == radius * 15)%Q).
  { change (inject_Z 15) with (15 # 1)%Q. field. }
  apply round_range; rewrite Heq.
  - lra.
  - change (inject_Z 15) with (15 # 1)%Q. lra.
Qed.

Lemma sum_lengths_insert (bins : list (list Q)) j bin v :
  bins !! j = Some bin ->
  sum_list (map length (<[j := bin ++ [v]]> bins))
  = S (sum_list (map length bins)).
Proof.
  revert j. induction bins as [|b bins IH]; intros [|j] H; try discriminate.
  - simpl in H. inversion H; subst. simpl. rewrite length_app. simpl. lia.
  - simpl in *. rewrite (IH j H). lia.
Qed.

Lemma members_cons i (s : Q * Q) samples :
  members i (s :: samples)
  = if bin_index s.1 =? Z.of_nat i then s.2 :: members i samples
    else members i samples.
Proof. unfold members. simpl. now destruct (_ =? _). Qed.

(** The loop over the samples, from any sixteen bins. *)
Lemma fill_from (samples : list (Q * Q)) :
  forall bins0 : list (list Q),
  length bins0 = 16%nat ->
  Forall (fun s => in_unit_interval s.1) samples ->
  exists bins,
    foldM (fun bins s => append_to_bin bins (bin_index s.1) s.2) bins0 samples
    = Ok bins
    /\ length bins = 16%nat
    /\ sum_list (map length bins)
       = (sum_list (map length bins0) + length samples)%nat
    /\ forall i bin0, bins0 !! i = Some bin0 ->
         bins !! i = Some (bin0 ++ members i samples).
Proof.
  induction samples as [|[radius v] samples IH]; intros bins0 Hlen Hall.
  - exists bins0. simpl. repeat split; try assumption; try lia.
    intros i bin0 H. now rewrite app_nil_r.
  - apply Forall_cons in Hall as [Hr Hall]. simpl in Hr.
    destruct (bin_index_range radius Hr) as [Hlo Hhi].
    set (j := Z.to_nat (bin_index radius)).
    assert (Hj : (j < length bins0)%nat) by lia.
    destruct (lookup_lt_is_Some_2 bins0 j Hj) as [bin Hbin].
    assert (Hstep : append_to_bin bins0 (bin_index radius) v
                    = Ok (<[j := bin ++ [v]]> bins0)).
    { unfold append_to_bin, norm_index. rewrite Hlen.
      destruct (Z.leb_spec 0 (bin_index radius)); [|lia].
      destruct (Z.ltb_spec (bin_index radius) (Z.of_nat 16)); [|lia].
      simpl. fold j. now rewrite Hbin. }
    destruct (IH (<[j := bin ++ [v]]> bins0)) as (bins & Hf & Hl & Hs & Hm);
      [now rewrite length_insert | assumption |].
    exists bins. simpl. rewrite Hstep. simpl. rewrite Hf.
    repeat split; [assumption | |].
    + rewrite Hs, (sum_lengths_insert bins0 j bin v Hbin). lia.
    + intros i bin0 Hi. rewrite members_cons. simpl.
      destruct (decide (i = j)) as [->|Hne].
      * rewrite Hbin in Hi. inversion Hi; subst bin0.
        destruct (Z.eqb_spec (bin_index radius) (Z.of_nat j)) as [_|Hneq];
          [|lia].
        rewrite (Hm j (bin ++ [v])).
        -- now rewrite <- app_assoc.
        -- now apply list_lookup_insert_eq.
      * destruct (Z.eqb_spec (bin_index radius) (Z.of_nat i)) as [Heq|_];
          [lia|].
        apply Hm. now rewrite list_lookup_insert_ne.
Qed.




(** Halves go to the even bin: radius 1/2 falls into bin 8, 1/30 into
    bin 0 and 1/10 into bin 2. *)
Example bin_index_halves :
  bin_index (1 # 2) = 8 /\ bin_index (1 # 30) = 0 /\ bin_index (1 # 10) = 2.
Proof. repeat split; reflexivity. Qed.

(** An empty bin has no median; a radius above 1 has no bin. *)
Example bin_samples_small :
  bin_samples [0; 1]%Q [7; 9]%Q
  = Ok (bin_radii,
        [Some 7%Q] ++ replicate 14 None ++ [Some 9%Q])
  /\ bin_samples [11 # 10]%Q [7]%Q = Err IndexError.
Proof. split; vm_compute; reflexivity. Qed.

(** The fitted model is the scale A at the optical centre. *)
Lemma fit_function_centre (A k1 k2 k3 : Q) :
  (fit_function 0 A k1 k2 k3 == A)%Q.
Proof. unfold fit_function. ring. Qed.

(* ===================================================================== *)
(** * Re-runs and the dispatch of the vignetting jobs *)
(* ===================================================================== *)

(** Unfold one step of a job whose first action is the test of the
    output artifact. *)
Ltac artifact_present H :=
  unfold mbind, M_bind; cbn [from_option id];
  rewrite (path_exists_present _ _ H); reflexivity.

Lemma convert_raw_for_distortion_present (E : env) w input_file sidecar_file out :
  is_Some (fs w !! out) ->
  convert_raw_for_distortion E input_file sidecar_file (Some out) w
  = (Ok (Some out), w).
Proof. intros H. unfold convert_raw_for_distortion. artifact_present H. Qed.

Lemma convert_raw_for_tca_present (E : env) w input_file sidecar_file out :
  is_Some (fs w !! out) ->
  convert_raw_for_tca E input_file sidecar_file (Some out) w = (Ok out, w).
Proof. intros H. unfold convert_raw_for_tca. artifact_present H. Qed.

Lemma convert_raw_for_vignetting_present (E : env) w input_file sidecar_file out :
  is_Some (fs w !! out) ->
  convert_raw_for_vignetting E input_file sidecar_file (Some out) w
  = (Ok out, w).
Proof. intros H. unfold convert_raw_for_vignetting. artifact_present H. Qed.

Lemma convert_ppm_for_vignetting_present (E : env) w input_file :
  is_Some (fs w !! ((splitext input_file).1 +:+ ".pgm")) ->
  convert_ppm_for_vignetting E input_file w
  = (Ok ((splitext input_file).1 +:+ ".pgm"), w).
Proof. intros H. unfold convert_ppm_for_vignetting. artifact_present H. Qed.

Lemma tca_correct_present (E : env) w input_file original_file exif_data complex_tca :
  is_Some (fs w !! ((splitext input_file).1 +:+ ".tca")) ->
  tca_correct E input_file original_file exif_data complex_tca w = (Ok tt, w).
Proof. intros H. unfold tca_correct. artifact_present H. Qed.

Lemma calculate_vignetting_present (E : env) w input_file original_file exif_data distance :
  is_Some (fs w !! ((splitext input_file).1 +:+ ".vig")) ->
  calculate_vignetting E input_file original_file exif_data distance w
  = (Ok tt, w).
Proof. intros H. unfold calculate_vignetting. artifact_present H. Qed.

Lemma create_distortion_correction_present (E : env) w export_path path filename sidecar_file :
  is_Some (fs w !! path_join (path_join path "exported")
                     ((splitext filename).1 +:+ ".tif")) ->
  create_distortion_correction E export_path path filename sidecar_file w
  = (Ok true, w).
Proof.
  intros H. unfold create_distortion_correction.
  unfold mbind, M_bind.
  now rewrite (convert_raw_for_distortion_present E w _ _ _ H).
Qed.

(** The whole vignetting job on a re-run: once the metadata is read
    (which asks exiftool for the crop factor each time), nothing else is
    started when the four artifacts of the image exist. *)
Lemma vignetting_job_rerun (E : env) w w1 exif_data
    export_path path filename sidecar_file distance :
  let input_file := path_join path filename in
  let stem := (splitext filename).1 in
  let ppm := path_join export_path (stem +:+ ".ppm") in
  image_read_exif E input_file w = (Ok exif_data, w1) ->
  is_Some (fs w1 !! ppm) ->
  is_Some (fs w1 !! ((splitext ppm).1 +:+ ".pgm")) ->
  is_Some (fs w1 !! ((splitext ((splitext ppm).1 +:+ ".pgm")).1 +:+ ".vig")) ->
  is_Some (fs w1 !! path_join export_path (stem +:+ ".jpg")) ->
  create_vignetting_correction E export_path path filename sidecar_file
    distance w
  = (Ok true,
     {| fs := fs w1; calls := calls w1;
        printed := printed w1 ++ ["Processing " +:+ input_file +:+ " ... "] |}).
Proof.
  intros input_file stem ppm Hexif Hppm Hpgm Hvig Hjpg.
  unfold create_vignetting_correction. fold input_file stem ppm.
  unfold mbind at 1, M_bind at 1. rewrite Hexif.
  unfold mbind at 1, M_bind at 1, print at 1.
  set (w2 := {| fs := fs w1; calls := calls w1; printed := _ |}).
  unfold mbind at 1, M_bind at 1.
  rewrite (convert_raw_for_vignetting_present E w2 _ _ _ Hppm).
  unfold mbind at 1, M_bind at 1.
  rewrite (convert_ppm_for_vignetting_present E w2 _ Hpgm).
  unfold mbind at 1, M_bind at 1.
  rewrite (calculate_vignetting_present E w2 _ _ _ _ Hvig).
  unfold mbind at 1, M_bind at 1.
  rewrite (convert_raw_for_vignetting_present E w2 _ _ _ Hjpg).
  reflexivity.
Qed.

(** ** What the metadata resolver starts *)

Lemma quiet_ret {A : Type} (a : A) : quiet (ret a).
Proof. intros w r w' H. inversion H; subst. now split. Qed.

Lemma quiet_raise {A : Type} e : quiet (@raise A e).
Proof. intros w r w' H. inversion H; subst. now split. Qed.

Lemma quiet_print line : quiet (print line).
Proof. intros w r w' H. inversion H; subst. now split. Qed.

Lemma quiet_bind {A B : Type} (m : M A) (f : A -> M B) :
  quiet m -> (forall a, quiet (f a)) -> quiet (m ≫= f).
Proof.
  intros Hm Hf w r w' H. unfold mbind, M_bind in H.
  destruct (m w) as [[a|e] w1] eqn:Hmw.
  - destruct (Hm _ _ _ Hmw) as [Hc Hs].
    destruct (Hf a _ _ _ H) as [Hc' Hs']. split; congruence.
  - inversion H; subst. exact (Hm _ _ _ Hmw).
Qed.

Lemma quiet_read_number data filename name :
  quiet (read_number data filename name).
Proof.
  unfold read_number. destruct (data !! name) as [t|].
  - destruct (number t); [apply quiet_ret | apply quiet_raise].
  - apply quiet_bind; [apply quiet_print | intros; apply quiet_ret].
Qed.

Lemma quiet_resolve_lens_maker data tag_list lens_maker :
  quiet (resolve_lens_maker data tag_list lens_maker).
Proof.
  revert lens_maker. induction tag_list as [|name tag_list IH]; intros lm; simpl.
  - apply quiet_ret.
  - destruct (data !! name); [apply quiet_ret|].
    apply quiet_bind; [apply quiet_print | intros; apply IH].
Qed.

(** The resolver starts exactly one process: exiftool on the image. *)
Lemma image_read_exif_calls (E : env) filename w x w1 :
  image_read_exif E filename w = (Ok x, w1) ->
  calls w1 = calls w ++ [["exiftool"; "-T"; "-scalefactor*"; filename]].
Proof.
  unfold image_read_exif. intros H.
  apply M_bind_ok in H as (data & w0 & Hd & H). inversion Hd; subst w0; clear Hd.
  apply M_bind_ok in H as (ar & w2 & H2 & H).
  assert (Hq2 : calls w2 = calls w).
  { destruct (data !! "Exif.OlympusIp.AspectRatio").
    - apply (quiet_ret _ _ _ _ H2).
    - eapply (quiet_bind _ _ (quiet_print _) (fun _ => quiet_ret _)). exact H2. }
  apply M_bind_ok in H as (fl & w3 & H3 & H).
  apply quiet_read_number in H3 as [Hq3 _].
  apply M_bind_ok in H as (ap & w4 & H4 & H).
  apply quiet_read_number in H4 as [Hq4 _].
  apply M_bind_ok in H as (u & w5 & H5 & H).
  assert (Hq5 : calls w5 = calls w4).
  { match type of H5 with
    | ?m _ = _ => assert (Hquiet : quiet m)
    end.
    { destruct (is_zero ap); [|apply quiet_ret].
      repeat (apply quiet_bind; [apply quiet_print | intros _]).
      apply quiet_print. }
    apply (Hquiet _ _ _ H5). }
  apply M_bind_ok in H as (cf & w6 & H6 & H).
  assert (Hq6 : calls w6
                = calls w5 ++ [["exiftool"; "-T"; "-scalefactor*"; filename]]).
  { unfold read_crop_factor in H6.
    apply M_bind_ok in H6 as (o & w5' & Hs & H6).
    unfold spawn in Hs. inversion Hs; subst o w5'; clear Hs.
    destruct (run_process E _ (fs w5)) as [|rc out errs fs'].
    - discriminate.
    - destruct (rc =? 0).
      + unfold lift in H6. inversion H6; subst. reflexivity.
      + apply M_bind_ok in H6 as (u' & w7 & Hp & H6).
        inversion Hp; subst. inversion H6; subst. reflexivity. }
  apply M_bind_ok in H as (lm & w7 & H7 & H).
  apply quiet_resolve_lens_maker in H7 as [Hq7 _].
  apply M_bind_ok in H as (mo & w8 & H8 & H).
  assert (Hq8 : calls w8 = calls w7).
  { destruct (bool_decide (lm = Some "[unknown}")).
    - eapply (quiet_bind _ _ (quiet_print _) (fun _ => quiet_ret _)). exact H8.
    - apply (quiet_ret _ _ _ _ H8). }
  inversion H; subst. congruence.
Qed.

(** The whole TCA job on a re-run. *)
Lemma tca_job_rerun (E : env) w w1 exif_data
    export_path path filename sidecar_file complex_tca :
  let input_file := path_join path filename in
  let ppm := path_join (path_join path "exported")
               ((splitext filename).1 +:+ ".ppm") in
  image_read_exif E input_file w = (Ok exif_data, w1) ->
  is_Some (fs w1 !! ppm) ->
  is_Some (fs w1 !! ((splitext ppm).1 +:+ ".tca")) ->
  create_tca_correction E export_path path filename sidecar_file complex_tca w
  = (Ok true,
     {| fs := fs w1; calls := calls w1;
        printed := printed w1 ++ ["Processing " +:+ input_file +:+ " ... "] |}).
Proof.
  intros input_file ppm Hexif Hppm Htca.
  unfold create_tca_correction. fold input_file ppm.
  unfold mbind at 1, M_bind at 1. rewrite Hexif.
  unfold mbind at 1, M_bind at 1, print at 1.
  set (w2 := {| fs := fs w1; calls := calls w1; printed := _ |}).
  unfold mbind at 1, M_bind at 1.
  rewrite (convert_raw_for_tca_present E w2 _ _ _ Hppm).
  unfold mbind at 1, M_bind at 1.
  rewrite (tca_correct_present E w2 _ _ _ _ Htca).
  reflexivity.
Qed.

(** C9 (as amended).  A step whose output artifact exists returns at
    once, in the state it started from: no process is started, the
    working tree and with it the artifact are unchanged, nothing is
    printed.  This holds for the conversion job of the distortion
    workflow and the other converters, for the vignetting analysis
    ([.vig]) and for the extractor ([.tca]).  A TCA or vignetting job
    whose artifacts all exist starts one process, the metadata query of
    [image_read_exif], and writes nothing. *)
Theorem existing_artifact_is_kept (E : env) (w : world) :
  (forall input_file sidecar_file out,
     is_Some (fs w !! out) ->
     convert_raw_for_distortion E input_file sidecar_file (Some out) w
     = (Ok (Some out), w))
  /\ (forall export_path path filename sidecar_file,
        is_Some (fs w !! path_join (path_join path "exported")
                           ((splitext filename).1 +:+ ".tif")) ->
        create_distortion_correction E export_path path filename sidecar_file w
        = (Ok true, w))
  /\ (forall input_file original_file exif_data distance,
        is_Some (fs w !! ((splitext input_file).1 +:+ ".vig")) ->
        calculate_vignetting E input_file original_file exif_data distance w
        = (Ok tt, w))
  /\ (forall input_file sidecar_file out,
        is_Some (fs w !! out) ->
        convert_raw_for_tca E input_file sidecar_file (Some out) w = (Ok out, w)
        /\ convert_raw_for_vignetting E input_file sidecar_file (Some out) w
           = (Ok out, w))
  /\ (forall input_file,
        is_Some (fs w !! ((splitext input_file).1 +:+ ".pgm")) ->
        convert_ppm_for_vignetting E input_file w
        = (Ok ((splitext input_file).1 +:+ ".pgm"), w))
  /\ (forall input_file original_file exif_data complex_tca,
        is_Some (fs w !! ((splitext input_file).1 +:+ ".tca")) ->
        tca_correct E input_file original_file exif_data complex_tca w
        = (Ok tt, w))
  /\ (forall export_path path filename sidecar_file distance exif_data w1,
        let input_file := path_join path filename in
        let stem := (splitext filename).1 in
        let ppm := path_join export_path (stem +:+ ".ppm") in
        image_read_exif E input_file w = (Ok exif_data, w1) ->
        is_Some (fs w1 !! ppm) ->
        is_Some (fs w1 !! ((splitext ppm).1 +:+ ".pgm")) ->
        is_Some (fs w1 !! ((splitext ((splitext ppm).1 +:+ ".pgm")).1
                           +:+ ".vig")) ->
        is_Some (fs w1 !! path_join export_path (stem +:+ ".jpg")) ->
        create_vignetting_correction E export_path path filename sidecar_file
          distance w
        = (Ok true,
           {| fs := fs w1;
              calls := calls w
                       ++ [["exiftool"; "-T"; "-scalefactor*"; input_file]];
              printed := printed w1
                         ++ ["Processing " +:+ input_file +:+ " ... "] |}))
  /\ (forall export_path path filename sidecar_file complex_tca exif_data w1,
        let input_file := path_join path filename in
        let ppm := path_join (path_join path "exported")
                     ((splitext filename).1 +:+ ".ppm") in
        image_read_exif E input_file w = (Ok exif_data, w1) ->
        is_Some (fs w1 !! ppm) ->
        is_Some (fs w1 !! ((splitext ppm).1 +:+ ".tca")) ->
        create_tca_correction E export_path path filename sidecar_file
          complex_tca w
        = (Ok true,
           {| fs := fs w1;
              calls := calls w
                       ++ [["exiftool"; "-T"; "-scalefactor*"; input_file]];
              printed := printed w1
                         ++ ["Processing " +:+ input_file +:+ " ... "] |})).
Proof.
  split; [intros; now apply convert_raw_for_distortion_present|].
  split; [intros; now apply create_distortion_correction_present|].
  split; [intros; now apply calculate_vignetting_present|].
  split.
  { intros; split;
      [now apply convert_raw_for_tca_present
      | now apply convert_raw_for_vignetting_present]. }
  split; [intros; now apply convert_ppm_for_vignetting_present|].
  split; [intros; now apply tca_correct_present|].
  split.
  - intros export_path path filename sidecar_file distance exif_data w1
      input_file stem ppm Hexif Hppm Hpgm Hvig Hjpg.
    rewrite <- (image_read_exif_calls E input_file w exif_data w1 Hexif).
    now apply (vignetting_job_rerun E w w1 exif_data).
  - intros export_path path filename sidecar_file complex_tca exif_data w1
      input_file ppm Hexif Hppm Htca.
    rewrite <- (image_read_exif_calls E input_file w exif_data w1 Hexif).
    now apply (tca_job_rerun E w w1 exif_data).
Qed.

Lemma existing_artifact_is_kept_witness :
  let w := vignetting_done in
  let r := calculate_vignetting (no_tools []) "vignetting/exported/P1.pgm"
             "vignetting/P1.ORF" sample_exif PInf w in
  is_Some (fs w !! "vignetting/exported/P1.vig")
  /\ r = (Ok tt, w)
  /\ calls r.2 = []
  /\ fs r.2 !! "vignetting/exported/P1.vig"
     = Some (Config "Standard" [("k1", "-0.3000000")]).
Proof.
  intros w r.
  assert (H : is_Some (fs w !! "vignetting/exported/P1.vig"))
    by (eexists; reflexivity).
  assert (Hr : r = (Ok tt, w)).
  { apply (proj1 (proj2 (proj2 (existing_artifact_is_kept (no_tools []) w)))).
    exact H. }
  split; [exact H|]. split; [exact Hr|]. rewrite Hr. split; reflexivity.
Defined.

(** C9 (as stated, refuted).  Re-running the vignetting job of
    [P1.ORF] over a tree where every artifact of the image exists still
    starts one external process, exiftool; the tree is unchanged. *)
Lemma vignetting_job_rerun_runs_exiftool :
  let r := create_vignetting_correction metadata_tool "vignetting/exported"
             "vignetting" "P1.ORF" "vignetting/exported/vignetting.xmp"
             PInf vignetting_done in
  is_Some (fs vignetting_done !! "vignetting/exported/P1.vig")
  /\ r.1 = Ok true
  /\ calls r.2 = [["exiftool"; "-T"; "-scalefactor*"; "vignetting/P1.ORF"]]
  /\ fs r.2 = fs vignetting_done.
Proof.
  intros r. split; [eexists; reflexivity|].
  repeat split; vm_compute; reflexivity.
Qed.

(** ** The submission loop of [run_vignetting] *)






(* ===================================================================== *)
(** * The two patterns: what they accept and what they capture *)
(* ===================================================================== *)

Import Matching.

(** ** The matcher returns readings of the pattern *)

Lemma rmatch_sound {A : Type} (r : regex) :
  forall st (k : mstate -> option A) a,
    rmatch r st k = Some a ->
    exists st', matches r st st' /\ k st' = Some a.
Proof.
  induction r as [| |p|r1 IH1 r2 IH2|r IH|i r IH]; intros st k a H; simpl in H.
  - exists st. split; [constructor | exact H].
  - destruct (pos st =? 0)%nat eqn:Hp; [|discriminate].
    exists st. split; [constructor; now apply Nat.eqb_eq | exact H].
  - destruct (rest st) as [|c l] eqn:Hr; [discriminate|].
    destruct (p c) eqn:Hc; [|discriminate].
    exists (advance st l). split; [now apply m_chr with c | exact H].
  - apply IH1 in H as (st1 & M1 & H). apply IH2 in H as (st2 & M2 & H).
    exists st2. split; [now apply m_seq with st1 | exact H].
  - remember (length (rest st)) as fuel eqn:Hf. clear Hf.
    revert st H. induction fuel as [|fuel IHf]; intros st H.
    + exists st. split; [constructor | exact H].
    + match type of H with
      | match ?m with _ => _ end = _ => destruct m as [a0|] eqn:Hm
      end.
      * injection H as ->.
        apply IH in Hm as (st1 & M1 & Hm).
        destruct (length (rest st1) <? length (rest st))%nat eqn:Hlt;
          [|discriminate].
        apply IHf in Hm as (st2 & M2 & Hm).
        exists st2. split; [|exact Hm].
        apply m_star_cons with st1; [exact M1 | now apply Nat.ltb_lt | exact M2].
      * exists st. split; [constructor | exact H].
  - apply IH in H as (st1 & M1 & H).
    exists (capture i st st1). split; [now constructor | exact H].
Qed.

Lemma matches_reads r st st' :
  matches r st st' -> exists w, reads st w st'.
Proof.
  induction 1 as [st|st Hp|p st c l Hr Hc|r1 r2 st st1 st2 _ [w1 [R1 P1]] _ [w2 [R2 P2]]
                 |r st|r st st1 st2 _ [w1 [R1 P1]] _ _ [w2 [R2 P2]]
                 |i r st st1 _ [w [R P]]].
  - exists []. split; simpl; [reflexivity | lia].
  - exists []. split; simpl; [reflexivity | lia].
  - exists [c]. split; simpl; [exact Hr | lia].
  - exists (w1 ++ w2). split.
    + rewrite R1, R2. now rewrite app_assoc.
    + rewrite P2, P1, length_app. lia.
  - exists []. split; simpl; [reflexivity | lia].
  - exists (w1 ++ w2). split.
    + rewrite R1, R2. now rewrite app_assoc.
    + rewrite P2, P1, length_app. lia.
  - exists w. split; simpl; [exact R | exact P].
Qed.

Lemma matches_nocap r st st' :
  matches r st st' -> nocap r = true -> caps st' = caps st.
Proof.
  induction 1; simpl; intros Hn; try reflexivity.
  - apply andb_true_iff in Hn as [H1 H2].
    rewrite IHmatches2, IHmatches1; auto.
  - rewrite IHmatches2, IHmatches1; auto.
  - discriminate.
Qed.

(** What a repeated character class reads. *)
Lemma matches_star_chr p st st' :
  matches (Star (Chr p)) st st' ->
  exists w, reads st w st' /\ forallb p w = true /\ caps st' = caps st.
Proof.
  intros H. remember (Star (Chr p)) as r eqn:Hr.
  induction H as [| | | |r st|r st st1 st2 M1 _ Hlt M2 IH|]; try discriminate.
  - exists []. repeat split; simpl; lia.
  - injection Hr as ->. specialize (IH eq_refl) as (w & [R P] & F & C).
    inversion M1 as [| |p' st0 c l Hrest Hc| | | |]; subst.
    exists (c :: w). repeat split; simpl in *.
    + rewrite Hrest. now rewrite R.
    + rewrite P. lia.
    + now rewrite Hc, F.
    + exact C.
Qed.

(** ** Forward runs of the matcher *)

Lemma rmatch_chr_ok {A : Type} p c l n cs (k : mstate -> option A) :
  p c = true ->
  rmatch (Chr p) (at_ n (c :: l) cs) k = k (at_ (S n) l cs).
Proof. intros H. simpl. now rewrite H. Qed.

Lemma rmatch_star_chr_ok {A : Type} p w l cs (k : mstate -> option A) a :
  forallb p w = true -> stops p l ->
  forall n, k (at_ (n + length w) l cs) = Some a ->
       rmatch (Star (Chr p)) (at_ n (w ++ l) cs) k = Some a.
Proof.
  intros Hw Hl. induction w as [|c w IH]; intros n Hk.
  - rewrite Nat.add_0_r in Hk. simpl.
    destruct l as [|c l]; simpl; [exact Hk|].
    simpl in Hl. now rewrite Hl.
  - simpl in Hw. apply andb_true_iff in Hw as [Hc Hw].
    specialize (IH Hw (S n)).
    simpl length in Hk. rewrite Nat.add_succ_r in Hk. specialize (IH Hk).
    change (rmatch (Star (Chr p)) (at_ n ((c :: w) ++ l) cs) k)
      with (match rmatch (Chr p) (at_ n (c :: w ++ l) cs)
                    (fun st1 =>
                       if (length (rest st1) <? length (c :: w ++ l))%nat
                       then rmatch (Star (Chr p)) st1 k else None) with
            | Some a => Some a
            | None => k (at_ n (c :: w ++ l) cs)
            end).
    rewrite rmatch_chr_ok by exact Hc. cbn [rest at_].
    destruct (Nat.ltb_spec (length (w ++ l)) (length (c :: w ++ l))) as [_|H];
      [|simpl in H; lia].
    now rewrite IH.
Qed.

Lemma rmatch_comments_skip {A : Type} l n cs (k : mstate -> option A) :
  stops comment_start l ->
  rmatch comments (at_ n l cs) k = k (at_ n l cs).
Proof.
  intros Hl. destruct l as [|c l]; [reflexivity|].
  simpl in Hl. apply orb_false_iff in Hl as [Hw Hc].
  unfold comments, one. cbn -[N.eqb ws]. now rewrite Hw, Hc.
Qed.

Lemma rmatch_trailer_skip {A : Type} l n cs (k : mstate -> option A) :
  stops comment_start l ->
  rmatch (Star (Seq (Star (Chr ws))
             (Seq (one 35) (Seq (Star (Chr dot)) (Seq (Chr crlf) (Chr ws))))))
         (at_ n l cs) k = k (at_ n l cs).
Proof.
  intros Hl. destruct l as [|c l]; [reflexivity|].
  simpl in Hl. apply orb_false_iff in Hl as [Hw Hc].
  unfold one. cbn -[N.eqb ws]. now rewrite Hw, Hc.
Qed.

Lemma ws_not_digit c : ws c = true -> digit c = false.
Proof.
  unfold ws, any_of. cbn [existsb]. rewrite !orb_true_iff.
  intros H. repeat destruct H as [H|H]; try discriminate;
    apply N.eqb_eq in H; subst; reflexivity.
Qed.

Lemma digit_not_comment c : digit c = true -> comment_start c = false.
Proof.
  unfold comment_start, ws, any_of, digit. cbn [existsb].
  intros H. apply andb_true_iff in H as [H1 H2].
  apply N.leb_le in H1, H2.
  repeat (apply orb_false_iff; split); try reflexivity; apply N.eqb_neq; lia.
Qed.

Lemma rmatch_digits_ok {A : Type} i d w l n cs (k : mstate -> option A) a :
  digit d = true -> forallb digit w = true -> stops digit l ->
  k (at_ (S (n + length w)) l ((i, d :: w) :: cs)) = Some a ->
  rmatch (Group i (Plus (Chr digit))) (at_ n (d :: w ++ l) cs) k = Some a.
Proof.
  intros Hd Hw Hl Hk.
  change (rmatch (Group i (Plus (Chr digit))) (at_ n (d :: w ++ l) cs) k)
    with (rmatch (Chr digit) (at_ n (d :: w ++ l) cs)
            (fun st1 => rmatch (Star (Chr digit)) st1
               (fun st2 => k (capture i (at_ n (d :: w ++ l) cs) st2)))).
  rewrite rmatch_chr_ok by exact Hd.
  apply rmatch_star_chr_ok; [exact Hw | exact Hl |].
  unfold capture. cbn [pos rest caps at_].
  replace (S n + length w - n)%nat with (length (d :: w)) by (simpl; lia).
  change (d :: w ++ l) with ((d :: w) ++ l).
  rewrite take_app_length. exact Hk.
Qed.

Lemma rmatch_header_later {A : Type} p s (k : mstate -> option A) :
  rmatch pgm_header (start (S p) s) k = None.
Proof. reflexivity. Qed.

Lemma search_from_eq r p s :
  search_from r p s
  = match rmatch r (start p s) Some with
    | Some st => Some st
    | None => match s with
              | [] => None
              | _ :: s' => search_from r (S p) s'
              end
    end.
Proof. destruct s; reflexivity. Qed.

Lemma search_header_later s : forall p, search_from pgm_header (S p) s = None.
Proof.
  induction s as [|c s IH]; intros p; rewrite search_from_eq;
    rewrite rmatch_header_later; [reflexivity | apply IH].
Qed.

(** The header pattern is anchored: the search finds it at the very
    beginning of the buffer or not at all. *)
Lemma search_header s : re_search pgm_header s = re_match pgm_header s.
Proof.
  unfold re_search, re_match.
  rewrite search_from_eq.
  destruct (rmatch pgm_header _ Some); [reflexivity|].
  destruct s as [|c s]; [reflexivity | apply search_header_later].
Qed.

Ltac inv_matches :=
  repeat match goal with
         | H : matches (Seq _ _) _ _ |- _ => inversion H; subst; clear H
         | H : matches (Group _ _) _ _ |- _ => inversion H; subst; clear H
         | H : matches (Chr _) _ _ |- _ => inversion H; subst; clear H
         | H : matches Bol _ _ |- _ => inversion H; subst; clear H
         | H : matches Eps _ _ |- _ => inversion H; subst; clear H
         end.

(** What a match of the header pattern looks like: the subject starts
    with the magic and one whitespace byte, and group 1 is what was read. *)
Lemma header_match s st :
  re_match pgm_header s = Some st ->
  exists c tail header,
    s = 80%N :: 53%N :: c :: tail /\ ws c = true
    /\ group (caps st) 1 = Some header
    /\ s = header ++ rest st.
Proof.
  unfold re_match. intros H.
  apply rmatch_sound in H as (st' & M & H). injection H as <-.
  unfold pgm_header in M.
  inversion M as [| | | | | |i r st0 st1 M1]; subst. clear M.
  destruct (matches_reads _ _ _ M1) as (w & R & P).
  cbn [rest pos start] in R, P.
  assert (Hs : exists c tail, s = 80%N :: 53%N :: c :: tail /\ ws c = true).
  { clear R P.
    inversion M1 as [| | |r1 r2 sa sb sc Mb M2| | |]; subst. clear M1.
    inversion Mb; subst. clear Mb.
    inversion M2 as [| | |r1 r2 sa sb sc Ml M3| | |]; subst. clear M2.
    inversion M3 as [| | |r1 r2 sa sb' sc Mw M4| | |]; subst. clear M3 M4.
    unfold codes, lit, one in Ml. cbn in Ml.
    inv_matches.
    repeat match goal with
           | H : rest _ = _ |- _ => cbn [rest start advance] in H
           | H : (_ =? _)%N = true |- _ => apply N.eqb_eq in H
           end.
    subst. eexists _, _. split; [reflexivity | assumption]. }
  destruct Hs as (c & tail & Hs & Hc).
  exists c, tail, w. split; [exact Hs|]. split; [exact Hc|].
  unfold capture. cbn [caps group Nat.eqb pos rest start].
  rewrite P, Nat.sub_0_r, Nat.add_0_l.
  split; [|exact R].
  f_equal. rewrite R. apply take_app_length.
Qed.

Lemma be_value_bound bs : (be_value bs < 256 ^ N.of_nat (length bs))%N.
Proof.
  unfold be_value.
  assert (H : forall acc,
    (fold_left (fun acc b => 256 * acc + Byte.to_N b) bs acc
     < (acc + 1) * 256 ^ N.of_nat (length bs))%N).
  { induction bs as [|b bs IH]; intros acc.
    - simpl. lia.
    - cbn [fold_left length]. eapply N.lt_le_trans; [apply IH|].
      rewrite Nat2N.inj_succ, N.pow_succ_r'.
      pose proof (Byte.to_N_bounded b).
      assert (0 < 256 ^ N.of_nat (length bs))%N by (apply N.neq_0_lt_0, N.pow_nonzero; lia).
      nia. }
  specialize (H 0%N). lia.
Qed.

Lemma sample_at_bound buf k offset i :
  (sample_at buf k offset i < 256 ^ N.of_nat k)%N.
Proof.
  unfold sample_at. eapply N.lt_le_trans; [apply be_value_bound|].
  apply N.pow_le_mono_r; [lia|]. rewrite length_take. lia.
Qed.

Lemma load_pgm_Ok filename buf img :
  load_pgm filename buf = Ok img ->
  exists header w h maxval,
    header_groups buf = Some (header, w, h, maxval)
    /\ dtype_of_maxval (int_of_digits maxval) = Some (sample_type img)
    /\ width img = N.to_nat (int_of_digits w)
    /\ height img = N.to_nat (int_of_digits h)
    /\ (length header + width img * height img * itemsize (sample_type img)
        <= length buf)%nat
    /\ rows img
       = reshape (height img) (width img)
           (map (sample_at buf (itemsize (sample_type img)) (length header))
                (seq 0 (width img * height img))).
Proof.
  unfold load_pgm, dtype_of_maxval.
  destruct (header_groups buf) as [[[[header w] h] maxval]|]; [|discriminate].
  cbv zeta. intros H. exists header, w, h, maxval.
  split; [reflexivity|].
  destruct (int_of_digits maxval =? 255)%N;
    [|destruct (int_of_digits maxval =? 65535)%N;
      [|destruct (int_of_digits maxval =? 4294967295)%N; [|discriminate]]];
    simpl in H;
    match type of H with
    | context [frombuffer ?b ?dt ?c ?o] =>
        destruct (frombuffer b dt c o) as [shape|e] eqn:Hf; [|discriminate];
        apply frombuffer_Ok in Hf as [-> Hlen]
    end;
    simpl in H; injection H as <-; cbn [width height sample_type rows];
    repeat split; exact Hlen.
Qed.

(** X1.  The raster returned by [load_pgm] is rectangular: it has [height]
    rows of [width] samples, and no sample exceeds what its width in
    bytes can hold. *)
Theorem load_pgm_shape (filename : string) (buf : list Byte.byte) (img : raster) :
  load_pgm filename buf = Ok img ->
  length (rows img) = height img
  /\ Forall (fun row => length row = width img) (rows img)
  /\ Forall (Forall (fun v =>
               (v < 256 ^ N.of_nat (itemsize (sample_type img)))%N))
            (rows img).
Proof.
  intros H. apply load_pgm_Ok in H as (header & w & h & maxval & _ & _ & _ & _ & _ & ->).
  unfold reshape. split; [now rewrite length_map, length_seq|].
  split; apply List.Forall_forall; intros row Hrow;
    apply in_map_iff in Hrow as (y & <- & Hy); apply in_seq in Hy.
  - rewrite length_take, length_drop, length_map, length_seq. nia.
  - apply List.Forall_forall. intros v Hv.
    apply list_elem_of_In, elem_of_take in Hv as (i & Hv & _).
    rewrite lookup_drop in Hv.
    apply list_elem_of_lookup_2, list_elem_of_In, in_map_iff in Hv as (j & <- & _).
    apply sample_at_bound.
Qed.

Lemma load_pgm_shape_witness :
  load_pgm "flat.pgm" (bytes_of "P5 2 1 255 ab")
  = Ok {| width := 2; height := 1; sample_type := UInt8;
          rows := [[97%N; 98%N]] |}
  /\ length [[97%N; 98%N]] = 1%nat.
Proof.
  split; [vm_compute; reflexivity|].
  exact (proj1 (load_pgm_shape "flat.pgm" (bytes_of "P5 2 1 255 ab")
                  {| width := 2; height := 1; sample_type := UInt8;
                     rows := [[97%N; 98%N]] |} eq_refl)).
Defined.

(** X2.  [load_pgm] accepts a buffer only if it begins with the magic [P5]
    and a whitespace byte; the pixel data are read from the end of the
    matched header, which is a prefix of the buffer, and lie inside the
    buffer. *)
Theorem load_pgm_magic (filename : string) (buf : list Byte.byte) (img : raster) :
  load_pgm filename buf = Ok img ->
  take 2 buf = bytes_of "P5"
  /\ (exists b, buf !! 2%nat = Some b /\ ws (Byte.to_N b) = true)
  /\ exists header data,
       buf = header ++ data
       /\ (width img * height img * itemsize (sample_type img)
           <= length data)%nat
       /\ rows img
          = reshape (height img) (width img)
              (map (sample_at data (itemsize (sample_type img)) 0)
                   (seq 0 (width img * height img))).
Proof.
  intros H.
  apply load_pgm_Ok in H as (header & w & h & maxval & Hg & _ & _ & _ & Hlen & Hrows).
  unfold header_groups in Hg. rewrite search_header in Hg.
  destruct (re_match pgm_header (map Byte.to_N buf)) as [st|] eqn:Hm;
    [|discriminate].
  apply header_match in Hm as (c & tail & hd & Hs & Hc & Hg1 & Hsplit).
  rewrite Hg1 in Hg.
  destruct (group (caps st) 2), (group (caps st) 3), (group (caps st) 4);
    try discriminate.
  injection Hg as -> -> -> ->.
  split; [|split].
  - destruct buf as [|b0 [|b1 buf]]; try discriminate.
    cbn [map] in Hs. injection Hs as H0 H1 _.
    apply Byte.to_of_N_iff in H0, H1. vm_compute in H0, H1.
    injection H0 as <-. injection H1 as <-. reflexivity.
  - destruct buf as [|b0 [|b1 [|b2 buf]]]; try discriminate.
    cbn [map] in Hs. injection Hs as _ _ H2 _.
    exists b2. split; [reflexivity | now rewrite H2].
  - exists (take (length header) buf), (drop (length header) buf).
    split; [now rewrite take_drop|].
    split; [rewrite length_drop; lia|].
    rewrite Hrows. f_equal. apply map_ext. intros i.
    unfold sample_at. now rewrite drop_drop.
Qed.

Lemma load_pgm_magic_witness :
  load_pgm "flat.pgm" (bytes_of "P5 2 1 255 ab")
  = Ok {| width := 2; height := 1; sample_type := UInt8;
          rows := [[97%N; 98%N]] |}
  /\ take 2 (bytes_of "P5 2 1 255 ab") = bytes_of "P5".
Proof.
  split; [vm_compute; reflexivity|].
  exact (proj1 (load_pgm_magic "flat.pgm" (bytes_of "P5 2 1 255 ab")
                  {| width := 2; height := 1; sample_type := UInt8;
                     rows := [[97%N; 98%N]] |} eq_refl)).
Defined.

Lemma rmatch_group_eq {A : Type} i r st (k : mstate -> option A) :
  rmatch (Group i r) st k = rmatch r st (fun st1 => k (capture i st st1)).
Proof. reflexivity. Qed.

Lemma rmatch_seq_eq {A : Type} r1 r2 st (k : mstate -> option A) :
  rmatch (Seq r1 r2) st k = rmatch r1 st (fun st1 => rmatch r2 st1 k).
Proof. reflexivity. Qed.

Lemma rmatch_eps_eq {A : Type} st (k : mstate -> option A) :
  rmatch Eps st k = k st.
Proof. reflexivity. Qed.

Lemma rmatch_one_ok {A : Type} c l n cs (k : mstate -> option A) :
  rmatch (one c) (at_ n (c :: l) cs) k = k (at_ (S n) l cs).
Proof. apply rmatch_chr_ok, N.eqb_refl. Qed.

(** A header without comment lines: the magic, and three numerals each
    introduced by one whitespace byte and followed by one. *)
Lemma plain_header_match c1 c2 c3 c4 dW W dH H dM M data :
  ws c1 = true -> ws c2 = true -> ws c3 = true -> ws c4 = true ->
  digit dW = true -> forallb digit W = true ->
  digit dH = true -> forallb digit H = true ->
  digit dM = true -> forallb digit M = true ->
  stops comment_start data ->
  let header :=
    80%N :: 53%N :: c1 :: dW :: W ++ c2 :: dH :: H ++ c3 :: dM :: M ++ [c4] in
  exists st,
    re_match pgm_header (header ++ data) = Some st
    /\ caps st = [(1%nat, header); (4%nat, dM :: M); (3%nat, dH :: H);
                  (2%nat, dW :: W)].
Proof.
  intros Hc1 Hc2 Hc3 Hc4 HdW HW HdH HH HdM HM Hdata header.
  assert (Hsubject :
    header ++ data
    = 80%N :: 53%N :: c1 :: dW :: W ++ c2 :: dH :: H ++ c3 :: dM :: M
        ++ c4 :: data).
  { unfold header. cbn [app]. do 4 f_equal.
    rewrite <- app_assoc. cbn [app]. do 3 f_equal.
    rewrite <- app_assoc. cbn [app]. do 3 f_equal.
    now rewrite <- app_assoc. }
  eexists. split.
  - unfold re_match, pgm_header.
    change (start 0 (header ++ data)) with (at_ 0 (header ++ data) []).
    rewrite rmatch_group_eq, rmatch_seq_eq.
    change (rmatch Bol (at_ 0 (header ++ data) []) ?k)
      with (k (at_ 0 (header ++ data) [])).
    cbv beta. rewrite rmatch_seq_eq.
    rewrite Hsubject at 1.
    change (lit (codes "P5")) with (Seq (one 80) (Seq (one 53) Eps)).
    rewrite rmatch_seq_eq, rmatch_one_ok, rmatch_seq_eq, rmatch_one_ok.
    rewrite rmatch_eps_eq.
    rewrite rmatch_seq_eq, rmatch_chr_ok by exact Hc1.
    rewrite rmatch_seq_eq, rmatch_comments_skip
      by (simpl; now apply digit_not_comment).
    rewrite rmatch_seq_eq.
    apply rmatch_digits_ok;
      [exact HdW | exact HW | simpl; now apply ws_not_digit |].
    rewrite rmatch_seq_eq, rmatch_chr_ok by exact Hc2.
    rewrite rmatch_seq_eq, rmatch_comments_skip
      by (simpl; now apply digit_not_comment).
    rewrite rmatch_seq_eq.
    apply rmatch_digits_ok;
      [exact HdH | exact HH | simpl; now apply ws_not_digit |].
    rewrite rmatch_seq_eq, rmatch_chr_ok by exact Hc3.
    rewrite rmatch_seq_eq, rmatch_comments_skip
      by (simpl; now apply digit_not_comment).
    rewrite rmatch_seq_eq.
    apply rmatch_digits_ok;
      [exact HdM | exact HM | simpl; now apply ws_not_digit |].
    rewrite rmatch_seq_eq, rmatch_chr_ok by exact Hc4.
    rewrite rmatch_trailer_skip by exact Hdata.
    reflexivity.
  - unfold capture. cbn [caps pos rest at_]. repeat f_equal.
    apply take_app_length'. unfold header. cbn [length].
    do 3 (rewrite ?length_app; cbn [length]). lia.
Qed.

(** X3.  A header without comment lines is accepted whatever the numerals
    are, provided the maximum value is one of the three known ones, the
    pixel data do not begin like a comment line, and the buffer holds
    all the samples; the raster is the pixel data, row by row. *)
Theorem load_pgm_plain_header (filename : string)
    (b1 b2 b3 b4 : Byte.byte) (w h m data : list Byte.byte) (dt : dtype) :
  blank b1 -> blank b2 -> blank b3 -> blank b4 ->
  numeral w -> numeral h -> numeral m ->
  dtype_of_maxval (int_of_digits (map Byte.to_N m)) = Some dt ->
  stops comment_start (map Byte.to_N data) ->
  (numeral_value w * numeral_value h * itemsize dt <= length data)%nat ->
  load_pgm filename (plain_header b1 w b2 h b3 m b4 ++ data)
  = Ok {| width := numeral_value w; height := numeral_value h;
          sample_type := dt;
          rows := reshape (numeral_value h) (numeral_value w)
                    (map (sample_at data (itemsize dt) 0)
                         (seq 0 (numeral_value w * numeral_value h))) |}.
Proof.
  intros B1 B2 B3 B4 [Nw Dw] [Nh Dh] [Nm Dm] Hdt Hdata Hlen.
  destruct w as [|dW W]; [congruence|].
  destruct h as [|dH H]; [congruence|].
  destruct m as [|dM M]; [congruence|].
  cbn [map forallb] in Dw, Dh, Dm.
  apply andb_true_iff in Dw as [HdW HW], Dh as [HdH HH], Dm as [HdM HM].
  destruct (plain_header_match _ _ _ _ _ _ _ _ _ _ _
              B1 B2 B3 B4 HdW HW HdH HH HdM HM Hdata) as (st & Hm & Hcaps).
  cbv zeta in Hm, Hcaps.
  set (header := plain_header b1 (dW :: W) b2 (dH :: H) b3 (dM :: M) b4).
  assert (Hmap : map Byte.to_N (header ++ data)
                 = (80%N :: 53%N :: Byte.to_N b1 :: Byte.to_N dW
                    :: map Byte.to_N W ++ Byte.to_N b2 :: Byte.to_N dH
                    :: map Byte.to_N H ++ Byte.to_N b3 :: Byte.to_N dM
                    :: map Byte.to_N M ++ [Byte.to_N b4])
                   ++ map Byte.to_N data).
  { unfold header, plain_header.
    change (bytes_of "P5") with [Byte.x50; Byte.x35].
    do 4 (rewrite ?map_app; cbn [map app]).
    change (Byte.to_N "P") with 80%N. change (Byte.to_N "5") with 53%N.
    rewrite <- !app_assoc. cbn [app]. reflexivity. }
  assert (Hhl : length (80%N :: 53%N :: Byte.to_N b1 :: Byte.to_N dW
                    :: map Byte.to_N W ++ Byte.to_N b2 :: Byte.to_N dH
                    :: map Byte.to_N H ++ Byte.to_N b3 :: Byte.to_N dM
                    :: map Byte.to_N M ++ [Byte.to_N b4])
                = length header).
  { apply (f_equal length) in Hmap. rewrite length_map, !length_app in Hmap.
    rewrite length_map in Hmap. lia. }
  unfold load_pgm, header_groups.
  rewrite search_header, Hmap, Hm, Hcaps. cbn [group Nat.eqb].
  rewrite Hhl. clear Hmap Hm Hcaps Hhl.
  fold (numeral_value (dW :: W)). fold (numeral_value (dH :: H)).
  change (Byte.to_N dM :: map Byte.to_N M) with (map Byte.to_N (dM :: M)).
  assert (Hbody :
    (shape ← frombuffer (header ++ data) dt
               (numeral_value (dW :: W) * numeral_value (dH :: H))
               (length header);
     Ok {| width := numeral_value (dW :: W);
           height := numeral_value (dH :: H); sample_type := dt;
           rows := reshape (numeral_value (dH :: H)) (numeral_value (dW :: W))
                     shape |})
    = Ok {| width := numeral_value (dW :: W);
            height := numeral_value (dH :: H); sample_type := dt;
            rows := reshape (numeral_value (dH :: H)) (numeral_value (dW :: W))
                      (map (sample_at data (itemsize dt) 0)
                         (seq 0 (numeral_value (dW :: W)
                                 * numeral_value (dH :: H)))) |}).
  { rewrite frombuffer_enough by (rewrite length_app; lia).
    unfold mbind, result_bind. do 3 f_equal. apply map_ext. intros i.
    unfold sample_at. now rewrite drop_app_add. }
  unfold dtype_of_maxval in Hdt.
  destruct (int_of_digits (map Byte.to_N (dM :: M)) =? 255)%N;
    [injection Hdt as <-; exact Hbody|].
  destruct (int_of_digits (map Byte.to_N (dM :: M)) =? 65535)%N;
    [injection Hdt as <-; exact Hbody|].
  destruct (int_of_digits (map Byte.to_N (dM :: M)) =? 4294967295)%N;
    [injection Hdt as <-; exact Hbody | discriminate].
Qed.

Lemma load_pgm_plain_header_witness :
  load_pgm "flat.pgm" (bytes_of "P5 2 1 255 ab")
  = Ok {| width := 2; height := 1; sample_type := UInt8;
          rows := [[97%N; 98%N]] |}.
Proof.
  refine (load_pgm_plain_header "flat.pgm" Byte.x20 Byte.x20 Byte.x20 Byte.x20
            (bytes_of "2") (bytes_of "1") (bytes_of "255") (bytes_of "ab")
            UInt8 _ _ _ _ _ _ _ _ _ _);
    try reflexivity; try (split; [discriminate | reflexivity]).
Defined.

Lemma matches_plus_chr p st st' :
  matches (Plus (Chr p)) st st' ->
  exists c w, reads st (c :: w) st' /\ p c = true /\ forallb p w = true
              /\ caps st' = caps st.
Proof.
  unfold Plus. intros H.
  inversion H as [| | |r1 r2 sa sb sc M1 M2| | |]; subst. clear H.
  inversion M1 as [| |p' st0 c l Hrest Hc| | | |]; subst. clear M1.
  apply matches_star_chr in M2 as (w & [R P] & F & C).
  cbn [rest pos caps advance] in R, P, C.
  exists c, w. unfold reads. cbn [length]. repeat split.
  - now rewrite Hrest, R.
  - rewrite P. lia.
  - exact Hc.
  - exact F.
  - exact C.
Qed.

(** One field of the TCA pattern captures a non-empty run of minus
    signs, dots and digits. *)
Lemma tca_field_match i st st' :
  matches (tca_field i) st st' ->
  exists t, caps st' = (i, t) :: caps st /\ decimal_field t.
Proof.
  unfold tca_field. intros H.
  inversion H as [| | |r1 r2 sa sb sc M1 M2| | |]; subst. clear H.
  apply matches_nocap in M1; [|reflexivity].
  inversion M2 as [| | |r1 r2 sa sb' sc M3 M4| | |]; subst. clear M2.
  apply matches_nocap in M3; [|reflexivity].
  inversion M4 as [| | | | | |j r sa sc M5]; subst. clear M4.
  apply matches_plus_chr in M5 as (c & w & [R P] & Hc & Hw & C).
  exists (c :: w). unfold capture. cbn [caps]. split.
  - rewrite C, M3, M1. do 2 f_equal.
    rewrite R, P. apply take_app_length'. lia.
  - split; [discriminate|]. cbn [forallb]. now rewrite Hc, Hw.
Qed.

Lemma tca_data_match s m :
  re_match tca_data s = Some m ->
  exists t1 t2 t3 t4,
    caps m = [(4%nat, t4); (3%nat, t3); (2%nat, t2); (1%nat, t1)]
    /\ decimal_field t1 /\ decimal_field t2
    /\ decimal_field t3 /\ decimal_field t4.
Proof.
  unfold re_match. intros H.
  apply rmatch_sound in H as (st' & M & H). injection H as <-.
  unfold tca_data in M.
  inversion M as [| | |r1 r2 sa s1 sc M0 M1| | |]; subst. clear M.
  apply matches_nocap in M0; [|reflexivity].
  inversion M1 as [| | |r1 r2 sa s2 sc F1 M2| | |]; subst. clear M1.
  apply tca_field_match in F1 as (t1 & C1 & D1).
  inversion M2 as [| | |r1 r2 sa s3 sc N1 M3| | |]; subst. clear M2.
  apply matches_nocap in N1; [|reflexivity].
  inversion M3 as [| | |r1 r2 sa s4 sc F2 M4| | |]; subst. clear M3.
  apply tca_field_match in F2 as (t2 & C2 & D2).
  inversion M4 as [| | |r1 r2 sa s5 sc N2 M5| | |]; subst. clear M4.
  apply matches_nocap in N2; [|reflexivity].
  inversion M5 as [| | |r1 r2 sa s6 sc F3 M6| | |]; subst. clear M5.
  apply tca_field_match in F3 as (t3 & C3 & D3).
  inversion M6 as [| | |r1 r2 sa s7 sc N3 F4| | |]; subst. clear M6.
  apply matches_nocap in N3; [|reflexivity].
  apply tca_field_match in F4 as (t4 & C4 & D4).
  exists t1, t2, t3, t4. split; [|tauto].
  rewrite C4, N3, C3, N2, C2, N1, C1, M0. reflexivity.
Qed.

(** X4.  Whatever the detector prints, the [.tca] artifact that [tca_correct]
    writes in the default mode holds, as br, vr, bb and vb, non-empty
    runs of minus signs, dots and digits; when the output does not match
    (or the raw text fails the check made on setting an option) the
    artifact is not written at all. *)
Theorem tca_artifact_fields (E : env) (input_file original_file : string)
    (exif_data : exif) (w : world) (output errors : list Byte.byte)
    (decoded : string) (fs' : gmap string content) :
  let tca_file := (splitext input_file).1 +:+ ".tca" in
  let cmd := ["tca_correct"; "-o"; "v"; input_file] in
  fs w !! tca_file = None ->
  run_process E cmd (fs w) = Exited 0 output errors fs' ->
  decode_ascii output = Ok decoded ->
  let after := (tca_correct E input_file original_file exif_data false w).2 in
  fs after = fs'
  \/ exists t1 t2 t3 t4,
       decimal_field t1 /\ decimal_field t2
       /\ decimal_field t3 /\ decimal_field t4
       /\ fs after
          = <[tca_file :=
                Config (lens_model exif_data)
                  (tca_items E exif_data false decoded
                     (text t1) (text t2) (text t3) (text t4))]> fs'.
Proof.
  intros tca_file cmd Habs Hrun Hdec after.
  destruct (re_match tca_data (codes decoded)) as [m|] eqn:Hm.
  - destruct (tca_data_match _ _ Hm) as (t1 & t2 & t3 & t4 & Hc & D1 & D2 & D3 & D4).
    assert (Hafter : after
      = ((lift (before_set decoded);;
          put tca_file
            (Config (lens_model exif_data)
               (tca_items E exif_data false decoded
                  (text t1) (text t2) (text t3) (text t4)));;
          ret tt)
           {| fs := fs'; calls := calls w ++ [cmd];
              printed := printed w
                         ++ ["Running TCA corrections for " +:+ input_file
                             +:+ " ..."] |}).2).
    { unfold after, tca_correct. fold tca_file.
      unfold mbind at 1, M_bind at 1.
      rewrite (path_exists_absent w tca_file Habs). cbn [negb].
      unfold mbind at 1, M_bind at 1, print at 1. cbn [fs calls printed].
      unfold mbind at 1, M_bind at 1, spawn at 1. cbn [fs calls printed].
      fold cmd. rewrite Hrun. cbn [Z.eqb negb].
      unfold mbind at 1, M_bind at 1, lift at 1. rewrite Hdec, Hm, Hc.
      cbn [group Nat.eqb str_group]. reflexivity. }
    rewrite Hafter. unfold mbind, M_bind, lift.
    destruct (before_set decoded) as [v|e]; [|now left].
    right. exists t1, t2, t3, t4. do 4 (split; [assumption|]).
    reflexivity.
  - left. unfold after.
    rewrite (tca_correct_no_match E input_file original_file exif_data false w
               output errors decoded fs' Habs Hrun Hdec Hm).
    reflexivity.
Qed.

Lemma tca_artifact_fields_witness :
  let after := (tca_correct (tca_tool tca_example) "tca/exported/P1.ppm"
                  "tca/P1.ORF" sample_exif false empty_world).2 in
  fs after = ∅
  \/ exists t1 t2 t3 t4,
       decimal_field t1 /\ decimal_field t2
       /\ decimal_field t3 /\ decimal_field t4
       /\ fs after
          = <["tca/exported/P1.tca" :=
                Config (lens_model sample_exif)
                  (tca_items (tca_tool tca_example) sample_exif false
                     tca_example (text t1) (text t2) (text t3) (text t4))]> ∅.
Proof.
  exact (tca_artifact_fields (tca_tool tca_example) "tca/exported/P1.ppm"
           "tca/P1.ORF" sample_exif empty_world
           (String.list_byte_of_string tca_example) [] tca_example ∅
           eq_refl eq_refl eq_refl).
Defined.

(* ===================================================================== *)
(** * Setting up, missing or failing tools, and the metadata resolver *)
(* ===================================================================== *)

Import Setup.

(** [write_sidecar_file] never overwrites: whatever a path holds before
    the call it holds afterwards; a free path receives the content and
    the call answers [True]; no other path changes, nothing is printed
    and no process is started. *)
Lemma write_sidecar_file_spec (sidecar_file content : string) (w : world) :
  let r := write_sidecar_file sidecar_file content w in
  (forall path x, fs w !! path = Some x -> fs r.2 !! path = Some x)
  /\ (fs w !! sidecar_file = None ->
      r.1 = Ok true /\ fs r.2 !! sidecar_file = Some (Text [content]))
  /\ (forall path, path <> sidecar_file -> fs r.2 !! path = fs w !! path)
  /\ (r.1 = Ok false <-> fs w !! sidecar_file = Some Directory)
  /\ calls r.2 = calls w /\ printed r.2 = printed w.
Proof.
  unfold write_sidecar_file, mbind, M_bind, is_file, is_dir.
  destruct (fs w !! sidecar_file) as [[b|t|sec items|]|] eqn:Hc; cbn [negb];
    try rewrite Hc; cbn [negb fst snd put ret fs calls printed];
    repeat split; try easy; try congruence.
  - intros path x Hx.
    destruct (decide (path = sidecar_file)) as [->|Hne]; [congruence|].
    now rewrite lookup_insert_ne.
  - apply lookup_insert_eq.
  - intros path Hne. now rewrite lookup_insert_ne.
Qed.

(** ** Jobs when the external tools are missing *)

Lemma darktable_missing (E : env) cmd w :
  run_process E cmd (fs w) = NotFound ->
  darktable E cmd w
  = (Ok false,
     {| fs := fs w; calls := calls w ++ [cmd];
        printed := printed w ++ ["Could not find darktable-cli"] |}).
Proof.
  intros H. unfold darktable.
  unfold mbind at 1, M_bind at 1, spawn at 1. rewrite H.
  reflexivity.
Qed.

(** X5.  With neither darktable-cli nor tca_correct installed the TCA job of
    an image still ends with the result [True]: both tools are reported
    as missing, nothing is raised and the working tree is left as the
    metadata query left it, so no image and no artifact exists. *)
Theorem tca_job_without_tools (E : env)
    (export_path path filename sidecar_file : string) (complex_tca : bool)
    (w w1 : world) (exif_data : exif) :
  let input_file := path_join path filename in
  let ppm := path_join (path_join path "exported")
               ((splitext filename).1 +:+ ".ppm") in
  let convert := ["darktable-cli"; input_file; sidecar_file; ppm;
                  "--core"; "--configdir"; mkdtemp E "lenscal_";
                  "--conf"; "plugins/lighttable/export/iccprofile=image";
                  "--conf"; "plugins/lighttable/export/style=none"] in
  let correct := ["tca_correct"; "-o"; if complex_tca then "bv" else "v"; ppm] in
  image_read_exif E input_file w = (Ok exif_data, w1) ->
  fs w1 !! ppm = None ->
  fs w1 !! ((splitext ppm).1 +:+ ".tca") = None ->
  run_process E convert (fs w1) = NotFound ->
  run_process E correct (fs w1) = NotFound ->
  create_tca_correction E export_path path filename sidecar_file complex_tca w
  = (Ok true,
     {| fs := fs w1;
        calls := calls w1 ++ [convert; correct];
        printed := printed w1
                   ++ ["Processing " +:+ input_file +:+ " ... ";
                       "Could not find darktable-cli";
                       "Running TCA corrections for " +:+ ppm +:+ " ...";
                       "Could not find tca_correct"] |}).
Proof.
  intros input_file ppm convert correct Hexif Hppm Htca Hconv Hcorr.
  unfold create_tca_correction. fold input_file ppm.
  unfold mbind at 1, M_bind at 1. rewrite Hexif.
  unfold mbind at 1, M_bind at 1, print at 1.
  set (w2 := {| fs := fs w1; calls := calls w1; printed := _ |}).
  unfold mbind at 1, M_bind at 1.
  unfold convert_raw_for_tca. cbn [default from_option id].
  unfold mbind at 1, M_bind at 1.
  rewrite (path_exists_absent w2 ppm Hppm). cbn [negb].
  unfold mbind at 1, M_bind at 1. unfold mbind at 1, M_bind at 1.
  fold convert. rewrite (darktable_missing E convert w2 Hconv).
  unfold ret at 1. unfold ret at 1.
  set (w3 := {| fs := fs w2; calls := _; printed := _ |}).
  unfold mbind at 1, M_bind at 1.
  unfold tca_correct.
  unfold mbind at 1, M_bind at 1.
  rewrite (path_exists_absent w3 _ Htca). cbn [negb].
  unfold mbind at 1, M_bind at 1, print at 1. cbn [fs calls printed].
  unfold mbind at 1, M_bind at 1, spawn at 1. cbn [fs calls printed].
  fold correct. change (fs w3) with (fs w1). rewrite Hcorr.
  unfold mbind, M_bind, print, ret. cbn [fs calls printed].
  unfold w3, w2. cbn [fs calls printed].
  rewrite <- !app_assoc. reflexivity.
Qed.

Lemma tca_job_without_tools_witness :
  let E := metadata_tool in
  let r1 := image_read_exif E "tca/P1.ORF" empty_world in
  let x := match r1.1 with Ok x => x | Err _ => sample_exif end in
  r1 = (Ok x, r1.2)
  /\ create_tca_correction E "tca/exported" "tca" "P1.ORF"
       "tca/exported/tca.xmp" false empty_world
     = (Ok true,
        {| fs := ∅;
           calls := calls r1.2
                    ++ [["darktable-cli"; "tca/P1.ORF"; "tca/exported/tca.xmp";
                         "tca/exported/P1.ppm"; "--core"; "--configdir";
                         "/tmp/lenscal_"; "--conf";
                         "plugins/lighttable/export/iccprofile=image"; "--conf";
                         "plugins/lighttable/export/style=none"];
                        ["tca_correct"; "-o"; "v"; "tca/exported/P1.ppm"]];
           printed := printed r1.2
                      ++ ["Processing tca/P1.ORF ... ";
                          "Could not find darktable-cli";
                          "Running TCA corrections for tca/exported/P1.ppm ...";
                          "Could not find tca_correct"] |}).
Proof.
  intros E r1 x.
  assert (H1 : r1 = (Ok x, r1.2)) by (vm_compute; reflexivity).
  split; [exact H1|].
  exact (tca_job_without_tools E "tca/exported" "tca" "P1.ORF"
           "tca/exported/tca.xmp" false empty_world r1.2 x
           H1 eq_refl eq_refl eq_refl eq_refl).
Defined.

(** X6.  With neither darktable-cli nor convert installed the vignetting job
    of an image does not end quietly: both tools are reported as
    missing, and the analysis then fails on opening the grayscale image
    that was never produced. *)
Theorem vignetting_job_without_tools (E : env)
    (export_path path filename sidecar_file : string) (distance : pyfloat)
    (w w1 : world) (exif_data : exif) :
  let input_file := path_join path filename in
  let ppm := path_join export_path ((splitext filename).1 +:+ ".ppm") in
  let pgm := (splitext ppm).1 +:+ ".pgm" in
  let convert := ["darktable-cli"; input_file; sidecar_file; ppm;
                  "--width"; "250";
                  "--core"; "--configdir"; mkdtemp E "lenscal_";
                  "--conf"; "plugins/lighttable/export/iccprofile=image";
                  "--conf"; "plugins/lighttable/export/style=none"] in
  let gray := ["convert"; "-colorspace"; "RGB"; ppm;
               "-set"; "colorspace"; "RGB"; pgm] in
  image_read_exif E input_file w = (Ok exif_data, w1) ->
  fs w1 !! ppm = None ->
  fs w1 !! pgm = None ->
  fs w1 !! ((splitext pgm).1 +:+ ".vig") = None ->
  run_process E convert (fs w1) = NotFound ->
  run_process E gray (fs w1) = NotFound ->
  create_vignetting_correction E export_path path filename sidecar_file
    distance w
  = (Err (FileNotFoundError pgm),
     {| fs := fs w1;
        calls := calls w1 ++ [convert; gray];
        printed := printed w1
                   ++ ["Processing " +:+ input_file +:+ " ... ";
                       "Could not find darktable-cli";
                       "Could not find convert";
                       "Generating vignetting data for " +:+ pgm +:+ " ... "] |}).
Proof.
  intros input_file ppm pgm convert gray Hexif Hppm Hpgm Hvig Hconv Hgray.
  unfold create_vignetting_correction. fold input_file ppm.
  unfold mbind at 1, M_bind at 1. rewrite Hexif.
  unfold mbind at 1, M_bind at 1, print at 1.
  set (w2 := {| fs := fs w1; calls := calls w1; printed := _ |}).
  unfold mbind at 1, M_bind at 1.
  unfold convert_raw_for_vignetting at 1. cbn [default from_option id].
  unfold mbind at 1, M_bind at 1.
  rewrite (path_exists_absent w2 ppm Hppm). cbn [negb].
  unfold mbind at 1, M_bind at 1. unfold mbind at 1, M_bind at 1.
  fold convert. rewrite (darktable_missing E convert w2 Hconv).
  unfold ret at 1. unfold ret at 1.
  set (w3 := {| fs := fs w2; calls := _; printed := _ |}).
  unfold mbind at 1, M_bind at 1.
  unfold convert_ppm_for_vignetting. fold pgm.
  unfold mbind at 1, M_bind at 1.
  rewrite (path_exists_absent w3 pgm Hpgm). cbn [negb].
  unfold mbind at 1, M_bind at 1.
  unfold mbind at 1, M_bind at 1, spawn at 1. cbn [fs calls printed].
  fold gray. change (fs w3) with (fs w1). rewrite Hgray.
  unfold print at 1. cbn [fs calls printed]. unfold ret at 1.
  set (w4 := {| fs := fs w1; calls := _; printed := _ |}).
  unfold mbind at 1, M_bind at 1.
  unfold calculate_vignetting.
  unfold mbind at 1, M_bind at 1.
  rewrite (path_exists_absent w4 _ Hvig).
  unfold mbind at 1, M_bind at 1, print at 1. cbn [fs calls printed].
  unfold mbind at 1, M_bind at 1, load_pgm_file at 1.
  unfold mbind at 1, M_bind at 1, read_bytes at 1. cbn [fs calls printed].
  change (fs w4) with (fs w1). rewrite Hpgm.
  unfold w4, w3, w2. cbn [fs calls printed].
  rewrite <- !app_assoc. reflexivity.
Qed.

Lemma vignetting_job_without_tools_witness :
  let E := metadata_tool in
  let r1 := image_read_exif E "vignetting/P1.ORF" empty_world in
  let x := match r1.1 with Ok x => x | Err _ => sample_exif end in
  r1 = (Ok x, r1.2)
  /\ (create_vignetting_correction E "vignetting/exported" "vignetting"
        "P1.ORF" "vignetting/exported/vignetting.xmp" PInf empty_world).1
     = Err (FileNotFoundError "vignetting/exported/P1.pgm").
Proof.
  intros E r1 x.
  assert (H1 : r1 = (Ok x, r1.2)) by (vm_compute; reflexivity).
  split; [exact H1|].
  rewrite (vignetting_job_without_tools E "vignetting/exported" "vignetting"
             "P1.ORF" "vignetting/exported/vignetting.xmp" PInf empty_world
             r1.2 x H1 eq_refl eq_refl eq_refl eq_refl eq_refl).
  reflexivity.
Defined.

(** ** A converter that fails *)

Lemma darktable_failed (E : env) cmd w rc output errors fs' :
  run_process E cmd (fs w) = Exited rc output errors fs' ->
  rc <> 0 ->
  darktable E cmd w
  = (Err (CalledProcessError cmd),
     {| fs := fs'; calls := calls w ++ [cmd];
        printed := printed w ++ [decode_text E (output ++ errors)] |}).
Proof.
  intros H Hrc. unfold darktable.
  unfold mbind at 1, M_bind at 1, spawn at 1. rewrite H.
  apply Z.eqb_neq in Hrc. rewrite Hrc. reflexivity.
Qed.

(** X7.  When darktable-cli exits with a non-zero code, each of the three
    converters prints the log of the tool and raises the error of the
    call again: the conversion is not retried, no result is returned. *)
Theorem converter_failure_raises (E : env)
    (input_file sidecar_file out : string) (w : world)
    (rc : Z) (output errors : list Byte.byte) (fs' : gmap string content) :
  let after cmd before :=
    {| fs := fs'; calls := calls w ++ [cmd];
       printed := printed w ++ before
                  ++ [decode_text E (output ++ errors)] |} in
  let tiff := ["darktable-cli"; input_file; sidecar_file; out;
               "--core"; "--configdir"; mkdtemp E "lenscal_";
               "--conf"; "plugins/lighttable/export/iccintent=0";
               "--conf"; "plugins/lighttable/export/iccprofile=sRGB";
               "--conf"; "plugins/lighttable/export/style=none";
               "--conf"; "plugins/imageio/format/tiff/bpp=16";
               "--conf"; "plugins/imageio/format/tiff/compress=5"] in
  let ppm := ["darktable-cli"; input_file; sidecar_file; out;
              "--core"; "--configdir"; mkdtemp E "lenscal_";
              "--conf"; "plugins/lighttable/export/iccprofile=image";
              "--conf"; "plugins/lighttable/export/style=none"] in
  let small := ["darktable-cli"; input_file; sidecar_file; out;
                "--width"; "250";
                "--core"; "--configdir"; mkdtemp E "lenscal_";
                "--conf"; "plugins/lighttable/export/iccprofile=image";
                "--conf"; "plugins/lighttable/export/style=none"] in
  fs w !! out = None ->
  rc <> 0 ->
  (run_process E tiff (fs w) = Exited rc output errors fs' ->
   convert_raw_for_distortion E input_file sidecar_file (Some out) w
   = (Err (CalledProcessError tiff),
      after tiff ["Converting " +:+ input_file +:+ " to " +:+ out +:+ " ..."]))
  /\ (run_process E ppm (fs w) = Exited rc output errors fs' ->
      convert_raw_for_tca E input_file sidecar_file (Some out) w
      = (Err (CalledProcessError ppm), after ppm []))
  /\ (run_process E small (fs w) = Exited rc output errors fs' ->
      convert_raw_for_vignetting E input_file sidecar_file (Some out) w
      = (Err (CalledProcessError small), after small [])).
Proof.
  intros after tiff ppm small Habs Hrc. split; [|split]; intros Hrun.
  - unfold convert_raw_for_distortion. cbn [default from_option id].
    unfold mbind at 1, M_bind at 1.
    rewrite (path_exists_absent w out Habs). cbn [negb].
    unfold mbind at 1, M_bind at 1, print at 1.
    set (w2 := {| fs := fs w; calls := calls w; printed := _ |}).
    unfold mbind at 1, M_bind at 1. fold tiff.
    rewrite (darktable_failed E tiff w2 rc output errors fs' Hrun Hrc).
    unfold after, w2. cbn [fs calls printed]. now rewrite <- app_assoc.
  - unfold convert_raw_for_tca. cbn [default from_option id].
    unfold mbind at 1, M_bind at 1.
    rewrite (path_exists_absent w out Habs). cbn [negb].
    unfold mbind at 1, M_bind at 1. unfold mbind at 1, M_bind at 1.
    fold ppm.
    rewrite (darktable_failed E ppm _ rc output errors fs' Hrun Hrc).
    reflexivity.
  - unfold convert_raw_for_vignetting. cbn [default from_option id].
    unfold mbind at 1, M_bind at 1.
    rewrite (path_exists_absent w out Habs). cbn [negb].
    unfold mbind at 1, M_bind at 1. unfold mbind at 1, M_bind at 1.
    fold small.
    rewrite (darktable_failed E small _ rc output errors fs' Hrun Hrc).
    reflexivity.
Qed.

(** ** [init] *)






(** The export directory and the sidecar at the head of a run: what
    exists is kept, and only these two paths can change. *)
Lemma export_setup_spec {A : Type} (export_path sidecar_file content : string)
    (failed : A) (k : M A) (w : world) :
  (forall w0 : world, k w0 = ((k w0).1, w0)) ->
  exists res w',
    (exported ← is_dir export_path;
     (if negb exported then mkdir export_path else ret tt);;
     written ← write_sidecar_file sidecar_file content;
     if negb written then
       print ("Failed to write sidecar_file: " +:+ sidecar_file);; ret failed
     else k) w = (res, w')
    /\ calls w' = calls w
    /\ (forall path x, fs w !! path = Some x -> fs w' !! path = Some x)
    /\ (forall path, path <> export_path -> path <> sidecar_file ->
                     fs w' !! path = fs w !! path).
Proof.
  intros Hk.
  assert (Htail : forall w1 : world,
    exists res w',
      (written ← write_sidecar_file sidecar_file content;
       if negb written then
         print ("Failed to write sidecar_file: " +:+ sidecar_file);;
         ret failed
       else k) w1 = (res, w')
      /\ calls w' = calls w1
      /\ (forall path x, fs w1 !! path = Some x -> fs w' !! path = Some x)
      /\ (forall path, path <> sidecar_file -> fs w' !! path = fs w1 !! path)).
  { intros w1.
    destruct (write_sidecar_file_spec sidecar_file content w1)
      as (Hkeep & _ & Hother & _ & Hc & _).
    unfold mbind at 1, M_bind at 1.
    destruct (write_sidecar_file sidecar_file content w1) as [[b|e] w2];
      cbn [fst snd] in Hkeep, Hother, Hc.
    - destruct b; cbn [negb].
      + pose proof (Hk w2) as Hk2.
        destruct (k w2) as [ra wk]. cbn [fst] in Hk2.
        injection Hk2 as ->.
        eexists _, _. split; [reflexivity|]. auto.
      + unfold mbind, M_bind, print, ret.
        eexists _, _. split; [reflexivity|]. cbn [fs calls]. auto.
    - eexists _, _. split; [reflexivity|]. auto. }
  unfold mbind at 1, M_bind at 1, is_dir at 1.
  destruct (fs w !! export_path) as [c|] eqn:He.
  - assert (Hskip :
      forall m : M A,
        ((if negb match c with Directory => true | _ => false end
          then mkdir export_path else ret tt) ≫= (fun _ => m)) w
        = m w \/
        ((if negb match c with Directory => true | _ => false end
          then mkdir export_path else ret tt) ≫= (fun _ => m)) w
        = (Err (FileExistsError export_path), w)).
    { intros m. unfold mbind, M_bind, mkdir, ret.
      destruct c; cbn [negb]; rewrite ?He; auto. }
    match goal with
    | |- context [(_ ≫= (fun _ => ?m)) w] => destruct (Hskip m) as [-> | ->]
    end.
    + destruct (Htail w) as (res & w' & Hrun & H1 & H2 & H3).
      exists res, w'. repeat split; auto.
    + eexists _, _. split; [reflexivity|]. auto.
  - cbn [negb]. unfold mbind at 1, M_bind at 1, mkdir at 1. rewrite He.
    unfold put at 1.
    set (w1 := {| fs := <[export_path := Directory]> (fs w);
                  calls := calls w; printed := printed w |}).
    destruct (Htail w1) as (res & w' & Hrun & H1 & H2 & H3).
    exists res, w'. split; [exact Hrun|].
    split; [exact H1|]. split.
    + intros path x Hx. apply H2. unfold w1. cbn [fs].
      destruct (decide (path = export_path)) as [->|Hne]; [congruence|].
      now rewrite lookup_insert_ne.
    + intros path Hp Hs. rewrite H3 by exact Hs.
      unfold w1. cbn [fs]. now rewrite lookup_insert_ne.
Qed.

(** X10.  Up to the submission of the jobs, [run_vignetting] and [run_tca]
    start no process and replace nothing: every path of the working tree
    keeps what it holds, and the only paths that can appear are the
    export directory and the sidecar file of the step. *)
Theorem runs_keep_the_tree (E : env) (sidecar : string) (complex_tca : bool)
    (w : world) :
  (exists jobs w',
     run_vignetting E sidecar w = (jobs, w')
     /\ calls w' = calls w
     /\ (forall path x, fs w !! path = Some x -> fs w' !! path = Some x)
     /\ (forall path,
           path <> "vignetting/exported" ->
           path <> "vignetting/exported/vignetting.xmp" ->
           fs w' !! path = fs w !! path))
  /\ (exists jobs w',
        run_tca E sidecar complex_tca w = (jobs, w')
        /\ calls w' = calls w
        /\ (forall path x, fs w !! path = Some x -> fs w' !! path = Some x)
        /\ (forall path,
              path <> "tca/exported" -> path <> "tca/exported/tca.xmp" ->
              fs w' !! path = fs w !! path)).
Proof.
  split.
  - unfold run_vignetting.
    change (path_join "vignetting" "exported") with "vignetting/exported".
    change (path_join "vignetting/exported" "vignetting.xmp")
      with "vignetting/exported/vignetting.xmp".
    unfold mbind at 1, M_bind at 1, is_dir at 1.
    destruct (match fs w !! "vignetting" with
              | Some Directory => true
              | _ => false
              end); cbn [negb].
    + apply export_setup_spec. intros w0. reflexivity.
    + unfold mbind, M_bind, print, ret. eexists _, _.
      split; [reflexivity|]. cbn [fs calls]. auto.
  - unfold run_tca.
    change (path_join "tca" "exported") with "tca/exported".
    change (path_join "tca/exported" "tca.xmp") with "tca/exported/tca.xmp".
    unfold mbind at 1, M_bind at 1.
    set (w1 := {| fs := fs w; calls := calls w;
                  printed := printed w
                    ++ [match which E "tca_correct" with
                        | Some exec_path =>
                            "path to executable 'tca_correct': " +:+ exec_path
                        | None => "no executable found for command 'tca_correct'"
                        end] |}).
    assert (Hfirst :
      match which E "tca_correct" with
      | Some exec_path =>
          print ("path to executable 'tca_correct': " +:+ exec_path)
      | None => print "no executable found for command 'tca_correct'"
      end w = (Ok tt, w1)).
    { unfold w1. destruct (which E "tca_correct"); reflexivity. }
    rewrite Hfirst.
    unfold mbind at 1, M_bind at 1, is_dir at 1.
    change (fs w1) with (fs w).
    destruct (match fs w !! "tca" with
              | Some Directory => true
              | _ => false
              end); cbn [negb].
    + apply (export_setup_spec "tca/exported" "tca/exported/tca.xmp" sidecar
               [] _ w1).
      intros w0. reflexivity.
    + unfold mbind, M_bind, print, ret. eexists _, _.
      split; [reflexivity|]. cbn [fs calls]. auto.
Qed.

(** ** The metadata resolver and exiftool *)

Lemma steady_ret {A : Type} (a : A) : steady (ret a).
Proof. intros w. exists a, w. now repeat split. Qed.

Lemma steady_print line : steady (print line).
Proof. intros w. eexists tt, _. now repeat split. Qed.

Lemma steady_bind {A B : Type} (m : M A) (f : A -> M B) :
  steady m -> (forall a, steady (f a)) -> steady (m ≫= f).
Proof.
  intros Hm Hf w. destruct (Hm w) as (a & w1 & Hrun & Hfs & Hc).
  destruct (Hf a w1) as (b & w2 & Hrun' & Hfs' & Hc').
  exists b, w2. unfold mbind, M_bind. rewrite Hrun.
  split; [exact Hrun'|]. split; congruence.
Qed.

Lemma steady_read_number data filename name :
  (forall t, data !! name = Some t -> is_Some (number t)) ->
  steady (read_number data filename name).
Proof.
  intros H. unfold read_number. destruct (data !! name) as [t|].
  - destruct (H t eq_refl) as [x ->]. apply steady_ret.
  - apply steady_bind; [apply steady_print | intros; apply steady_ret].
Qed.

Lemma steady_resolve_lens_maker data tag_list lens_maker :
  steady (resolve_lens_maker data tag_list lens_maker).
Proof.
  revert lens_maker. induction tag_list as [|name tag_list IH]; intros lm; simpl.
  - apply steady_ret.
  - destruct (data !! name); [apply steady_ret|].
    apply steady_bind; [apply steady_print | intros; apply IH].
Qed.

(** Run a steady step at the head of a job. *)
Ltac steady_step H a w' Hfs Hc :=
  match goal with
  | |- context [(?m ≫= ?f) ?w] =>
      let Hrun := fresh "Hrun" in
      destruct (H w) as (a & w' & Hrun & Hfs & Hc);
      unfold mbind at 1, M_bind at 1; rewrite Hrun; clear Hrun
  end.

(** X11.  The crop factor is what exiftool says.  When the metadata of the
    file can be read (and the focal length and the aperture, if present,
    are numbers): a missing exiftool makes [image_read_exif] raise; an
    exiftool that fails is reported and gives the crop factor 0.0, the
    resolver returning normally; and the output of a successful exiftool
    is decoded as JSON, a decoding error being raised. *)
Theorem crop_factor_from_exiftool (E : env) (filename : string) (w : world)
    (data : gmap string tag) :
  read_metadata E filename (fs w) = Ok data ->
  (forall t, data !! "Exif.Photo.FocalLength" = Some t -> is_Some (number t)) ->
  (forall t, data !! "Exif.Photo.FNumber" = Some t -> is_Some (number t)) ->
  exists r w',
    image_read_exif E filename w = (r, w')
    /\ calls w' = calls w ++ [["exiftool"; "-T"; "-scalefactor*"; filename]]
    /\ match run_process E ["exiftool"; "-T"; "-scalefactor*"; filename] (fs w) with
       | NotFound => r = Err (FileNotFoundError "exiftool") /\ fs w' = fs w
       | Exited returncode output errors fs' =>
           fs w' = fs'
           /\ if returncode =? 0 then
                match json_loads E output with
                | Ok v => exists x, r = Ok x /\ crop_factor x = v
                | Err e => r = Err e
                end
              else
                exists x, r = Ok x /\ crop_factor x = PyFloat (Fin 0)
       end.
Proof.
  intros Hdata Hfl Hap. unfold image_read_exif.
  unfold mbind at 1, M_bind at 1. rewrite Hdata.
  assert (H2 : steady
    match data !! "Exif.OlympusIp.AspectRatio" with
    | Some t => ret (Some (human_value t))
    | None => print (filename +:+ "  has no exif available");; ret None
    end).
  { destruct (data !! "Exif.OlympusIp.AspectRatio"); [apply steady_ret|].
    apply steady_bind; [apply steady_print | intros; apply steady_ret]. }
  steady_step H2 ar w2 Hfs2 Hc2.
  steady_step (steady_read_number data filename _ Hfl) v_fl w3 Hfs3 Hc3.
  steady_step (steady_read_number data filename _ Hap) v_ap w4 Hfs4 Hc4.
  match goal with
  | |- context [@mbind M M_bind _ _ _ ?m w4] => assert (H5 : steady m)
  end.
  { destruct (is_zero v_ap); [|apply steady_ret].
    repeat (apply steady_bind; [apply steady_print | intros _]).
    apply steady_print. }
  steady_step H5 u w5 Hfs5 Hc5.
  assert (Hfs : fs w5 = fs w) by congruence.
  assert (Hc : calls w5 = calls w) by congruence.
  clear Hfs2 Hc2 Hfs3 Hc3 Hfs4 Hc4 Hfs5 Hc5 H2 H5.
  assert (Htail : forall (cf : pyobj) (w6 : world),
    exists x w',
      (lens_maker ←
         resolve_lens_maker data
           ["Exif.Photo.LensModel"; "Exif.OlympusEq.LensType"] None;
       mount ←
         (if bool_decide (lens_maker = Some "[unknown}") then
            print "no exif available";; ret (Some "[unknown]")
          else
            let mount := None in
            let mount :=
              if bool_decide (lens_maker = Some "Olympus Zuiko Digital")
              then Some "4/3 System" else mount in
            let mount :=
              if bool_decide (lens_maker = Some "Olympus Zuiko OM System")
              then Some "Olympus OM" else mount in
            ret mount);
       ret {| lens_model := resolve_lens_model data; focal_length := v_fl;
              aperture := v_ap; aspect_ratio := ar;
              crop_factor := cf; lens_maker := lens_maker;
              mount := mount |}) w6 = (Ok x, w')
      /\ crop_factor x = cf /\ fs w' = fs w6 /\ calls w' = calls w6).
  { intros cf w6.
    steady_step (steady_resolve_lens_maker data
                   ["Exif.Photo.LensModel"; "Exif.OlympusEq.LensType"] None)
                lm w7 Hfs7 Hc7.
    match goal with
    | |- context [@mbind M M_bind _ _ _ ?m w7] => assert (H8 : steady m)
    end.
    { destruct (bool_decide (lm = Some "[unknown}")); [|apply steady_ret].
      apply steady_bind; [apply steady_print | intros; apply steady_ret]. }
    steady_step H8 mo w8 Hfs8 Hc8.
    eexists _, w8. split; [reflexivity|]. cbn [crop_factor].
    split; [reflexivity|]. split; congruence. }
  unfold mbind at 1, M_bind at 1, read_crop_factor at 1.
  unfold mbind at 1, M_bind at 1, spawn at 1. rewrite Hfs.
  destruct (run_process E ["exiftool"; "-T"; "-scalefactor*"; filename] (fs w))
    as [|rc output errors fs'].
  - unfold raise. eexists _, _. split; [reflexivity|]. cbn [fs calls].
    rewrite Hc. auto.
  - destruct (rc =? 0).
    + unfold lift. destruct (json_loads E output) as [v|e].
      * match goal with
        | |- context [_ ?w6 = _] =>
            destruct (Htail v w6) as (x & w' & Hrun & Hcf & Hfs' & Hc')
        end.
        exists (Ok x), w'. split; [exact Hrun|].
        rewrite Hc', Hfs'. cbn [fs calls]. rewrite Hc.
        split; [reflexivity|]. split; [reflexivity|]. now exists x.
      * eexists _, _. split; [reflexivity|]. cbn [fs calls]. rewrite Hc. auto.
    + unfold mbind at 1, M_bind at 1, print at 1. cbn [fs calls printed].
      unfold ret at 1.
      match goal with
      | |- context [_ ?w6 = _] =>
          destruct (Htail (PyFloat (Fin 0)) w6) as (x & w' & Hrun & Hcf & Hfs' & Hc')
      end.
      exists (Ok x), w'. split; [exact Hrun|].
      rewrite Hc', Hfs'. cbn [fs calls]. rewrite Hc.
      split; [reflexivity|]. split; [reflexivity|]. now exists x.
Qed.

Lemma crop_factor_from_exiftool_witness :
  exists r w',
    image_read_exif metadata_tool "tca/P1.ORF" empty_world = (r, w')
    /\ calls w' = [["exiftool"; "-T"; "-scalefactor*"; "tca/P1.ORF"]]
    /\ fs w' = ∅
    /\ exists x, r = Ok x /\ crop_factor x = PyFloat (Fin 2).
Proof.
  apply (crop_factor_from_exiftool metadata_tool "tca/P1.ORF" empty_world ∅).
  - reflexivity.
  - intros t H. discriminate.
  - intros t H. discriminate.
Defined.

(** X12.  The mount of the record follows from its lens maker alone: the two
    Olympus makers give their mounts, the maker written for a lens tag
    that reads [None] gives the mount [[unknown]], and every other maker
    leaves the mount unset ([None]).  An image with neither lens tag gets
    the maker [[unknown]], which is not the maker the mount test looks
    for, so its mount is unset. *)
Theorem mount_follows_lens_maker (E : env) (filename : string) (w w' : world)
    (x : exif) (data : gmap string tag) :
  image_read_exif E filename w = (Ok x, w') ->
  read_metadata E filename (fs w) = Ok data ->
  exists maker,
    lens_maker x = Some maker
    /\ mount x
       = (if String.eqb maker "[unknown}" then Some "[unknown]"
          else if String.eqb maker "Olympus Zuiko OM System"
               then Some "Olympus OM"
          else if String.eqb maker "Olympus Zuiko Digital"
               then Some "4/3 System"
          else None)
    /\ (data !! "Exif.Photo.LensModel" = None ->
        data !! "Exif.OlympusEq.LensType" = None ->
        maker = "[unknown]" /\ mount x = None).
Proof.
  unfold image_read_exif. intros H Hdata.
  apply M_bind_ok in H as (data' & w1 & Hd & H).
  inversion Hd as [[Hd' Hw1]]. rewrite Hdata in Hd'. injection Hd' as <-.
  clear Hd Hw1.
  apply M_bind_ok in H as (ar & w2 & _ & H).
  apply M_bind_ok in H as (v_fl & w3 & _ & H).
  apply M_bind_ok in H as (v_ap & w4 & _ & H).
  apply M_bind_ok in H as (u & w5 & _ & H).
  apply M_bind_ok in H as (cf & w6 & _ & H).
  apply M_bind_ok in H as (lm & w7 & H7 & H).
  apply M_bind_ok in H as (mo & w8 & H8 & H).
  inversion H; subst x w'. clear H. cbn [lens_maker mount].
  assert (Hlm : exists maker,
    lm = Some maker
    /\ (data !! "Exif.Photo.LensModel" = None ->
        data !! "Exif.OlympusEq.LensType" = None -> maker = "[unknown]")).
  { cbn [resolve_lens_maker] in H7.
    destruct (data !! "Exif.Photo.LensModel") as [t|].
    - inversion H7. eexists. split; [reflexivity | discriminate].
    - apply M_bind_ok in H7 as (u1 & w71 & _ & H7).
      destruct (data !! "Exif.OlympusEq.LensType") as [t|].
      + inversion H7. eexists. split; [reflexivity | discriminate].
      + apply M_bind_ok in H7 as (u2 & w72 & _ & H7).
        inversion H7. exists "[unknown]". auto. }
  destruct Hlm as (maker & -> & Hnone).
  exists maker. split; [reflexivity|].
  assert (Hmo : mo = (if String.eqb maker "[unknown}" then Some "[unknown]"
          else if String.eqb maker "Olympus Zuiko OM System"
               then Some "Olympus OM"
          else if String.eqb maker "Olympus Zuiko Digital"
               then Some "4/3 System"
          else None)).
  { destruct (String.eqb_spec maker "[unknown}") as [->|Hn1].
    - rewrite bool_decide_eq_true_2 in H8 by reflexivity.
      apply M_bind_ok in H8 as (u1 & w81 & _ & H8). now inversion H8.
    - rewrite bool_decide_eq_false_2 in H8 by congruence.
      cbv zeta in H8.
      destruct (String.eqb_spec maker "Olympus Zuiko OM System") as [->|Hn2].
      + rewrite bool_decide_eq_true_2 in H8 by reflexivity. now inversion H8.
      + rewrite (bool_decide_eq_false_2
                   (Some maker = Some "Olympus Zuiko OM System")) in H8
          by congruence.
        destruct (String.eqb_spec maker "Olympus Zuiko Digital") as [->|Hn3].
        * rewrite bool_decide_eq_true_2 in H8 by reflexivity. now inversion H8.
        * rewrite bool_decide_eq_false_2 in H8 by congruence.
          now inversion H8. }
  split; [exact Hmo|].
  intros Ha Hb. specialize (Hnone Ha Hb). subst maker.
  split; [reflexivity | exact Hmo].
Qed.

Lemma mount_follows_lens_maker_witness :
  let r := image_read_exif metadata_tool "tca/P1.ORF" empty_world in
  let x := match r.1 with Ok x => x | Err _ => sample_exif end in
  r = (Ok x, r.2)
  /\ lens_maker x = Some "[unknown]" /\ mount x = None.
Proof.
  intros r x.
  assert (Hr : r = (Ok x, r.2)) by (vm_compute; reflexivity).
  split; [exact Hr|].
  destruct (mount_follows_lens_maker metadata_tool "tca/P1.ORF" empty_world
              r.2 x ∅ Hr eq_refl) as (maker & Hm & _ & Hnone).
  destruct (Hnone eq_refl eq_refl) as [-> Hmount].
  split; [exact Hm | exact Hmount].
Defined.

(** ** Raw files are recognised whatever the case of the extension *)

Lemma chars_map_string f s : chars (map_string f s) = map f (chars s).
Proof.
  unfold chars. induction s as [|c s IH]; simpl; [reflexivity | now rewrite IH].
Qed.

Lemma string_of_map f l :
  String.string_of_list_ascii (map f l)
  = map_string f (String.string_of_list_ascii l).
Proof. induction l as [|c l IH]; simpl; [reflexivity | now rewrite IH]. Qed.

Lemma rfind_from_map f c l :
  (forall x, Ascii.eqb (f x) c = Ascii.eqb x c) ->
  forall i found, rfind_from c (map f l) i found = rfind_from c l i found.
Proof.
  intros Hf. induction l as [|x l IH]; intros i found; simpl; [reflexivity|].
  now rewrite Hf, IH.
Qed.

(** [os.path.splitext] commutes with a change of case. *)
Lemma splitext_map_string f p :
  (forall x, Ascii.eqb (f x) "."%char = Ascii.eqb x "."%char) ->
  (forall x, Ascii.eqb (f x) "/"%char = Ascii.eqb x "/"%char) ->
  splitext (map_string f p)
  = (map_string f (splitext p).1, map_string f (splitext p).2).
Proof.
  intros Hdot Hsep. unfold splitext, rfind.
  rewrite chars_map_string, !rfind_from_map by assumption.
  set (l := chars p).
  set (sepIndex := rfind_from "/"%char l 0 (-1)).
  set (dotIndex := rfind_from "."%char l 0 (-1)).
  change (take ?n (map f l)) with (firstn n (map f l)).
  change (drop ?n (map f l)) with (skipn n (map f l)).
  rewrite !skipn_map, !firstn_map.
  assert (He : forall k,
    existsb (fun c => negb (Ascii.eqb c "."%char)) (map f k)
    = existsb (fun c => negb (Ascii.eqb c "."%char)) k).
  { induction k as [|x k IH]; simpl; [reflexivity | now rewrite Hdot, IH]. }
  rewrite He.
  destruct ((sepIndex <? dotIndex) && existsb _ _); cbn [fst snd].
  - now rewrite !string_of_map.
  - reflexivity.
Qed.

Lemma upper_lower_char c : upper_char (lower_char c) = upper_char c.
Proof. destruct c as [[] [] [] [] [] [] [] []]; reflexivity. Qed.

Lemma upper_upper_char c : upper_char (upper_char c) = upper_char c.
Proof. destruct c as [[] [] [] [] [] [] [] []]; reflexivity. Qed.

Lemma lower_char_keeps c d :
  d = "."%char \/ d = "/"%char ->
  Ascii.eqb (lower_char c) d = Ascii.eqb c d.
Proof.
  intros [-> | ->]; destruct c as [[] [] [] [] [] [] [] []]; reflexivity.
Qed.

Lemma upper_char_keeps c d :
  d = "."%char \/ d = "/"%char ->
  Ascii.eqb (upper_char c) d = Ascii.eqb c d.
Proof.
  intros [-> | ->]; destruct c as [[] [] [] [] [] [] [] []]; reflexivity.
Qed.

Lemma map_string_compose f g s :
  map_string f (map_string g s) = map_string (fun c => f (g c)) s.
Proof. induction s as [|c s IH]; simpl; [reflexivity | now rewrite IH]. Qed.

Lemma map_string_ext f g s :
  (forall c, f c = g c) -> map_string f s = map_string g s.
Proof.
  intros H. induction s as [|c s IH]; simpl; [reflexivity | now rewrite H, IH].
Qed.

(** X13.  [is_raw_file] looks at the extension only, and not at its case: a
    file name of ASCII characters, the same name in lower case and the
    same name in upper case are all raw files or none is. *)
Theorem is_raw_file_ignores_case (filename : string) :
  Forall (fun c => (code c < 128)%N) (chars filename) ->
  is_raw_file (lower filename) = is_raw_file filename
  /\ is_raw_file (upper filename) = is_raw_file filename.
Proof.
  intros _. unfold is_raw_file, lower, upper. split.
  - rewrite splitext_map_string
      by (intros; apply lower_char_keeps; auto).
    cbn [snd]. rewrite map_string_compose.
    now rewrite (map_string_ext _ upper_char) by apply upper_lower_char.
  - rewrite splitext_map_string
      by (intros; apply upper_char_keeps; auto).
    cbn [snd]. rewrite map_string_compose.
    now rewrite (map_string_ext _ upper_char) by apply upper_upper_char.
Qed.

Lemma is_raw_file_ignores_case_witness :
  is_raw_file "vignetting/P1.orf" = true
  /\ is_raw_file (upper "vignetting/P1.orf") = true.
Proof.
  destruct (is_raw_file_ignores_case "vignetting/P1.orf") as [_ Hupper].
  - repeat constructor.
  - split; [reflexivity | rewrite Hupper; reflexivity].
Defined.

Lemma converter_failure_raises_witness :
  let tiff := ["darktable-cli"; "distortion/P1.ORF";
               "distortion/exported/distortion.xmp";
               "distortion/exported/P1.tif";
               "--core"; "--configdir"; "/tmp/lenscal_";
               "--conf"; "plugins/lighttable/export/iccintent=0";
               "--conf"; "plugins/lighttable/export/iccprofile=sRGB";
               "--conf"; "plugins/lighttable/export/style=none";
               "--conf"; "plugins/imageio/format/tiff/bpp=16";
               "--conf"; "plugins/imageio/format/tiff/compress=5"] in
  (convert_raw_for_distortion failing_darktable "distortion/P1.ORF"
     "distortion/exported/distortion.xmp"
     (Some "distortion/exported/P1.tif") empty_world).1
  = Err (CalledProcessError tiff).
Proof.
  intros tiff.
  rewrite (proj1 (converter_failure_raises failing_darktable
                    "distortion/P1.ORF" "distortion/exported/distortion.xmp"
                    "distortion/exported/P1.tif" empty_world 1
                    (String.list_byte_of_string "cannot open image") [] ∅
                    eq_refl ltac:(discriminate)) eq_refl).
  reflexivity.
Defined.

(** ** The plot of the complex mode *)

(** X26.  In complex mode [tca_correct] plots after the artifact is written,
    so a problem with gnuplot comes too late to stop the artifact.  When
    gnuplot is not on the search path, the command starts with [None]
    and the call raises [TypeError]: the step fails although the [.tca]
    artifact and the plot script are in place.  When gnuplot is found
    but cannot be started, the step reports [Could not find gnuplot] and
    returns normally. *)
Theorem tca_plot_failure_keeps_artifact (E : env)
    (input_file original_file : string) (exif_data : exif) (w : world)
    (output errors : list Byte.byte) (decoded : string) (m : mstate)
    (fs' : gmap string content) :
  let tca_file := (splitext input_file).1 +:+ ".tca" in
  let gp_file := (splitext input_file).1 +:+ ".gp" in
  let pdf_file := (splitext input_file).1 +:+ ".pdf" in
  let cmd := ["tca_correct"; "-o"; "bv"; input_file] in
  let br := str_group (group (caps m) 1) in
  let vr := str_group (group (caps m) 2) in
  let bb := str_group (group (caps m) 3) in
  let vb := str_group (group (caps m) 4) in
  let written :=
    <[gp_file := Text (tca_plot E input_file pdf_file original_file exif_data
                         br vr bb vb)]>
      (<[tca_file := Config (lens_model exif_data)
                       (tca_items E exif_data true decoded br vr bb vb)]> fs') in
  let running := "Running TCA corrections for " +:+ input_file +:+ " ..." in
  fs w !! tca_file = None ->
  run_process E cmd (fs w) = Exited 0 output errors fs' ->
  decode_ascii output = Ok decoded ->
  re_match tca_data (codes decoded) = Some m ->
  before_set decoded = Ok decoded ->
  (which E "gnuplot" = None ->
   tca_correct E input_file original_file exif_data true w
   = (Err TypeError,
      {| fs := written; calls := calls w ++ [cmd];
         printed := printed w ++ [running] |}))
  /\ (forall gnuplot,
        which E "gnuplot" = Some gnuplot ->
        run_process E [gnuplot; gp_file] written = NotFound ->
        tca_correct E input_file original_file exif_data true w
        = (Ok tt,
           {| fs := written; calls := calls w ++ [cmd; [gnuplot; gp_file]];
              printed := printed w ++ [running; "Could not find gnuplot"] |})).
Proof.
  intros tca_file gp_file pdf_file cmd br vr bb vb written running
    Habs Hrun Hdec Hm Hset.
  assert (Hstart :
    tca_correct E input_file original_file exif_data true w
    = (plot_pdf E gp_file;; ret tt)
        {| fs := written; calls := calls w ++ [cmd];
           printed := printed w ++ [running] |}).
  { unfold tca_correct. fold tca_file gp_file pdf_file.
    unfold mbind at 1, M_bind at 1.
    rewrite (path_exists_absent w tca_file Habs). cbn [negb].
    unfold mbind at 1, M_bind at 1, print at 1. cbn [fs calls printed].
    unfold mbind at 1, M_bind at 1, spawn at 1. cbn [fs calls printed].
    fold cmd. rewrite Hrun. cbn [Z.eqb negb].
    unfold mbind at 1, M_bind at 1, lift at 1. rewrite Hdec, Hm.
    fold br vr bb vb.
    unfold mbind at 1, M_bind at 1, lift at 1. rewrite Hset.
    unfold mbind at 1, M_bind at 1, put at 1. cbn [fs calls printed].
    unfold mbind at 1, M_bind at 1, put at 1. cbn [fs calls printed].
    reflexivity. }
  split.
  - intros Hwhich. rewrite Hstart. unfold mbind at 1, M_bind at 1, plot_pdf.
    rewrite Hwhich. reflexivity.
  - intros gnuplot Hwhich Hgnuplot. rewrite Hstart.
    unfold mbind at 1, M_bind at 1, plot_pdf. rewrite Hwhich.
    unfold mbind at 1, M_bind at 1, spawn at 1. cbn [fs calls printed].
    rewrite Hgnuplot. unfold mbind, M_bind, print, ret. cbn [fs calls printed].
    now rewrite <- !app_assoc.
Qed.

Lemma tca_plot_failure_keeps_artifact_witness :
  exists w',
    tca_correct (tca_tool tca_example) "tca/exported/P1.ppm" "tca/P1.ORF"
      sample_exif true empty_world
    = (Err TypeError, w')
    /\ is_Some (fs w' !! "tca/exported/P1.tca").
Proof.
  assert (Hm : { m | re_match tca_data (codes tca_example) = Some m }).
  { eexists. vm_compute. reflexivity. }
  destruct Hm as [m Hm].
  eexists. split.
  - apply (proj1 (tca_plot_failure_keeps_artifact (tca_tool tca_example)
                    "tca/exported/P1.ppm" "tca/P1.ORF" sample_exif empty_world
                    (String.list_byte_of_string tca_example) [] tca_example m ∅
                    eq_refl eq_refl eq_refl Hm eq_refl)).
    reflexivity.
  - cbn [fs].
    change ((splitext "tca/exported/P1.ppm").1 +:+ ".gp")
      with "tca/exported/P1.gp".
    change ((splitext "tca/exported/P1.ppm").1 +:+ ".tca")
      with "tca/exported/P1.tca".
    rewrite lookup_insert_ne by discriminate. rewrite lookup_insert_eq. eauto.
Defined.

(* ===================================================================== *)
(** * The configuration store and the aggregator *)
(* ===================================================================== *)

Import Config.

(** ** Dict updates *)

Lemma get_dict_set_eq {V : Type} (d : dict V) k v :
  get (dict_set d k v) k = Ok v.
Proof.
  induction d as [|[k' v'] d IH]; simpl.
  - now rewrite String.eqb_refl.
  - destruct (String.eqb_spec k' k) as [->|Hne]; simpl.
    + now rewrite String.eqb_refl.
    + destruct (String.eqb_spec k' k); [congruence | exact IH].
Qed.

Lemma get_dict_set_ne {V : Type} (d : dict V) k k' v :
  k' <> k -> get (dict_set d k v) k' = get d k'.
Proof.
  intros Hne. induction d as [|[k0 v0] d IH]; simpl.
  - destruct (String.eqb_spec k k'); [congruence | reflexivity].
  - destruct (String.eqb_spec k0 k) as [->|Hk]; simpl.
    + destruct (String.eqb_spec k k'); [congruence | reflexivity].
    + destruct (String.eqb_spec k0 k'); [reflexivity | exact IH].
Qed.

Lemma dict_mem_get {V : Type} (d : dict V) k :
  dict_mem d k = true -> exists v, get d k = Ok v.
Proof.
  unfold dict_mem. induction d as [|[k' v'] d IH]; simpl; [discriminate|].
  destruct (String.eqb_spec k k') as [->|Hne]; simpl.
  - intros _. rewrite String.eqb_refl. eauto.
  - intros H. destruct (String.eqb_spec k' k); [congruence | now apply IH].
Qed.

Lemma dict_mem_false {V : Type} (d : dict V) k :
  dict_mem d k = false -> get d k = Err (KeyError k).
Proof.
  unfold dict_mem. induction d as [|[k' v'] d IH]; simpl; [reflexivity|].
  destruct (String.eqb_spec k k') as [->|Hne]; simpl; [discriminate|].
  intros H. destruct (String.eqb_spec k' k); [congruence | now apply IH].
Qed.

Lemma get_setdefault_eq {V : Type} (d : dict V) k v :
  get (setdefault d k v) k
  = Ok (match get d k with Ok v' => v' | Err _ => v end).
Proof.
  unfold setdefault. destruct (dict_mem d k) eqn:Hm.
  - destruct (dict_mem_get d k Hm) as (v' & Hv). now rewrite Hv.
  - rewrite (dict_mem_false d k Hm). apply get_dict_set_eq.
Qed.

Lemma get_setdefault_ne {V : Type} (d : dict V) k k' v :
  k' <> k -> get (setdefault d k v) k' = get d k'.
Proof.
  intros Hne. unfold setdefault. destruct (dict_mem d k); [reflexivity|].
  now apply get_dict_set_ne.
Qed.

Lemma get_absent {V : Type} (d : dict V) k e :
  get d k = Err e -> e = KeyError k /\ k ∉ keys d.
Proof.
  induction d as [|[k' v'] d IH]; simpl.
  - intros H. injection H as <-. split; [reflexivity | apply not_elem_of_nil].
  - destruct (String.eqb_spec k' k) as [->|Hne]; [discriminate|].
    intros H. destruct (IH H) as [He Hn]. split; [exact He|].
    intros Hin. apply elem_of_cons in Hin as [Heq|Hin]; [congruence | now apply Hn].
Qed.

(** The copy loop: an option of the artifact that is not skipped
    replaces what the record held; the other keys keep their value. *)
Lemma get_copy_options skip options :
  forall data key,
    NoDup (keys options) ->
    get (copy_options skip data options) key
    = match get options key with
      | Ok value =>
          if existsb (String.eqb key) skip then get data key else Ok value
      | Err _ => get data key
      end.
Proof.
  unfold copy_options.
  induction options as [|[k v] options IH]; intros data key Hnd;
    [reflexivity|].
  cbn [keys map fst] in Hnd. apply NoDup_cons in Hnd as [Hk Hnd].
  cbn [fold_left get]. rewrite IH by exact Hnd.
  destruct (String.eqb_spec k key) as [->|Hne].
  - destruct (get options key) as [value|e] eqn:Hg.
    + exfalso. apply Hk.
      assert (Hin : key ∈ keys options).
      { clear -Hg. induction options as [|[k' v'] options IH]; simpl in *;
          [discriminate|].
        destruct (String.eqb_spec k' key) as [->|]; [now left|].
        right. now apply IH. }
      exact Hin.
    + destruct (existsb (String.eqb key) skip) eqn:Hs.
      * reflexivity.
      * apply get_dict_set_eq.
  - assert (Hdata : get (if existsb (String.eqb k) skip then data
                          else dict_set data k v) key = get data key).
    { destruct (existsb (String.eqb k) skip); [reflexivity|].
      apply get_dict_set_ne. congruence. }
    rewrite Hdata. reflexivity.
Qed.

(** ** The scan of the [.tca] artifacts *)

(** What the record of a focal length held before a merge. *)
Lemma merge_tca_ok (lenses : dict entry) (lens_model : string)
    (options : dict string) (l : entry) (t : dict (dict string)) (f : string) :
  get lenses lens_model = Ok l ->
  get l "tca" = Ok (Tca t) ->
  get options "focal_length" = Ok f ->
  NoDup (keys options) ->
  let old := match get t f with Ok data => data | Err _ => [] end in
  exists lenses' l' t' data',
    merge_tca lenses lens_model options = Ok lenses'
    /\ get lenses' lens_model = Ok l'
    /\ get l' "tca" = Ok (Tca t')
    /\ get t' f = Ok data'
    /\ (forall key value,
          key <> "focal_length" -> get options key = Ok value ->
          get data' key = Ok value)
    /\ (forall key,
          key = "focal_length" \/ key ∉ keys options ->
          get data' key = get old key)
    /\ (forall other, other <> lens_model ->
          get lenses' other = get lenses other)
    /\ (forall k, k <> "tca" -> get l' k = get l k)
    /\ (forall f', f' <> f -> get t' f' = get t f').
Proof.
  intros Hl Ht Hf Hnd old. unfold merge_tca.
  rewrite Hf. unfold mbind at 1, result_bind at 1.
  rewrite Hl. unfold mbind at 1, result_bind at 1.
  rewrite Ht. unfold mbind at 1, result_bind at 1.
  rewrite get_setdefault_eq. unfold mbind at 1, result_bind at 1. fold old.
  eexists _, _, _, _. split; [reflexivity|].
  split; [apply get_dict_set_eq|]. split; [apply get_dict_set_eq|].
  split; [apply get_dict_set_eq|].
  split; [|split; [|split; [|split]]].
  - intros key value Hk Hv. rewrite get_copy_options by exact Hnd.
    rewrite Hv. cbn [existsb].
    destruct (String.eqb_spec key "focal_length"); [congruence | reflexivity].
  - intros key Hk. rewrite get_copy_options by exact Hnd.
    destruct Hk as [->|Hk].
    + rewrite Hf. reflexivity.
    + destruct (get options key) as [value|e] eqn:Hg; [|reflexivity].
      exfalso. apply Hk. clear -Hg.
      induction options as [|[k' v'] options IH]; simpl in *; [discriminate|].
      destruct (String.eqb_spec k' key) as [->|]; [now left|].
      right. now apply IH.
  - intros other Ho. now apply get_dict_set_ne.
  - intros k Hk. now apply get_dict_set_ne.
  - intros f' Hf'. rewrite get_dict_set_ne by exact Hf'.
    now apply get_setdefault_ne.
Qed.

(** X14.  Scanning a [.tca] artifact records its options, all but
    [focal_length], under the lens named by its section and the focal
    length it states: each option replaces the value the record held for
    that key, the other keys of the record stay; the records of the other
    focal lengths, the other maps and options of the lens, and the other
    lenses are untouched. *)
Theorem tca_artifact_recorded (lenses : dict entry) (lens_model : string)
    (options : dict string) (l : entry) (t : dict (dict string)) (f : string) :
  get lenses lens_model = Ok l ->
  get l "tca" = Ok (Tca t) ->
  get options "focal_length" = Ok f ->
  NoDup (keys options) ->
  let old := match get t f with Ok data => data | Err _ => [] end in
  exists lenses' l' t' data',
    merge_tca lenses lens_model options = Ok lenses'
    /\ get lenses' lens_model = Ok l'
    /\ get l' "tca" = Ok (Tca t')
    /\ get t' f = Ok data'
    /\ (forall key value,
          key <> "focal_length" -> get options key = Ok value ->
          get data' key = Ok value)
    /\ (forall key,
          key = "focal_length" \/ key ∉ keys options ->
          get data' key = get old key)
    /\ (forall other, other <> lens_model ->
          get lenses' other = get lenses other)
    /\ (forall k, k <> "tca" -> get l' k = get l k)
    /\ (forall f', f' <> f -> get t' f' = get t f').
Proof. exact (merge_tca_ok lenses lens_model options l t f). Qed.

(** X15.  An artifact naming a lens that [lenses.conf] does not have stops
    the generation: both scans raise [KeyError] with the lens model (once
    the artifact states its focal length). *)
Theorem artifact_of_unknown_lens_raises (lenses : dict entry)
    (lens_model : string) (options : dict string) (f : string) :
  lens_model ∉ keys lenses ->
  get options "focal_length" = Ok f ->
  merge_tca lenses lens_model options = Err (KeyError lens_model)
  /\ merge_vignetting lenses lens_model options = Err (KeyError lens_model)
  /\ forall artifacts rest,
       scan merge_tca lenses (((lens_model, options) :: rest) :: artifacts)
       = Err (KeyError lens_model).
Proof.
  intros Hn Hf.
  assert (Hg : get lenses lens_model = Err (KeyError lens_model)).
  { destruct (get lenses lens_model) as [l|e] eqn:Hg.
    - exfalso. apply Hn. clear -Hg.
      induction lenses as [|[k' v'] lenses IH]; simpl in *; [discriminate|].
      destruct (String.eqb_spec k' lens_model) as [->|]; [now left|].
      right. now apply IH.
    - now destruct (get_absent _ _ _ Hg) as [-> _]. }
  assert (Hm : merge_tca lenses lens_model options = Err (KeyError lens_model)).
  { unfold merge_tca. rewrite Hf. unfold mbind at 1, result_bind at 1.
    now rewrite Hg. }
  split; [exact Hm|]. split.
  - unfold merge_vignetting. rewrite Hf. unfold mbind at 1, result_bind at 1.
    now rewrite Hg.
  - intros artifacts rest. unfold scan. cbn [foldM].
    unfold mbind at 2, result_bind at 2. now rewrite Hm.
Qed.

Ltac not_in :=
  let H := fresh in
  intros H; cbn in H;
  repeat (apply elem_of_cons in H as [H|H]; [discriminate H|]);
  apply elem_of_nil in H; exact H.

Ltac nodup_strings :=
  cbn; repeat (apply NoDup_cons_2; [not_in|]); apply NoDup_nil_2.

Lemma tca_artifact_recorded_witness :
  let options := [("focal_length", "14.0"); ("complex_tca", "False");
                  ("vr", "1.0003"); ("vb", "0.9998")] in
  let lenses := [("Zuiko", empty_entry)] in
  exists lenses' l' t' data',
    merge_tca lenses "Zuiko" options = Ok lenses'
    /\ get lenses' "Zuiko" = Ok l'
    /\ get l' "tca" = Ok (Tca t')
    /\ get t' "14.0" = Ok data'
    /\ get data' "vr" = Ok "1.0003".
Proof.
  intros options lenses.
  destruct (tca_artifact_recorded lenses "Zuiko" options empty_entry [] "14.0")
    as (lenses' & l' & t' & data' & Hm & Hl & Ht & Hd & Hcopy & _);
    try reflexivity; [nodup_strings|].
  exists lenses', l', t', data'. repeat split; try assumption.
  apply Hcopy; [discriminate | reflexivity].
Defined.

Lemma artifact_of_unknown_lens_raises_witness :
  merge_tca [("Zuiko", empty_entry)] "Nikkor" [("focal_length", "50.0")]
  = Err (KeyError "Nikkor").
Proof.
  refine (proj1 (artifact_of_unknown_lens_raises [("Zuiko", empty_entry)]
                   "Nikkor" [("focal_length", "50.0")] "50.0" _ eq_refl)).
  intros H. apply list_elem_of_singleton in H. discriminate.
Defined.

(** X16.  Two artifacts of the same lens and focal length: the one scanned
    later decides every option it states, whatever the first one held;
    an option only the first one states survives. *)
Theorem later_artifact_wins (lenses : dict entry) (lens_model : string)
    (first second : dict string) (l : entry) (t : dict (dict string))
    (f : string) :
  get lenses lens_model = Ok l ->
  get l "tca" = Ok (Tca t) ->
  get first "focal_length" = Ok f ->
  get second "focal_length" = Ok f ->
  NoDup (keys first) -> NoDup (keys second) ->
  exists lenses' l' t' data,
    scan merge_tca lenses [[(lens_model, first)]; [(lens_model, second)]]
    = Ok lenses'
    /\ get lenses' lens_model = Ok l'
    /\ get l' "tca" = Ok (Tca t')
    /\ get t' f = Ok data
    /\ (forall key value,
          key <> "focal_length" -> get second key = Ok value ->
          get data key = Ok value)
    /\ (forall key value,
          key <> "focal_length" -> key ∉ keys second ->
          get first key = Ok value -> get data key = Ok value).
Proof.
  intros Hl Ht Hf1 Hf2 Hn1 Hn2.
  destruct (merge_tca_ok lenses lens_model first l t f Hl Ht Hf1 Hn1)
    as (lenses1 & l1 & t1 & data1 & Hm1 & Hl1 & Ht1 & Hd1 & Hcopy1 & _).
  destruct (merge_tca_ok lenses1 lens_model second l1 t1 f Hl1 Ht1 Hf2 Hn2)
    as (lenses2 & l2 & t2 & data2 & Hm2 & Hl2 & Ht2 & Hd2 & Hcopy2 & Hold2 & _).
  exists lenses2, l2, t2, data2.
  split.
  { unfold scan. cbn [foldM]. unfold mbind, result_bind.
    rewrite Hm1, Hm2. reflexivity. }
  split; [exact Hl2|]. split; [exact Ht2|]. split; [exact Hd2|]. split.
  - exact Hcopy2.
  - intros key value Hk Hn Hv. rewrite Hold2 by now right.
    rewrite Hd1. now apply Hcopy1.
Qed.

Lemma later_artifact_wins_witness :
  let first := [("focal_length", "14.0"); ("vr", "1.0001"); ("br", "0.1")] in
  let second := [("focal_length", "14.0"); ("vr", "1.0003")] in
  exists lenses' l' t' data,
    scan merge_tca [("Zuiko", empty_entry)]
      [[("Zuiko", first)]; [("Zuiko", second)]] = Ok lenses'
    /\ get lenses' "Zuiko" = Ok l'
    /\ get l' "tca" = Ok (Tca t')
    /\ get t' "14.0" = Ok data
    /\ get data "vr" = Ok "1.0003" /\ get data "br" = Ok "0.1".
Proof.
  intros first second.
  destruct (later_artifact_wins [("Zuiko", empty_entry)] "Zuiko" first second
              empty_entry [] "14.0")
    as (lenses' & l' & t' & data & Hs & Hl & Ht & Hd & Hsecond & Hfirst);
    try reflexivity; try nodup_strings.
  exists lenses', l', t', data. repeat split; try assumption.
  - apply Hsecond; [discriminate | reflexivity].
  - apply Hfirst; [discriminate | not_in | reflexivity].
Defined.

(** ** The scan of the [.vig] artifacts *)

Lemma get_in_keys {V : Type} (d : dict V) k v : get d k = Ok v -> k ∈ keys d.
Proof.
  induction d as [|[k' v'] d IH]; simpl; [discriminate|].
  destruct (String.eqb_spec k' k) as [->|]; [now left|].
  intros H. right. now apply IH.
Qed.

(** X17.  Scanning a [.vig] artifact records its options, all but the three
    that locate it, under the lens of its section, its focal length, its
    aperture and its distance; the records of the other distances of
    that aperture, the other apertures, the other focal lengths and the
    other lenses are untouched. *)
Theorem vignetting_artifact_recorded (lenses : dict entry) (lens_model : string)
    (options : dict string) (l : entry)
    (v : dict (dict (dict (dict string)))) (f a d : string) :
  get lenses lens_model = Ok l ->
  get l "vignetting" = Ok (Vignetting v) ->
  get options "focal_length" = Ok f ->
  get options "aperture" = Ok a ->
  get options "distance" = Ok d ->
  NoDup (keys options) ->
  let old_apertures := match get v f with Ok x => x | Err _ => [] end in
  let old_distances :=
    match get old_apertures a with Ok x => x | Err _ => [] end in
  exists lenses' l' v' apertures distances data,
    merge_vignetting lenses lens_model options = Ok lenses'
    /\ get lenses' lens_model = Ok l'
    /\ get l' "vignetting" = Ok (Vignetting v')
    /\ get v' f = Ok apertures
    /\ get apertures a = Ok distances
    /\ get distances d = Ok data
    /\ (forall key value,
          key <> "focal_length" -> key <> "aperture" -> key <> "distance" ->
          get options key = Ok value -> get data key = Ok value)
    /\ (forall d', d' <> d -> get distances d' = get old_distances d')
    /\ (forall a', a' <> a -> get apertures a' = get old_apertures a')
    /\ (forall f', f' <> f -> get v' f' = get v f')
    /\ (forall k, k <> "vignetting" -> get l' k = get l k)
    /\ (forall other, other <> lens_model ->
          get lenses' other = get lenses other).
Proof.
  intros Hl Hv Hf Ha Hd Hnd old_apertures old_distances.
  unfold merge_vignetting.
  rewrite Hf. unfold mbind at 1, result_bind at 1.
  rewrite Hl. unfold mbind at 1, result_bind at 1.
  rewrite Hv. unfold mbind at 1, result_bind at 1.
  rewrite Ha. unfold mbind at 1, result_bind at 1.
  rewrite get_setdefault_eq. unfold mbind at 1, result_bind at 1.
  fold old_apertures.
  rewrite Hd. unfold mbind at 1, result_bind at 1.
  rewrite get_setdefault_eq. unfold mbind at 1, result_bind at 1.
  fold old_distances.
  rewrite get_setdefault_eq. unfold mbind at 1, result_bind at 1.
  eexists _, _, _, _, _, _. split; [reflexivity|].
  do 5 (split; [apply get_dict_set_eq|]).
  split; [|split; [|split; [|split; [|split]]]].
  - intros key value H1 H2 H3 Hk. rewrite get_copy_options by exact Hnd.
    rewrite Hk. cbn [existsb].
    destruct (String.eqb_spec key "focal_length"); [congruence|].
    destruct (String.eqb_spec key "aperture"); [congruence|].
    destruct (String.eqb_spec key "distance"); [congruence | reflexivity].
  - intros d' Hd'. rewrite get_dict_set_ne by exact Hd'.
    now apply get_setdefault_ne.
  - intros a' Ha'. rewrite get_dict_set_ne by exact Ha'.
    now apply get_setdefault_ne.
  - intros f' Hf'. rewrite get_dict_set_ne by exact Hf'.
    now apply get_setdefault_ne.
  - intros k Hk. now apply get_dict_set_ne.
  - intros other Ho. now apply get_dict_set_ne.
Qed.

Lemma vignetting_artifact_recorded_witness :
  let options := [("focal_length", "14.0"); ("aperture", "8.0");
                  ("distance", "inf"); ("a", "30000.0000000");
                  ("k1", "-0.3000000"); ("k2", "0.0000000");
                  ("k3", "0.0000000")] in
  exists lenses' l' v' apertures distances data,
    merge_vignetting [("Zuiko", empty_entry)] "Zuiko" options = Ok lenses'
    /\ get lenses' "Zuiko" = Ok l'
    /\ get l' "vignetting" = Ok (Vignetting v')
    /\ get v' "14.0" = Ok apertures
    /\ get apertures "8.0" = Ok distances
    /\ get distances "inf" = Ok data
    /\ get data "k1" = Ok "-0.3000000".
Proof.
  intros options.
  destruct (vignetting_artifact_recorded [("Zuiko", empty_entry)] "Zuiko"
              options empty_entry [] "14.0" "8.0" "inf")
    as (lenses' & l' & v' & aps & ds & data & Hm & Hl & Hv & Hf & Ha & Hd
        & Hcopy & _);
    try reflexivity; [nodup_strings|].
  exists lenses', l', v', aps, ds, data. repeat split; try assumption.
  apply Hcopy; [discriminate | discriminate | discriminate | reflexivity].
Defined.

(** ** From [lenses.conf] and the artifacts to the database *)



Lemma string_of_chars s : String.string_of_list_ascii (chars s) = s.
Proof. apply String.string_of_list_ascii_of_string. Qed.



Lemma bind_Ok {A B : Type} (x : A) (f : A -> result B) : Ok x ≫= f = f x.
Proof. reflexivity. Qed.



Lemma get_single {V : Type} k (v : V) : get [(k, v)] k = Ok v.
Proof. simpl. now rewrite String.eqb_refl. Qed.






(** ** The template of [create_lenses_config] *)

Lemma set_writable p name key v :
  writable p name ->
  v = "" \/ before_set v = Ok v ->
  exists p', set p name key (Some v) = Ok p' /\ writable p' name.
Proof.
  intros Hw Hv. unfold set.
  assert (Hcheck : (if String.eqb v "" then Ok v else before_set v) = Ok v).
  { destruct Hv as [->|Hv]; [reflexivity|].
    destruct (String.eqb v ""); [reflexivity | exact Hv]. }
  rewrite Hcheck. cbn [mbind result_bind].
  destruct (String.eqb_spec name "") as [->|Hn1]; cbn [orb].
  { eexists. split; [reflexivity | now left]. }
  destruct (String.eqb_spec name default_section) as [->|Hn2].
  { eexists. split; [reflexivity | right; now left]. }
  destruct Hw as [?|[?|[s Hs]]]; try contradiction.
  rewrite Hs. eexists. split; [reflexivity|].
  right. right. cbn [sections]. eexists. apply get_dict_set_eq.
Qed.

(** X19.  The template cannot be written for a lens whose first image has no
    mount: setting the option raises [TypeError], whatever the other
    images and lenses are.  This is so for every lens maker but the
    three for which [image_read_exif] knows a mount, among them the maker
    of an image without lens tags. *)
Theorem template_needs_a_mount (E : env) (name maker : string) (first : exif)
    (rest : list exif) (more : dict (list exif)) :
  lens_maker first = Some maker ->
  maker = "" \/ before_set maker = Ok maker ->
  mount first = None ->
  build_lenses_config E ((name, first :: rest) :: more) = Err TypeError.
Proof.
  intros Hmaker Hplain Hmount. unfold build_lenses_config. cbn [foldM].
  change (index (first :: rest) 0) with (Ok first). rewrite bind_Ok.
  assert (Hassign :
    assign_section {| defaults := []; sections := [] |} name
      (lens_section E first) = Err TypeError).
  { unfold assign_section, lens_section. rewrite Hmaker, Hmount.
    cbv zeta. unfold dict_mem. cbn [sections defaults keys map existsb].
    destruct (String.eqb name default_section) eqn:Hn; cbn [orb];
      cbn [sections defaults keys map existsb dict_set];
      match goal with
      | |- foldM _ ?p _ = _ => assert (Hw : writable p name); [|set (p0 := p) in *]
      end.
    1: { apply String.eqb_eq in Hn. right. now left. }
    2: { right. right. cbn [sections]. eexists. apply get_single. }
    all: cbn [foldM];
      destruct (set_writable p0 name "maker" maker Hw Hplain) as (p1 & Hset & _);
      rewrite Hset, bind_Ok; reflexivity. }
  rewrite Hassign. reflexivity.
Qed.

Lemma template_needs_a_mount_witness :
  let r := image_read_exif metadata_tool "distortion/P1.ORF" empty_world in
  let x := match r.1 with Ok x => x | Err _ => sample_exif end in
  r = (Ok x, r.2)
  /\ lens_maker x = Some "[unknown]"
  /\ build_lenses_config metadata_tool [(lens_model x, [x])] = Err TypeError.
Proof.
  intros r x.
  assert (Hr : r = (Ok x, r.2)) by (vm_compute; reflexivity).
  split; [exact Hr|]. split; [reflexivity|].
  apply (template_needs_a_mount metadata_tool (lens_model x) "[unknown]" x [] []).
  - reflexivity.
  - right. reflexivity.
  - reflexivity.
Defined.

(** ** Grouping the images by lens *)

Lemma keys_dict_set {V : Type} (d : dict V) k v :
  keys (dict_set d k v) = if dict_mem d k then keys d else keys d ++ [k].
Proof.
  unfold dict_mem. induction d as [|[k' v'] d IH]; simpl; [reflexivity|].
  destruct (String.eqb_spec k' k) as [->|Hne]; simpl.
  - now rewrite String.eqb_refl.
  - destruct (String.eqb_spec k k'); [congruence|]. simpl.
    rewrite IH. now destruct (existsb (String.eqb k) (keys d)).
Qed.

Lemma dict_mem_elem_of {V : Type} (d : dict V) k :
  dict_mem d k = true <-> k ∈ keys d.
Proof.
  unfold dict_mem. rewrite existsb_exists. split.
  - intros (x & Hin & Heq). apply String.eqb_eq in Heq. subst.
    now apply list_elem_of_In.
  - intros Hin. exists k. split; [now apply list_elem_of_In | apply String.eqb_refl].
Qed.

Lemma NoDup_dict_set {V : Type} (d : dict V) k v :
  NoDup (keys d) -> NoDup (keys (dict_set d k v)).
Proof.
  intros Hnd. rewrite keys_dict_set. destruct (dict_mem d k) eqn:Hm; [exact Hnd|].
  apply NoDup_app. split; [exact Hnd|]. split; [|apply NoDup_singleton].
  intros x Hx Hk. apply list_elem_of_singleton in Hk. subst x.
  apply dict_mem_elem_of in Hx. congruence.
Qed.

Lemma group_step (groups : dict (list exif)) (x : exif) :
  NoDup (keys groups) ->
  let groups' :=
    let groups := setdefault groups (lens_model x) [] in
    match get groups (lens_model x) with
    | Ok group => dict_set groups (lens_model x) (group ++ [x])
    | Err _ => groups
    end in
  NoDup (keys groups')
  /\ forall name,
       get groups' name
       = if String.eqb (lens_model x) name
         then Ok (match get groups name with Ok g => g | Err _ => [] end ++ [x])
         else get groups name.
Proof.
  intros Hnd groups'. unfold groups'. rewrite get_setdefault_eq. split.
  - apply NoDup_dict_set. unfold setdefault.
    destruct (dict_mem groups (lens_model x)); [exact Hnd|].
    now apply NoDup_dict_set.
  - intros name. destruct (String.eqb_spec (lens_model x) name) as [<-|Hne].
    + apply get_dict_set_eq.
    + rewrite get_dict_set_ne by congruence.
      apply get_setdefault_ne. congruence.
Qed.

(** X20.  The grouping of [run_distortion] is a partition of the images read:
    the group of a lens model holds exactly the records of that model, in
    the order they were read; a model without image has no group; no
    model has two groups. *)
Theorem group_by_lens_partitions (records : list exif) :
  NoDup (keys (group_by_lens records))
  /\ forall name,
       get (group_by_lens records) name
       = match List.filter (fun x => String.eqb (lens_model x) name) records with
         | [] => Err (KeyError name)
         | group => Ok group
         end.
Proof.
  unfold group_by_lens.
  assert (H : forall (acc : dict (list exif)),
    NoDup (keys acc) ->
    (forall name g, get acc name = Ok g -> g <> []) ->
    let groups :=
      fold_left (fun groups exif_data =>
                   let groups := setdefault groups (lens_model exif_data) [] in
                   match get groups (lens_model exif_data) with
                   | Ok group =>
                       dict_set groups (lens_model exif_data)
                         (group ++ [exif_data])
                   | Err _ => groups
                   end) records acc in
    NoDup (keys groups)
    /\ forall name,
         get groups name
         = match match get acc name with Ok g => g | Err _ => [] end
                 ++ List.filter (fun x => String.eqb (lens_model x) name) records
           with
           | [] => Err (KeyError name)
           | group => Ok group
           end).
  { induction records as [|x records IH]; intros acc Hnd Hne groups.
    - split; [exact Hnd|]. intros name. unfold groups. cbn [fold_left List.filter].
      rewrite app_nil_r. destruct (get acc name) as [g|e] eqn:Hg.
      + specialize (Hne name g Hg). now destruct g.
      + now destruct (get_absent _ _ _ Hg) as [-> _].
    - destruct (group_step acc x Hnd) as [Hnd' Hget']. cbv zeta in Hnd', Hget'.
      unfold groups. cbn [fold_left].
      match goal with
      | |- context [fold_left _ records ?a] => specialize (IH a Hnd')
      end.
      destruct IH as [IH1 IH2].
      { intros name g Hg. rewrite Hget' in Hg.
        destruct (String.eqb (lens_model x) name).
        - injection Hg as <-. now destruct (match get acc name with Ok g0 => g0 | Err _ => [] end).
        - now apply (Hne name). }
      split; [exact IH1|]. intros name. rewrite IH2, Hget'.
      cbn [List.filter].
      destruct (String.eqb (lens_model x) name); [|reflexivity].
      now rewrite <- app_assoc. }
  destruct (H [] (NoDup_nil_2)) as [H1 H2]; [discriminate|].
  split; [exact H1|]. intros name. now rewrite H2.
Qed.

(** ** Keys that are not numbers *)

Lemma sorted_by_float_non_numeric (l : list string) (k : string) :
  k ∈ l -> float_opt k = None ->
  sorted_by_float l = Err (ValueError "could not convert string to float").
Proof.
  intros Hin Hk. unfold sorted_by_float.
  assert (H : traverse (fun s => k ← float s; Ok (k, s)) l
              = Err (ValueError "could not convert string to float")).
  { induction l as [|x l IH]; [now apply elem_of_nil in Hin|].
    cbn [traverse]. apply elem_of_cons in Hin as [<-|Hin].
    - unfold float. now rewrite Hk.
    - rewrite (IH Hin). unfold float. now destruct (float_opt x). }
  now rewrite H.
Qed.

(** X21.  The focal lengths of a block are sorted as numbers before anything
    is written: one key that [float] rejects makes the emission of the
    block raise [ValueError], whatever the other keys and the values
    are. *)
Theorem non_numeric_focal_length_raises (k : string) :
  float_opt k = None ->
  (forall d : dict string, k ∈ keys d ->
     emit_distortion d
     = Err (ValueError "could not convert string to float"))
  /\ (forall t : dict (dict string), k ∈ keys t ->
        emit_tca t = Err (ValueError "could not convert string to float"))
  /\ (forall v : dict (dict (dict (dict string))), k ∈ keys v ->
        emit_vignetting v
        = Err (ValueError "could not convert string to float")).
Proof.
  intros Hk. repeat split; intros m Hin.
  - unfold emit_distortion.
    now rewrite (sorted_by_float_non_numeric _ k Hin Hk).
  - unfold emit_tca. now rewrite (sorted_by_float_non_numeric _ k Hin Hk).
  - unfold emit_vignetting.
    now rewrite (sorted_by_float_non_numeric _ k Hin Hk).
Qed.

Lemma non_numeric_focal_length_raises_witness :
  float_opt "7.0mm" = None
  /\ emit_distortion [("7.0mm", "0.0, 0.0, 0.0"); ("14.0", "0.0, 0.0, 0.0")]
     = Err (ValueError "could not convert string to float").
Proof.
  split; [reflexivity|].
  apply (proj1 (non_numeric_focal_length_raises "7.0mm" eq_refl)).
  cbn. apply list_elem_of_here.
Defined.

(** ** The template, read back *)












Section Template.
Context (E : env).



End Template.


(** ** Shipping after generating *)

Import Ship.

Lemma length_map_string f s : String.length (map_string f s) = String.length s.
Proof. induction s as [|c s IH]; simpl; [reflexivity | now rewrite IH]. Qed.

Lemma length_append s1 s2 :
  String.length (s1 +:+ s2) = (String.length s1 + String.length s2)%nat.
Proof. induction s1 as [|c s1 IH]; simpl; [reflexivity | now rewrite IH]. Qed.

Lemma generate_xml_filename current_time config tca_artifacts vig_artifacts
    filename document :
  generate_xml current_time config tca_artifacts vig_artifacts
  = Ok (filename, document) ->
  exists first_key, filename = xml_filename first_key current_time.
Proof.
  unfold generate_xml. intros H.
  destruct (parse_lenses_config config) as [l1|]; [|discriminate].
  rewrite bind_Ok in H.
  destruct (scan merge_tca l1 tca_artifacts) as [l2|]; [|discriminate].
  rewrite bind_Ok in H.
  destruct (scan merge_vignetting l2 vig_artifacts) as [l3|]; [|discriminate].
  rewrite bind_Ok in H.
  destruct (index (keys l3) 0) as [first_key|]; [|discriminate].
  rewrite bind_Ok in H.
  destruct (traverse _ l3) as [ls|]; [|discriminate].
  rewrite bind_Ok in H. injection H as <- _. now exists first_key.
Qed.

(** X23.  The database that [run_generate_xml] writes is never the file
    [run_ship] looks for: the name of the generated file ends with the
    time stamp and [.xml], and is longer than [lensfun.xml].  In a
    working tree without a file of that name, [run_ship] after a
    generation reports that [lensfun.xml] was not found and returns; it
    builds no archive. *)
Theorem ship_misses_generated_database (pack : M unit)
    (current_time : string) (config : list (string * dict string))
    (tca_artifacts vig_artifacts : list (list (string * dict string)))
    (filename : string) (document : list line) (written : content) (w : world) :
  String.length current_time = 20%nat ->
  generate_xml current_time config tca_artifacts vig_artifacts
  = Ok (filename, document) ->
  fs w !! "lensfun.xml" = None ->
  filename <> "lensfun.xml"
  /\ run_ship pack (put filename written w).2
     = (Ok tt,
        {| fs := <[filename := written]> (fs w);
           calls := calls w;
           printed := printed w
             ++ ["lensfun.xml not found, please run the calibration steps first!"] |}).
Proof.
  intros Htime Hgen Habs.
  destruct (generate_xml_filename _ _ _ _ _ _ Hgen) as [first_key ->].
  assert (Hne : xml_filename first_key current_time <> "lensfun.xml").
  { intros Heq. apply (f_equal String.length) in Heq.
    unfold xml_filename in Heq.
    rewrite !length_append, length_map_string, Htime in Heq.
    cbn [String.length] in Heq. lia. }
  split; [exact Hne|].
  unfold run_ship, put. cbn [snd].
  unfold mbind at 1, M_bind at 1.
  rewrite path_exists_absent
    by (cbn [fs]; rewrite lookup_insert_ne by exact Hne; exact Habs).
  reflexivity.
Qed.

Lemma ship_misses_generated_database_witness :
  let config := [("Lens 1", [("maker", "Maker"); ("mount", "Mount");
                             ("cropfactor", "1.0"); ("type", "normal")])] in
  let filename := "Lens_1_04-11-2026_10:00:00.xml" in
  exists document,
    generate_xml "_04-11-2026_10:00:00" config [] [] = Ok (filename, document)
    /\ filename <> "lensfun.xml"
    /\ run_ship (ret tt) (put filename (Text []) empty_world).2
       = (Ok tt,
          {| fs := {[ filename := Text [] ]};
             calls := [];
             printed :=
               ["lensfun.xml not found, please run the calibration steps first!"] |}).
Proof.
  intros config filename.
  assert (Hgen : { document |
            generate_xml "_04-11-2026_10:00:00" config [] []
            = Ok (filename, document) }).
  { eexists. vm_compute. reflexivity. }
  destruct Hgen as [document Hgen]. exists document.
  split; [exact Hgen|].
  exact (ship_misses_generated_database (ret tt) "_04-11-2026_10:00:00" config
           [] [] filename document (Text []) empty_world eq_refl Hgen eq_refl).
Defined.

(* ===================================================================== *)
(** * Vignetting: from the raster to the bins *)
(* ===================================================================== *)

(** ** From the raster to the bins *)

Section Sampling.
Context (E : env).
Hypothesis hypot_nonneg : forall a b : Q, (0 <= hypot E a b)%Q.

Lemma pixel_radius_range (img : raster) (half_diagonal : Q) (x y : nat) :
  (0 <= half_diagonal)%Q ->
  Qeq_bool half_diagonal 0 = false ->
  exists radius,
    pixel_radius E img half_diagonal x y = Ok radius /\ (0 <= radius)%Q.
Proof.
  intros Hpos Hnz. unfold pixel_radius. rewrite Hnz. eexists. split; [reflexivity|].
  assert (Hlt : (0 < half_diagonal)%Q).
  { apply Qeq_bool_neq in Hnz. apply Qle_lteq in Hpos as [H|H]; [exact H|].
    exfalso. apply Hnz. now symmetry. }
  apply Qle_shift_div_l; [exact Hlt|]. rewrite Qmult_0_l. apply hypot_nonneg.
Qed.

(** The loop over the pixels, from any samples retained so far. *)
Lemma retain_from (img : raster) (half_diagonal : Q)
    (todo : list (nat * nat * N)) :
  (0 <= half_diagonal)%Q ->
  Qeq_bool half_diagonal 0 = false ->
  forall acc : list (Q * Q),
  Forall (fun s => in_unit_interval s.1) acc ->
  exists samples,
    foldM (fun acc '(x, y, v) =>
             radius ← pixel_radius E img half_diagonal x y;
             if Qle_bool radius maximal_radius
             then Ok (acc ++ [(radius, sample_value E (sample_type img) v)])
             else Ok acc)
          acc todo = Ok samples
    /\ Forall (fun s => in_unit_interval s.1) samples
    /\ (length samples <= length acc + length todo)%nat.
Proof.
  intros Hpos Hnz. induction todo as [|[[x y] v] todo IH]; intros acc Hacc.
  - exists acc. cbn. repeat split; [assumption | lia].
  - destruct (pixel_radius_range img half_diagonal x y Hpos Hnz)
      as (radius & Hr & Hr0).
    cbn [foldM]. rewrite Hr, bind_Ok.
    destruct (Qle_bool radius maximal_radius) eqn:Hle; rewrite bind_Ok.
    + destruct (IH (acc ++ [(radius, sample_value E (sample_type img) v)]))
        as (samples & Hs & Hall & Hlen).
      { apply Forall_app. split; [assumption|]. constructor; [|constructor].
        split; [exact Hr0 | now apply Qle_bool_iff]. }
      exists samples. repeat split; try assumption.
      rewrite length_app in Hlen. cbn [length] in *. lia.
    + destruct (IH acc Hacc) as (samples & Hs & Hall & Hlen).
      exists samples. repeat split; try assumption. cbn [length]. lia.
Qed.

Lemma retained_in_range (img : raster) (samples : list (Q * Q)) :
  retained_samples E img = Ok samples ->
  Forall (fun s => in_unit_interval s.1) samples.
Proof.
  unfold retained_samples.
  set (half_diagonal := hypot E _ _).
  destruct (Qeq_bool half_diagonal 0) eqn:Hz.
  - destruct (pixels img) as [|[[x y] v] todo].
    + cbn. intros [= <-]. constructor.
    + cbn [foldM]. unfold pixel_radius. rewrite Hz. discriminate.
  - destruct (retain_from img half_diagonal (pixels img)
                (hypot_nonneg _ _) Hz [] (Forall_nil_2 _))
      as (samples' & Hs & Hall & _).
    rewrite Hs. now intros [= <-].
Qed.

(** X24.  On a raster whose half diagonal is not zero the sampling of
    [calculate_vignetting] returns, every retained radius lies in [0,1],
    and the binning that follows finds a bin for every retained sample:
    it returns sixteen bins that hold as many values as samples were
    retained.  On a raster with a pixel whose half diagonal is zero the
    first division raises [ZeroDivisionError]. *)
Theorem retained_samples_are_binned (img : raster) :
  let half_diagonal :=
    hypot E (inject_Z (Z.of_nat (width img / 2)))
            (inject_Z (Z.of_nat (height img / 2))) in
  if Qeq_bool half_diagonal 0 then
    pixels img <> [] -> retained_samples E img = Err ZeroDivisionError
  else
    exists samples bins,
      retained_samples E img = Ok samples
      /\ Forall (fun s => in_unit_interval s.1) samples
      /\ (length samples <= length (pixels img))%nat
      /\ fill_bins samples = Ok bins
      /\ bin_samples (map fst samples) (map snd samples)
         = Ok (bin_radii, map median bins)
      /\ length bins = 16%nat
      /\ sum_list (map length bins) = length samples.
Proof.
  intros half_diagonal. destruct (Qeq_bool half_diagonal 0) eqn:Hz.
  - intros Hpx. unfold retained_samples. fold half_diagonal.
    destruct (pixels img) as [|[[x y] v] todo]; [congruence|].
    cbn [foldM]. unfold pixel_radius. now rewrite Hz.
  - destruct (retain_from img half_diagonal (pixels img)
                (hypot_nonneg _ _) Hz [] (Forall_nil_2 _))
      as (samples & Hs & Hall & Hlen).
    destruct (fill_from samples (replicate number_of_bins []))
      as (bins & Hf & Hl & Hsum & _); [reflexivity | assumption |].
    exists samples, bins. repeat split; try assumption.
    unfold bin_samples.
    change (zip (map fst samples) (map snd samples))
      with (zip (samples.*1) (samples.*2)).
    rewrite zip_fst_snd. unfold fill_bins in Hf. unfold fill_bins.
    now rewrite Hf.
Qed.

End Sampling.

Lemma no_tools_hypot_nonneg (a b : Q) : (0 <= hypot (no_tools []) a b)%Q.
Proof.
  cbn. assert (Ha : (0 <= a * a)%Q) by nra. assert (Hb : (0 <= b * b)%Q) by nra.
  lra.
Qed.

Lemma retained_samples_are_binned_witness :
  let img := {| width := 2; height := 2; sample_type := UInt8;
                rows := [[10; 20]; [30; 40]]%N |} in
  (forall a b : Q, (0 <= hypot (no_tools []) a b)%Q)
  /\ exists samples bins,
       retained_samples (no_tools []) img = Ok samples
       /\ fill_bins samples = Ok bins
       /\ sum_list (map length bins) = length samples.
Proof.
  intros img. split; [exact no_tools_hypot_nonneg|].
  pose proof (retained_samples_are_binned (no_tools []) no_tools_hypot_nonneg img)
    as H.
  cbv zeta in H.
  change (Qeq_bool (hypot (no_tools [])
                      (inject_Z (Z.of_nat (width img / 2)))
                      (inject_Z (Z.of_nat (height img / 2)))) 0)
    with false in H.
  destruct H as (samples & bins & Hs & _ & _ & Hf & _ & _ & Hsum).
  exists samples, bins. repeat split; assumption.
Defined.

(** ** A bin without sample *)

Lemma format_lines_nan (E : env) (items : list (Q * option Q)) (r : Q) :
  (r, None) ∈ items ->
  (format_lines (point_line E) items).2
  = Some (ValueError "cannot convert float NaN to integer").
Proof.
  induction items as [|[r' [q|]] items IH]; intros Hin.
  - now apply elem_of_nil in Hin.
  - apply elem_of_cons in Hin as [Heq|Hin]; [discriminate|].
    cbn [format_lines]. unfold point_line at 1. cbn [snd format_d fst].
    rewrite bind_Ok. specialize (IH Hin).
    destruct (format_lines (point_line E) items) as [ls e]. exact IH.
  - reflexivity.
Qed.

Lemma format_lines_points (E : env) (samples : list (Q * Q)) :
  (format_lines (point_line E) (map (fun s => (s.1, Some s.2)) samples)).2
  = None.
Proof.
  induction samples as [|s samples IH]; [reflexivity|].
  cbn [map format_lines]. unfold point_line at 1. cbn [snd format_d fst].
  rewrite bind_Ok.
  destruct (format_lines (point_line E) _) as [ls e]. exact IH.
Qed.

Lemma suffix_differs (s a b : string) : a <> b -> s +:+ a <> s +:+ b.
Proof. intros Hne H. apply Hne. now apply (inj (String.append s)) in H. Qed.

Section EmptyBin.
Context (E : env).
Hypothesis hypot_nonneg : forall a b : Q, (0 <= hypot E a b)%Q.

(** X25.  [calculate_vignetting] on an image one of whose sixteen radial bins
    receives no sample: the median of the empty bin is a NaN, which the
    line written to the [.bins.dat] file cannot format.  The step raises
    [ValueError] after the two data files; no [.vig] artifact is written
    and no process is started. *)
Theorem empty_bin_raises (input_file original_file : string)
    (exif_data : exif) (distance : pyfloat) (w : world)
    (buf : list Byte.byte) (img : raster) (samples : list (Q * Q)) (i : nat) :
  let vig_filename := (splitext input_file).1 +:+ ".vig" in
  fs w !! vig_filename = None ->
  fs w !! input_file = Some (Bytes buf) ->
  load_pgm input_file buf = Ok img ->
  retained_samples E img = Ok samples ->
  (i < 16)%nat ->
  members i samples = [] ->
  exists w',
    calculate_vignetting E input_file original_file exif_data distance w
    = (Err (ValueError "cannot convert float NaN to integer"), w')
    /\ fs w' !! vig_filename = None
    /\ calls w' = calls w.
Proof.
  intros vig_filename Habs Hfile Himg Hsamples Hi Hempty.
  pose proof (retained_in_range E hypot_nonneg img samples Hsamples) as Hall.
  destruct (fill_from samples (replicate number_of_bins []))
    as (bins & Hf & Hl & _ & Hm); [reflexivity | assumption |].
  assert (Hbin : bins !! i = Some []).
  { rewrite (Hm i []); [now rewrite Hempty|].
    unfold number_of_bins. now apply lookup_replicate_2. }
  assert (Hbinned : bin_samples (map fst samples) (map snd samples)
                    = Ok (bin_radii, map median bins)).
  { unfold bin_samples.
    change (zip (map fst samples) (map snd samples))
      with (zip (samples.*1) (samples.*2)).
    rewrite zip_fst_snd. unfold fill_bins in Hf. unfold fill_bins.
    now rewrite Hf. }
  assert (Hnan : exists r, (r, None) ∈ zip bin_radii (map median bins)).
  { destruct (lookup_lt_is_Some_2 bin_radii i) as [r Hr]; [exact Hi|].
    exists r. apply (list_elem_of_lookup_2 _ i).
    apply lookup_zip_with_Some. exists r, None. repeat split; [exact Hr|].
    change (map median bins) with (median <$> bins).
    now rewrite list_lookup_fmap, Hbin. }
  destruct Hnan as [r Hnan].
  pose proof (format_lines_nan E _ r Hnan) as Hbins.
  pose proof (format_lines_points E samples) as Hpoints.
  unfold calculate_vignetting. fold vig_filename.
  unfold mbind at 1, M_bind at 1.
  rewrite (path_exists_absent w vig_filename Habs).
  unfold mbind at 1, M_bind at 1, print at 1. cbn [fs calls printed].
  unfold mbind at 1, M_bind at 1, load_pgm_file at 1.
  unfold mbind at 1, M_bind at 1, read_bytes at 1. cbn [fs calls printed].
  rewrite Hfile. unfold lift at 1. rewrite Himg.
  unfold mbind at 1, M_bind at 1, lift at 1. rewrite Hsamples.
  unfold mbind at 1, M_bind at 1, write_lines at 1.
  destruct (format_lines (point_line E) (map _ samples)) as [points e] eqn:Hp.
  cbn [snd] in Hpoints. subst e.
  unfold mbind at 1, M_bind at 1, put at 1. cbn [fs calls printed]. unfold ret at 1.
  unfold mbind at 1, M_bind at 1, lift at 1. rewrite Hbinned.
  unfold mbind at 1, M_bind at 1, write_lines at 1.
  destruct (format_lines (point_line E) (zip bin_radii (map median bins)))
    as [binned e] eqn:Hb.
  cbn [snd] in Hbins. subst e.
  unfold mbind at 1, M_bind at 1, put at 1. cbn [fs calls printed].
  unfold raise at 1.
  eexists. split; [reflexivity|]. cbn [fs calls]. split; [|reflexivity].
  rewrite !lookup_insert_ne; [exact Habs | |];
    apply suffix_differs; discriminate.
Qed.

End EmptyBin.

Lemma empty_bin_raises_witness :
  let buf := bytes_of "P5 2 2 255 abcd" in
  let w := {| fs := {[ "vignetting/exported/P1.pgm" := Bytes buf ]};
              calls := []; printed := [] |} in
  fs w !! "vignetting/exported/P1.vig" = None
  /\ exists w',
       calculate_vignetting (no_tools []) "vignetting/exported/P1.pgm"
         "vignetting/P1.ORF" sample_exif PInf w
       = (Err (ValueError "cannot convert float NaN to integer"), w')
       /\ fs w' !! "vignetting/exported/P1.vig" = None.
Proof.
  intros buf w. split; [reflexivity|].
  destruct (empty_bin_raises (no_tools []) no_tools_hypot_nonneg
              "vignetting/exported/P1.pgm" "vignetting/P1.ORF" sample_exif
              PInf w buf
              {| width := 2; height := 2; sample_type := UInt8;
                 rows := [[97; 98]; [99; 100]]%N |}
              [(2 # 2, 97); (1 # 2, 98); (1 # 2, 99); (0 # 2, 100)]%Q 1%nat)
    as (w' & Hrun & Hvig & _).
  - reflexivity.
  - reflexivity.
  - vm_compute. reflexivity.
  - vm_compute. reflexivity.
  - lia.
  - vm_compute. reflexivity.
  - exists w'. split; assumption.
Defined.
